(** * GAS-DB: the Collection runtime (src/04_core/Collection.js)

    A shallow embedding of the [Collection] class: its fields, its
    private helpers and its public methods, method by method, as a state
    and error monad over the collection object and the services it was
    given.  The collaborators it drives ([Validate], [ObjectUtils],
    [FieldPath], [QueryEngine], [UpdateEngine], [DocumentOperations],
    [CollectionMetadata], [FileService], [MasterIndex]) are modelled from
    the specification; each such definition says so.

    JavaScript values are a tagged union; finite numbers are integers
    (floating point is outside the model) and an object is the list of its
    own enumerable properties in [Object.keys] order. *)

From Stdlib Require Import List String Ascii ZArith NArith Bool Arith Lia.
From Stdlib Require Import DecimalString.
Import ListNotations.
Open Scope string_scope.

Set Implicit Arguments.
Set Warnings "-register-all".

(* ================================================================== *)
(** ** JavaScript values *)

Module JS.

(** A JavaScript value as the methods see it. *)
Inductive value : Type :=
| VUndefined
| VNull
| VBool (b : bool)
| VNum (n : Z)
| VStr (s : string)
| VDate (instant : Z)
| VArr (items : list value)
| VObj (props : list (string * value)).

(** The properties of a plain object, in enumeration order. *)
Definition object := list (string * value).

(** [!!v] *)
Definition truthy (v : value) : bool :=
  match v with
  | VUndefined | VNull => false
  | VBool b => b
  | VNum n => negb (n =? 0)%Z
  | VStr s => negb (s =? EmptyString)
  | VDate _ | VArr _ | VObj _ => true
  end.

(** [typeof v === "object"] (true of [null], arrays and dates too). *)
Definition typeof_object (v : value) : bool :=
  match v with
  | VNull | VDate _ | VArr _ | VObj _ => true
  | _ => false
  end.

(** [typeof v === "string"] *)
Definition typeof_string (v : value) : bool :=
  match v with VStr _ => true | _ => false end.

(** [o[k]] on an object; [None] stands for [undefined]. *)
Fixpoint obj_get (k : string) (o : object) : option value :=
  match o with
  | [] => None
  | (k', v) :: r => if k' =? k then Some v else obj_get k r
  end.

(** [Object.keys(o)] *)
Definition keys (o : object) : list string := map fst o.

(** [Object.values(o)] *)
Definition values (o : object) : list value := map snd o.

(** [v.k] for an arbitrary value: [undefined] unless [v] is a plain
    object owning [k]. *)
Definition prop (k : string) (v : value) : value :=
  match v with
  | VObj o => match obj_get k o with Some x => x | None => VUndefined end
  | _ => VUndefined
  end.

(** A canonical array index: a decimal numeral without leading zero below
    2^32 - 1.  JavaScript enumerates such keys first, in ascending order. *)
Definition digit_of (c : ascii) : option N :=
  let n := N_of_ascii c in
  if ((48 <=? n) && (n <=? 57))%N then Some (n - 48)%N else None.

(** The number a string of decimal digits denotes. *)
Fixpoint parse_digits (s : string) (acc : N) : option N :=
  match s with
  | EmptyString => Some acc
  | String c r =>
      match digit_of c with
      | Some d => parse_digits r (10 * acc + d)%N
      | None => None
      end
  end.

(** The array index a property key denotes, if it is one. *)
Definition array_index (s : string) : option N :=
  match s with
  | EmptyString => None
  | String c r =>
      if (Ascii.eqb c "0" && negb (r =? EmptyString))%bool then None
      else match parse_digits s 0 with
           | Some n => if (n <? 4294967295)%N then Some n else None
           | None => None
           end
  end.

(** Assignment to an existing property. *)
Fixpoint obj_replace (k : string) (v : value) (o : object) : object :=
  match o with
  | [] => []
  | (k', v') :: r =>
      if k' =? k then (k, v) :: r else (k', v') :: obj_replace k v r
  end.

(** A new index key takes its place in ascending order among the
    index keys that come first. *)
Fixpoint obj_insert_index (i : N) (k : string) (v : value) (o : object)
  : object :=
  match o with
  | [] => [(k, v)]
  | (k', v') :: r =>
      match array_index k' with
      | Some j =>
          if (j <? i)%N then (k', v') :: obj_insert_index i k v r
          else (k, v) :: o
      | None => (k, v) :: o
      end
  end.

(** [o[k] = v]: an existing property keeps its place; a new index key
    goes among the leading index keys, any other new key goes last. *)
Definition obj_set (k : string) (v : value) (o : object) : object :=
  match obj_get k o with
  | Some _ => obj_replace k v o
  | None =>
      match array_index k with
      | Some i => obj_insert_index i k v o
      | None => (o ++ [(k, v)])%list
      end
  end.

(** [delete o[k]] *)
Fixpoint obj_delete (k : string) (o : object) : object :=
  match o with
  | [] => []
  | (k', v') :: r => if k' =? k then r else (k', v') :: obj_delete k r
  end.

(** [key.startsWith("$")] *)
Definition is_operator_key (k : string) : bool := prefix "$" k.

(** The own enumerable properties of an array: its indices. *)
Fixpoint indexed (i : N) (xs : list value) : object :=
  match xs with
  | [] => []
  | x :: r =>
      (NilEmpty.string_of_uint (N.to_uint i), x) :: indexed (N.succ i) r
  end.

(** The own enumerable properties of any value, as [Object.keys] and
    property reads see them: an array and a string have their indices,
    the other primitives have none. *)
Definition own_properties (v : value) : object :=
  match v with
  | VObj o => o
  | VArr xs => indexed 0 xs
  | VStr s =>
      indexed 0 (map (fun c => VStr (String c EmptyString)) (list_ascii_of_string s))
  | _ => []
  end.

(** [Object.keys(v)] *)
Definition js_keys (v : value) : list string := keys (own_properties v).

End JS.
Import JS.

(* ================================================================== *)
(** ** Errors and results *)

(** The error kinds of the specification's taxonomy, with the source's
    [OperationError] and the engine's [TypeError]. *)
Inductive error : Type :=
| InvalidArgument
| InvalidQuery
| InvalidUpdate
| InvalidDocument
| DuplicateKey
| NotFound
| ImmutableField
| BackendUnavailable
| OperationError
| TypeError.

(** A value or a thrown error. *)
Inductive res (A : Type) : Type :=
| Ok (a : A)
| Err (e : error).
Arguments Ok {A} a.
Arguments Err {A} e.

Definition res_bind {A B} (r : res A) (k : A -> res B) : res B :=
  match r with Ok a => k a | Err e => Err e end.

Notation "'let*' x ':=' c 'in' k" := (res_bind c (fun x => k))
  (at level 10, x name, c at level 100, k at level 200).

(* ================================================================== *)
(** ** ObjectUtils *)

Module ObjectUtils.

(** Modelled from the spec: ObjectUtils' deep structural equality, whose
    code is missing: "order-insensitive for object keys, order-sensitive
    for arrays; dates equal by instant". *)
Fixpoint deepEqual (a b : value) {struct a} : bool :=
  match a, b with
  | VUndefined, VUndefined => true
  | VNull, VNull => true
  | VBool x, VBool y => Bool.eqb x y
  | VNum x, VNum y => (x =? y)%Z
  | VStr x, VStr y => (x =? y)
  | VDate x, VDate y => (x =? y)%Z
  | VArr xs, VArr ys =>
      (fix go (xs ys : list value) : bool :=
         match xs, ys with
         | [], [] => true
         | x :: xs', y :: ys' => deepEqual x y && go xs' ys'
         | _, _ => false
         end) xs ys
  | VObj fa, VObj fb =>
      (List.length fa =? List.length fb)%nat &&
      (fix go (fa : object) : bool :=
         match fa with
         | [] => true
         | (k, v) :: r =>
             match obj_get k fb with
             | Some w => deepEqual v w
             | None => false
             end && go r
         end) fa
  | _, _ => false
  end.

End ObjectUtils.

(* ================================================================== *)
(** ** Validate *)

Module Validate.

(** Modelled from the spec: [Validate.object(value, name, allowEmpty)],
    whose code is missing.  "null/wrong-shape inputs to any public
    method" are [InvalidArgument]; with [allowEmpty = false] an object
    without keys is rejected too ("disallow empty objects" at the call
    sites). *)
Definition object (v : value) (allowEmpty : bool) : res unit :=
  match v with
  | VObj o =>
      if negb allowEmpty && (List.length (keys o) =? 0)%nat
      then Err InvalidArgument else Ok tt
  | _ => Err InvalidArgument
  end.

(** Modelled from the spec: [Validate.nonEmptyString(value, name)], whose
    code is missing: the value is "a non-empty string". *)
Definition nonEmptyString (v : value) : res unit :=
  match v with
  | VStr s => if s =? EmptyString then Err InvalidArgument else Ok tt
  | _ => Err InvalidArgument
  end.

(** Modelled from the spec: the options of [validateUpdateObject] the
    call sites pass. *)
Record updateOptions := {
  requireOperators : bool;
  forbidOperators : bool
}.

(** Modelled from the spec: the default options of
    [validateUpdateObject], none set. *)
Definition noOptions : updateOptions :=
  {| requireOperators := false; forbidOperators := false |}.

(** Modelled from the spec: [Validate.validateUpdateObject(update, name,
    options)], whose code is missing: "mixing operators with plain
    fields" is rejected; [requireOperators] asks for operators only,
    [forbidOperators] for none (the comments at the call sites). *)
Definition validateUpdateObject (v : value) (opts : updateOptions)
  : res unit :=
  match v with
  | VObj o =>
      let hasOperators := existsb is_operator_key (keys o) in
      let hasFields := existsb (fun k => negb (is_operator_key k)) (keys o) in
      if forbidOperators opts && hasOperators then Err InvalidArgument
      else if requireOperators opts && negb hasOperators
           then Err InvalidArgument
      else if hasOperators && hasFields then Err InvalidArgument
      else Ok tt
  | _ => Err InvalidArgument
  end.

End Validate.

(* ================================================================== *)
(** ** FieldPath *)

Module FieldPath.

(** Modelled from the spec: FieldPath, whose code is missing: it "parses
    "a.b.0.c" into an ordered sequence of segments". *)
Fixpoint split (s : string) (cur : string) : list string :=
  match s with
  | EmptyString => [cur]
  | String c r =>
      if Ascii.eqb c "." then cur :: split r EmptyString
      else split r (cur ++ String c EmptyString)
  end.

(** Modelled from the spec: the segments of a dotted path. *)
Definition parse (path : string) : list string := split path EmptyString.

(** Modelled from the spec: a numeric segment, "an integer index when
    the parent is an array". *)
Definition index_of (seg : string) : option nat :=
  match seg with
  | EmptyString => None
  | _ => option_map N.to_nat (parse_digits seg 0)
  end.

(** Modelled from the spec: traversal "returns missing (distinct from
    explicit null) when any intermediate segment is absent"; a numeric
    segment is "a string key when the parent is an object". *)
Fixpoint get (segs : list string) (v : value) : option value :=
  match segs with
  | [] => Some v
  | seg :: rest =>
      match v with
      | VObj o =>
          match obj_get seg o with
          | Some x => get rest x
          | None => None
          end
      | VArr xs =>
          match index_of seg with
          | Some i =>
              match nth_error xs i with
              | Some x => get rest x
              | None => None
              end
          | None => None
          end
      | _ => None
      end
  end.

End FieldPath.

(* ================================================================== *)
(** ** QueryEngine *)

Module QueryEngine.
Import ObjectUtils.

(** Modelled from the spec: the bound on filter depth, a constant of the
    missing QueryEngine ("filter depth ... bounded; exceeding the bound
    fails with InvalidQuery").  The spec does not give its value; the
    properties below need it positive only. *)
Definition maxNestedDepth : nat := 10.

(** Modelled from the spec: "Numbers compared numerically; strings
    lexicographically; dates by instant; booleans as false < true.
    Cross-type comparisons never match and never error." *)
Definition compareValues (a b : value) : option comparison :=
  match a, b with
  | VNum x, VNum y => Some (x ?= y)%Z
  | VStr x, VStr y => Some (String.compare x y)
  | VDate x, VDate y => Some (x ?= y)%Z
  | VBool x, VBool y =>
      Some (match x, y with
            | false, true => Lt
            | true, false => Gt
            | _, _ => Eq
            end)
  | _, _ => None
  end.

(** Modelled from the spec: an ordering operator holds of a present
    value of the same kind that compares as asked. *)
Definition ordered (ok : comparison -> bool) (arg : value)
  : option value -> bool :=
  fun c =>
    match c with
    | Some x =>
        match compareValues x arg with
        | Some r => ok r
        | None => false
        end
    | None => false
    end.

(** Modelled from the spec: path resolution of the missing QueryEngine.
    [None] is a missing field.  "If a path segment traverses an array and
    the next segment is not numeric, the predicate is satisfied if it
    holds for any element of the array; numeric segments select a
    specific index": the result lists the values the predicate may hold
    for. *)
Fixpoint candidates (segs : list string) (v : value)
  : list (option value) :=
  match segs with
  | [] => [Some v]
  | seg :: rest =>
      match v with
      | VObj o =>
          match obj_get seg o with
          | Some x => candidates rest x
          | None => [None]
          end
      | VArr xs =>
          match FieldPath.index_of seg with
          | Some i =>
              match nth_error xs i with
              | Some x => candidates rest x
              | None => [None]
              end
          | None =>
              flat_map
                (fun x =>
                   match x with
                   | VObj o =>
                       match obj_get seg o with
                       | Some y => candidates rest y
                       | None => [None]
                       end
                   | _ => [None]
                   end) xs
          end
      | _ => [None]
      end
  end.

(** Modelled from the spec: the field operators of the missing
    QueryEngine, [$eq $ne $gt $gte $lt $lte $in $nin $exists]; a
    malformed operator value and an unknown operator are
    [InvalidQuery]. *)
Definition fieldOperator (op : string) (arg : value)
  : res (option value -> bool) :=
  if op =? "$eq" then
    Ok (fun c => match c with Some x => deepEqual x arg | None => false end)
  else if op =? "$ne" then
    Ok (fun c =>
          match c with Some x => negb (deepEqual x arg) | None => true end)
  else if op =? "$gt" then
    Ok (ordered (fun r => match r with Gt => true | _ => false end) arg)
  else if op =? "$gte" then
    Ok (ordered (fun r => match r with Lt => false | _ => true end) arg)
  else if op =? "$lt" then
    Ok (ordered (fun r => match r with Lt => true | _ => false end) arg)
  else if op =? "$lte" then
    Ok (ordered (fun r => match r with Gt => false | _ => true end) arg)
  else if op =? "$in" then
    match arg with
    | VArr xs =>
        Ok (fun c =>
              match c with
              | Some x => existsb (deepEqual x) xs
              | None => false
              end)
    | _ => Err InvalidQuery
    end
  else if op =? "$nin" then
    match arg with
    | VArr xs =>
        Ok (fun c =>
              match c with
              | Some x => negb (existsb (deepEqual x) xs)
              | None => true
              end)
    | _ => Err InvalidQuery
    end
  else if op =? "$exists" then
    match arg with
    | VBool b =>
        Ok (fun c =>
              Bool.eqb (match c with Some _ => true | None => false end) b)
    | _ => Err InvalidQuery
    end
  else Err InvalidQuery.

(** Modelled from the spec: a field-operator object [{ $op: value, ... }]
    holds when each of its operators does. *)
Fixpoint operatorObject (ops : object) (cs : list (option value))
  : res bool :=
  match ops with
  | [] => Ok true
  | (op, arg) :: r =>
      let* p := fieldOperator op arg in
      let* rest := operatorObject r cs in
      Ok (existsb p cs && rest)
  end.

(** Modelled from the spec: a field predicate of the missing QueryEngine:
    "the key is a dotted path; the value is either a literal (implicit
    equality) or a field-operator object". *)
Definition fieldPredicate (doc : value) (path : string) (cond : value)
  : res bool :=
  let cs := candidates (FieldPath.parse path) doc in
  let implicit :=
    existsb (fun c =>
               match c with Some x => deepEqual x cond | None => false end)
            cs in
  match cond with
  | VObj o =>
      if existsb is_operator_key (keys o) then operatorObject o cs
      else Ok implicit
  | _ => Ok implicit
  end.

(** Modelled from the spec: [QueryEngine.matches(document, filter)],
    whose code is missing.  Every top-level clause must hold; [$and] and
    [$or] take "a non-empty array of sub-filters"; a filter nested deeper
    than the bound is [InvalidQuery]. *)
Fixpoint matchesAt (depth : nat) (doc filter : value) : res bool :=
  match depth with
  | O => Err InvalidQuery
  | S d =>
      match filter with
      | VObj clauses =>
          (fix every (cs : object) : res bool :=
             match cs with
             | [] => Ok true
             | (k, v) :: r =>
                 let* b :=
                   (if is_operator_key k then
                      match v with
                      | VArr (f :: fs) =>
                          if k =? "$and" then
                            (fix conj (l : list value) : res bool :=
                               match l with
                               | [] => Ok true
                               | x :: l' =>
                                   let* bx := matchesAt d doc x in
                                   let* bl := conj l' in
                                   Ok (bx && bl)
                               end) (f :: fs)
                          else if k =? "$or" then
                            (fix disj (l : list value) : res bool :=
                               match l with
                               | [] => Ok false
                               | x :: l' =>
                                   let* bx := matchesAt d doc x in
                                   let* bl := disj l' in
                                   Ok (bx || bl)
                               end) (f :: fs)
                          else Err InvalidQuery
                      | _ => Err InvalidQuery
                      end
                    else fieldPredicate doc k v) in
                 let* rest := every r in
                 Ok (b && rest)
             end) clauses
      | _ => Err InvalidQuery
      end
  end.

(** Modelled from the spec: [matches(document, filter)] at the depth
    bound. *)
Definition matches (doc filter : value) : res bool :=
  matchesAt maxNestedDepth doc filter.

End QueryEngine.

(* ================================================================== *)
(** ** UpdateEngine *)

Module UpdateEngine.
Import ObjectUtils.

(** Modelled from the spec: assignment to an array element. *)
Fixpoint list_set (i : nat) (x : value) (xs : list value) : list value :=
  match xs, i with
  | [], _ => []
  | _ :: r, O => x :: r
  | y :: r, S j => y :: list_set j x r
  end.

(** Modelled from the spec: writing at a dotted path in the missing
    UpdateEngine: "missing intermediate objects are created; array
    indices in paths are honoured on read, and create padding is not
    performed (writing items.5 on a 2-element array is InvalidUpdate)". *)
Fixpoint write (segs : list string) (f : option value -> res value)
  (v : value) {struct segs} : res value :=
  match segs with
  | [] => Err InvalidUpdate
  | seg :: rest =>
      match rest with
      | [] =>
          match v with
          | VObj o =>
              let* x := f (obj_get seg o) in Ok (VObj (obj_set seg x o))
          | VArr xs =>
              match FieldPath.index_of seg with
              | Some i =>
                  if (i <=? List.length xs)%nat then
                    let* x := f (nth_error xs i) in
                    Ok (VArr (if (i <? List.length xs)%nat
                              then list_set i x xs
                              else (xs ++ [x])%list))
                  else Err InvalidUpdate
              | None => Err InvalidUpdate
              end
          | _ => Err InvalidUpdate
          end
      | _ :: _ =>
          match v with
          | VObj o =>
              let child :=
                match obj_get seg o with Some c => c | None => VObj [] end in
              let* c := write rest f child in
              Ok (VObj (obj_set seg c o))
          | VArr xs =>
              match FieldPath.index_of seg with
              | Some i =>
                  match nth_error xs i with
                  | Some c0 =>
                      let* c := write rest f c0 in
                      Ok (VArr (list_set i c xs))
                  | None => Err InvalidUpdate
                  end
              | None => Err InvalidUpdate
              end
          | _ => Err InvalidUpdate
          end
      end
  end.

(** Modelled from the spec: [$unset], "remove key at path; no-op if
    absent". *)
Fixpoint remove (segs : list string) (v : value) {struct segs} : value :=
  match segs with
  | [] => v
  | seg :: rest =>
      match rest with
      | [] =>
          match v with
          | VObj o => VObj (obj_delete seg o)
          | _ => v
          end
      | _ :: _ =>
          match v with
          | VObj o =>
              match obj_get seg o with
              | Some c => VObj (obj_replace seg (remove rest c) o)
              | None => v
              end
          | VArr xs =>
              match FieldPath.index_of seg with
              | Some i =>
                  match nth_error xs i with
                  | Some c => VArr (list_set i (remove rest c) xs)
                  | None => v
                  end
              | None => v
              end
          | _ => v
          end
      end
  end.

(** Modelled from the spec: the elements [$push] and [$addToSet] add,
    the [$each] list or the argument itself. *)
Definition each (arg : value) : list value :=
  match arg with
  | VObj [(k, VArr items)] => if k =? "$each" then items else [arg]
  | _ => [arg]
  end.

(** Modelled from the spec: [$addToSet], "append only if not already
    present by deep equality". *)
Definition addToSet (xs items : list value) : list value :=
  fold_left
    (fun acc x => if existsb (deepEqual x) acc then acc else (acc ++ [x])%list)
    items xs.

(** Modelled from the spec: [$pull] removes the "elements equal to value
    (deep equality) or matching sub-filter". *)
Definition pulled (arg x : value) : bool :=
  deepEqual x arg ||
  match arg with
  | VObj _ =>
      match QueryEngine.matches x arg with Ok true => true | _ => false end
  | _ => false
  end.

(** Modelled from the spec: the operator table of the missing
    UpdateEngine ([$set $unset $inc $mul $min $max $push $pull
    $addToSet]). *)
Definition fieldUpdate (op path : string) (arg doc : value) : res value :=
  let segs := FieldPath.parse path in
  if op =? "$set" then write segs (fun _ => Ok arg) doc
  else if op =? "$unset" then Ok (remove segs doc)
  else if op =? "$inc" then
    match arg with
    | VNum n =>
        write segs
          (fun cur =>
             match cur with
             | None => Ok (VNum (0 + n))
             | Some (VNum c) => Ok (VNum (c + n))
             | Some _ => Err InvalidUpdate
             end) doc
    | _ => Err InvalidUpdate
    end
  else if op =? "$mul" then
    match arg with
    | VNum n =>
        write segs
          (fun cur =>
             match cur with
             | None => Ok (VNum (0 * n))
             | Some (VNum c) => Ok (VNum (c * n))
             | Some _ => Err InvalidUpdate
             end) doc
    | _ => Err InvalidUpdate
    end
  else if op =? "$min" then
    write segs
      (fun cur =>
         match cur with
         | None => Ok arg
         | Some c =>
             match QueryEngine.compareValues arg c with
             | Some Lt => Ok arg
             | Some _ => Ok c
             | None => Err InvalidUpdate
             end
         end) doc
  else if op =? "$max" then
    write segs
      (fun cur =>
         match cur with
         | None => Ok arg
         | Some c =>
             match QueryEngine.compareValues arg c with
             | Some Gt => Ok arg
             | Some _ => Ok c
             | None => Err InvalidUpdate
             end
         end) doc
  else if op =? "$push" then
    write segs
      (fun cur =>
         match cur with
         | None => Ok (VArr (each arg))
         | Some (VArr xs) => Ok (VArr (xs ++ each arg)%list)
         | Some _ => Err InvalidUpdate
         end) doc
  else if op =? "$addToSet" then
    write segs
      (fun cur =>
         match cur with
         | None => Ok (VArr (addToSet [] (each arg)))
         | Some (VArr xs) => Ok (VArr (addToSet xs (each arg)))
         | Some _ => Err InvalidUpdate
         end) doc
  else if op =? "$pull" then
    match FieldPath.get segs doc with
    | None => Ok doc
    | Some (VArr xs) =>
        write segs
          (fun _ => Ok (VArr (filter (fun x => negb (pulled arg x)) xs))) doc
    | Some _ => Err InvalidUpdate
    end
  else Err InvalidUpdate.

(** Modelled from the spec: "[_id] is immutable: any operator that would
    change or remove it is ImmutableField". *)
Definition keepsId (before after : value) : res value :=
  if deepEqual (prop "_id" before) (prop "_id" after) then Ok after
  else Err ImmutableField.

(** Modelled from the spec: "within a single operator object, entries
    apply in insertion order". *)
Fixpoint applyFields (op : string) (fields : object) (doc : value)
  : res value :=
  match fields with
  | [] => Ok doc
  | (path, arg) :: r =>
      let* d := fieldUpdate op path arg doc in
      let* d' := keepsId doc d in
      applyFields op r d'
  end.

(** Modelled from the spec: "across operators, keys apply in the order
    they appear in the update". *)
Fixpoint applyAll (ops : object) (doc : value) : res value :=
  match ops with
  | [] => Ok doc
  | (op, VObj fields) :: r =>
      let* d := applyFields op fields doc in applyAll r d
  | _ => Err InvalidUpdate
  end.

(** Modelled from the spec: [UpdateEngine.apply(document, update)], whose
    code is missing: "top-level keys MUST all start with [$]; mixing
    operators with plain fields is InvalidUpdate; empty update is
    InvalidUpdate"; operators apply in declaration order on a copy. *)
Definition applyOperators (doc update : value) : res value :=
  match update with
  | VObj ops =>
      if (List.length ops =? 0)%nat
         || existsb (fun k => negb (is_operator_key k)) (keys ops)
      then Err InvalidUpdate
      else applyAll ops doc
  | _ => Err InvalidUpdate
  end.

End UpdateEngine.

(* ================================================================== *)
(** ** The engines as collaborators *)

Module Engine.

(** The two engines [DocumentOperations] delegates to.  [Collection]
    never looks inside them, so its embedding takes them as an
    interface; [Engine.spec] is the pair modelled from the
    specification. *)
Class t : Type := {
  matches : value -> value -> res bool;
  applyOperators : value -> value -> res value
}.

(** The engines modelled from the specification. *)
Definition spec : t :=
  {| matches := QueryEngine.matches;
     applyOperators := UpdateEngine.applyOperators |}.

End Engine.

(* ================================================================== *)
(** ** CollectionMetadata *)

Module CollectionMetadata.

(** Modelled from the spec: the CollectionMetadata record, whose code is
    missing: "{ name, fileHandle, created, lastUpdated, documentCount,
    modificationToken }". *)
Record t : Type := {
  name : string;
  fileId : string;
  created : Z;
  lastUpdated : Z;
  documentCount : nat;
  modificationToken : option string
}.

(** Modelled from the spec: [new CollectionMetadata(name, fileId,
    initial)], whose code is missing: the fields of the persisted
    metadata object, with defaults for the absent ones. *)
Definition new (nm fid : string) (initial : value) (now : Z) : res t :=
  let date k := match prop k initial with VDate d => d | _ => now end in
  let* count :=
    match prop "documentCount" initial with
    | VUndefined => Ok O
    | VNum n => if (0 <=? n)%Z then Ok (Z.to_nat n) else Err InvalidArgument
    | _ => Err InvalidArgument
    end in
  Ok {| name := nm;
        fileId := fid;
        created := date "created";
        lastUpdated := date "lastUpdated";
        documentCount := count;
        modificationToken :=
          match prop "modificationToken" initial with
          | VStr s => Some s
          | _ => None
          end |}.

(** Modelled from the spec: [setDocumentCount(n)] of the missing
    CollectionMetadata. *)
Definition setDocumentCount (n : nat) (m : t) : t :=
  {| name := name m; fileId := fileId m; created := created m;
     lastUpdated := lastUpdated m; documentCount := n;
     modificationToken := modificationToken m |}.

(** Modelled from the spec: [updateLastModified()], which stamps
    [lastUpdated] with the clock. *)
Definition updateLastModified (now : Z) (m : t) : t :=
  {| name := name m; fileId := fileId m; created := created m;
     lastUpdated := now; documentCount := documentCount m;
     modificationToken := modificationToken m |}.

(** Modelled from the spec: [toJSON()], the persisted form of the
    record. *)
Definition toJSON (m : t) : value :=
  VObj [ ("name", VStr (name m));
         ("fileId", VStr (fileId m));
         ("created", VDate (created m));
         ("lastUpdated", VDate (lastUpdated m));
         ("documentCount", VNum (Z.of_nat (documentCount m)));
         ("modificationToken",
           match modificationToken m with
           | Some s => VStr s
           | None => VNull
           end) ].

End CollectionMetadata.

(* ================================================================== *)
(** ** The collection object and the world around it *)

(** What a call leaves behind outside the collection object: the calls it
    made on its injected services.  The script lock is the platform's
    exclusive lock of LockService. *)
Inductive event : Type :=
| ReadFile (handle : string)
| WriteFile (handle : string) (data : value)
| UpdateCollectionMetadata (name : string) (metadata : value)
| AcquireScriptLock
| ReleaseScriptLock.

(** The injected services: the blob store behind [_fileService], the
    master index behind [_database._masterIndex] (absent when the
    database has none), the clock and the identifier source. *)
Record World : Type := {
  files : object;
  available : bool;
  masterIndex : option object;
  now : Z;
  uuids : nat -> string;
  issued : nat;
  trace : list event
}.

(** Updates of single fields of the world. *)
Definition with_files (x : object) (w : World) : World :=
  {| files := x; available := available w; masterIndex := masterIndex w;
     now := now w; uuids := uuids w; issued := issued w; trace := trace w |}.

Definition with_masterIndex (x : option object) (w : World) : World :=
  {| files := files w; available := available w; masterIndex := x;
     now := now w; uuids := uuids w; issued := issued w; trace := trace w |}.

Definition with_issued (x : nat) (w : World) : World :=
  {| files := files w; available := available w;
     masterIndex := masterIndex w; now := now w; uuids := uuids w;
     issued := x; trace := trace w |}.

Definition log (e : event) (w : World) : World :=
  {| files := files w; available := available w;
     masterIndex := masterIndex w; now := now w; uuids := uuids w;
     issued := issued w; trace := (trace w ++ [e])%list |}.

(** The fields of a [Collection] instance (constructor, lines 47-59).
    [_documentOperations] is [null] or the instance made by [_loadData];
    the instance has no state of its own, so a flag stands for it. *)
Record Collection : Type := {
  _name : string;
  _driveFileId : string;
  _loaded : bool;
  _dirty : bool;
  _documents : object;
  _collectionMetadata : option CollectionMetadata.t;
  _documentOperations : bool
}.

(** Assignments to single fields of the instance. *)
Definition with_loaded (x : bool) (c : Collection) : Collection :=
  {| _name := _name c; _driveFileId := _driveFileId c; _loaded := x;
     _dirty := _dirty c; _documents := _documents c;
     _collectionMetadata := _collectionMetadata c;
     _documentOperations := _documentOperations c |}.

Definition with_dirty (x : bool) (c : Collection) : Collection :=
  {| _name := _name c; _driveFileId := _driveFileId c; _loaded := _loaded c;
     _dirty := x; _documents := _documents c;
     _collectionMetadata := _collectionMetadata c;
     _documentOperations := _documentOperations c |}.

Definition with_documents (x : object) (c : Collection) : Collection :=
  {| _name := _name c; _driveFileId := _driveFileId c; _loaded := _loaded c;
     _dirty := _dirty c; _documents := x;
     _collectionMetadata := _collectionMetadata c;
     _documentOperations := _documentOperations c |}.

Definition with_collectionMetadata (x : option CollectionMetadata.t)
  (c : Collection) : Collection :=
  {| _name := _name c; _driveFileId := _driveFileId c; _loaded := _loaded c;
     _dirty := _dirty c; _documents := _documents c;
     _collectionMetadata := x;
     _documentOperations := _documentOperations c |}.

Definition with_documentOperations (x : bool) (c : Collection)
  : Collection :=
  {| _name := _name c; _driveFileId := _driveFileId c; _loaded := _loaded c;
     _dirty := _dirty c; _documents := _documents c;
     _collectionMetadata := _collectionMetadata c;
     _documentOperations := x |}.

(** A method runs on the instance and the world; what it assigned before
    throwing stays assigned. *)
Definition State : Type := (Collection * World)%type.

Definition M (A : Type) : Type := State -> res A * State.

Definition ret {A} (a : A) : M A := fun s => (Ok a, s).

Definition bind {A B} (m : M A) (k : A -> M B) : M B :=
  fun s =>
    match m s with
    | (Ok a, s') => k a s'
    | (Err e, s') => (Err e, s')
    end.

Definition throw {A} (e : error) : M A := fun s => (Err e, s).

Definition lift {A} (r : res A) : M A := fun s => (r, s).

Definition this : M Collection := fun s => (Ok (fst s), s).

Definition world : M World := fun s => (Ok (snd s), s).

Definition assign (f : Collection -> Collection) : M unit :=
  fun s => (Ok tt, (f (fst s), snd s)).

Definition effect (f : World -> World) : M unit :=
  fun s => (Ok tt, (fst s, f (snd s))).

(** [try { m } catch (error) { throw h(error) }] *)
Definition rethrow {A} (m : M A) (h : error -> error) : M A :=
  fun s =>
    match m s with
    | (Ok a, s') => (Ok a, s')
    | (Err e, s') => (Err (h e), s')
    end.

Notation "x <- m ;; k" := (bind m (fun x => k))
  (at level 61, m at next level, right associativity).
Notation "m ;; k" := (bind m (fun _ => k))
  (at level 61, right associativity).

(* ================================================================== *)
(** ** FileService and MasterIndex *)

Module FileService.

(** Modelled from the spec: [FileService.readFile(handle)], whose code is
    missing: "reads return a parsed JSON object"; an open circuit
    breaker fails fast with BackendUnavailable. *)
Definition readFile (handle : string) : M value :=
  effect (log (ReadFile handle)) ;;
  w <- world ;;
  if available w then
    match obj_get handle (files w) with
    | Some data => ret data
    | None => throw BackendUnavailable
    end
  else throw BackendUnavailable.

(** Modelled from the spec: [FileService.writeFile(handle, data)], whose
    code is missing: "writes take a parsed object and encode". *)
Definition writeFile (handle : string) (data : value) : M unit :=
  effect (log (WriteFile handle data)) ;;
  w <- world ;;
  if available w then effect (with_files (obj_set handle data (files w)))
  else throw BackendUnavailable.

End FileService.

Module MasterIndex.

(** Modelled from the spec: [MasterIndex.updateCollectionMetadata(name,
    metadata)], whose code is missing: the entry of the collection "is
    replaced atomically".  What the missing MasterIndex does inside the
    call is not modelled: the process-wide lock it takes, and the
    failures a publication may end in (a token conflict, a lock timeout,
    an error of the property store).  Here a publication on an existing
    index returns; a property of a call that throws is therefore stated
    for the throws that come before a call on the master index. *)
Definition updateCollectionMetadata (name : string) (metadata : value)
  : M unit :=
  effect (log (UpdateCollectionMetadata name metadata)) ;;
  w <- world ;;
  match masterIndex w with
  | Some index =>
      effect (with_masterIndex (Some (obj_set name metadata index)))
  | None => throw TypeError
  end.

End MasterIndex.

(* ================================================================== *)
(** ** DocumentOperations *)

Module DocumentOperations.
Import ObjectUtils.

(** Modelled from the spec: the "{matched, modified}" the update
    primitives return; [Collection] reads it as [modifiedCount]. *)
Record result : Type := {
  matched : nat;
  modifiedCount : nat
}.

(** Modelled from the spec: "operator-shaped keys anywhere" in a
    document. *)
Fixpoint hasOperatorKeys (v : value) : bool :=
  match v with
  | VObj o =>
      (fix go (o : object) : bool :=
         match o with
         | [] => false
         | (k, x) :: r => is_operator_key k || hasOperatorKeys x || go r
         end) o
  | VArr xs =>
      (fix go (xs : list value) : bool :=
         match xs with
         | [] => false
         | x :: r => hasOperatorKeys x || go r
         end) xs
  | _ => false
  end.

(** Modelled from the spec: a document identifier is a string. *)
Definition idOf (id : value) : M string :=
  match id with
  | VStr s => ret s
  | _ => throw InvalidArgument
  end.

(** Modelled from the spec: a fresh "UUID-shaped string", drawn from the
    identifier source of the world. *)
Definition generateId : M string :=
  w <- world ;;
  effect (with_issued (S (issued w))) ;;
  ret (uuids w (issued w)).

Section WithEngines.
Context {E : Engine.t}.

(** Modelled from the spec: the QueryEngine helpers [findFirst],
    [findAll] "over an iterable of documents", whose code is missing. *)
Fixpoint findFirst (docs : list value) (filter : value)
  : res (option value) :=
  match docs with
  | [] => Ok None
  | d :: r =>
      let* b := Engine.matches d filter in
      if b then Ok (Some d) else findFirst r filter
  end.

(** Modelled from the spec: the QueryEngine helper [findAll]. *)
Fixpoint findAll (docs : list value) (filter : value) : res (list value) :=
  match docs with
  | [] => Ok []
  | d :: r =>
      let* b := Engine.matches d filter in
      let* rest := findAll r filter in
      Ok (if b then d :: rest else rest)
  end.

(** Modelled from the spec: [insert(doc)] of the missing
    DocumentOperations: "assigns [_id] if absent (UUID-shaped string);
    rejects duplicates (DuplicateKey); rejects operator-shaped keys
    anywhere (InvalidDocument)". *)
Definition insertDocument (doc : value) : M value :=
  match doc with
  | VObj o =>
      if hasOperatorKeys doc then throw InvalidDocument
      else
        id <- match obj_get "_id" o with
              | None => generateId
              | Some (VStr s) =>
                  if s =? EmptyString then throw InvalidArgument else ret s
              | Some _ => throw InvalidArgument
              end ;;
        c <- this ;;
        match obj_get id (_documents c) with
        | Some _ => throw DuplicateKey
        | None =>
            let d := VObj (obj_set "_id" (VStr id) o) in
            assign (with_documents (obj_set id d (_documents c))) ;;
            ret d
        end
  | _ => throw InvalidArgument
  end.

(** Modelled from the spec: [findById(id)]. *)
Definition findDocumentById (id : value) : M (option value) :=
  s <- idOf id ;;
  c <- this ;;
  ret (obj_get s (_documents c)).

(** Modelled from the spec: [findAll()]. *)
Definition findAllDocuments : M (list value) :=
  c <- this ;;
  ret (values (_documents c)).

(** Modelled from the spec: [findByFilter(filter)], "delegate to
    QueryEngine". *)
Definition findByQuery (filter : value) : M (option value) :=
  c <- this ;;
  lift (findFirst (values (_documents c)) filter).

(** Modelled from the spec: [findAllByFilter(filter)]. *)
Definition findMultipleByQuery (filter : value) : M (list value) :=
  c <- this ;;
  lift (findAll (values (_documents c)) filter).

(** Modelled from the spec: [countByFilter(filter)]. *)
Definition countByQuery (filter : value) : M nat :=
  docs <- findMultipleByQuery filter ;;
  ret (List.length docs).

(** Modelled from the spec: the number of entries of the documents
    map. *)
Definition countDocuments : M nat :=
  c <- this ;;
  ret (List.length (keys (_documents c))).

(** Modelled from the spec: [replaceById(id, doc)] of the missing
    DocumentOperations: "validates replacement has no operator keys;
    preserves [_id] (argument's [_id], if any, must equal [id] or be
    absent)".  The result has the shape the spec gives for the update
    primitive: modified is 0 iff the stored document is structurally
    equal to the prior one. *)
Definition replaceDocument (id doc : value) : M result :=
  s <- idOf id ;;
  match doc with
  | VObj o =>
      if existsb is_operator_key (keys o) then throw InvalidArgument
      else if match obj_get "_id" o with
              | Some v => negb (deepEqual v (VStr s))
              | None => false
              end
      then throw InvalidArgument
      else
        c <- this ;;
        match obj_get s (_documents c) with
        | None => ret {| matched := 0; modifiedCount := 0 |}
        | Some old =>
            let d := VObj (obj_set "_id" (VStr s) o) in
            assign (with_documents (obj_replace s d (_documents c))) ;;
            ret {| matched := 1;
                   modifiedCount := if deepEqual d old then 0 else 1 |}
        end
  | _ => throw InvalidArgument
  end.

(** Modelled from the spec: the source's [updateDocument(id, doc)] is
    called with a replacement document; the spec has one replacement
    primitive, [replaceById]. *)
Definition updateDocument (id doc : value) : M result :=
  replaceDocument id doc.

(** Modelled from the spec: [updateByIdWithOperators(id, update)] of the
    missing DocumentOperations: "delegates to UpdateEngine; returns
    {matched, modified} where modified=0 iff resulting document is
    structurally equal to the prior one". *)
Definition updateDocumentWithOperators (id update : value) : M result :=
  s <- idOf id ;;
  c <- this ;;
  match obj_get s (_documents c) with
  | None => ret {| matched := 0; modifiedCount := 0 |}
  | Some old =>
      d <- lift (Engine.applyOperators old update) ;;
      assign (with_documents (obj_replace s d (_documents c))) ;;
      ret {| matched := 1;
             modifiedCount := if deepEqual d old then 0 else 1 |}
  end.

(** Modelled from the spec: [deleteById(id)]; the result is the
    [deletedCount]. *)
Definition deleteDocument (id : value) : M nat :=
  s <- idOf id ;;
  c <- this ;;
  match obj_get s (_documents c) with
  | None => ret 0
  | Some _ =>
      assign (with_documents (obj_delete s (_documents c))) ;;
      ret 1
  end.

End WithEngines.
End DocumentOperations.

(* ================================================================== *)
(** ** Collection (src/04_core/Collection.js) *)

(** [{insertedId, acknowledged}] *)
Record insertResult : Type := {
  insertedId : value;
  insertAcknowledged : bool
}.

(** [{matchedCount, modifiedCount, acknowledged}] *)
Record updateResult : Type := {
  matchedCount : nat;
  modifiedCount : nat;
  acknowledged : bool
}.

(** [{deletedCount, acknowledged}] *)
Record deleteResult : Type := {
  deletedCount : nat;
  deleteAcknowledged : bool
}.

(** A parameter with a default value: [f(x = d)]. *)
Definition defaultTo (d v : value) : value :=
  match v with VUndefined => d | _ => v end.

(** [keys.length === 1 && keys[0] === "_id"] *)
Definition isIdKeys (filterKeys : list string) : bool :=
  (List.length filterKeys =? 1)%nat &&
  match nth_error filterKeys 0 with
  | Some k => k =? "_id"
  | None => false
  end.

(** The constructor (lines 38-60).  The checks on [database] and
    [fileService] hold of every [World]. *)
Definition constructor (name driveFileId : value) : res Collection :=
  let* _ := Validate.nonEmptyString name in
  let* _ := Validate.nonEmptyString driveFileId in
  match name, driveFileId with
  | VStr n, VStr f =>
      Ok {| _name := n; _driveFileId := f; _loaded := false;
            _dirty := false; _documents := [];
            _collectionMetadata := None; _documentOperations := false |}
  | _, _ => Err InvalidArgument
  end.

(** [_loadData] (lines 79-126).  Logging is left out.  The documents map
    is a property list, so the [documents] of the blob is read through
    its own enumerable properties: for an object, or a falsy value
    replaced by [{}], that is the value line 97 assigns; a truthy value
    that is no plain object (a number, a string, an array) line 97 keeps
    as it is, and what the missing DocumentOperations does with it is
    not modelled.  The properties that give the outcome of a load take a
    blob whose [documents] is an object or is falsy. *)
Definition _loadData : M unit :=
  rethrow
    (c <- this ;;
     data <- FileService.readFile (_driveFileId c) ;;
     (if negb (truthy data) || negb (typeof_object data)
      then throw OperationError else ret tt) ;;
     assign (with_documents
               (own_properties
                  (if truthy (prop "documents" data)
                   then prop "documents" data else VObj []))) ;;
     let metadataObj :=
       if truthy (prop "metadata" data)
       then prop "metadata" data else VObj [] in
     w <- world ;;
     m <- lift (CollectionMetadata.new (_name c) (_driveFileId c)
                  metadataObj (now w)) ;;
     assign (with_collectionMetadata (Some m)) ;;
     assign (with_documentOperations true))
    (fun _ => OperationError).

(** [_ensureLoaded] (lines 67-72) *)
Definition _ensureLoaded : M unit :=
  c <- this ;;
  if negb (_loaded c) then
    _loadData ;;
    assign (with_loaded true)
  else ret tt.

(** [_saveData] (lines 133-156) *)
Definition _saveData : M unit :=
  rethrow
    (c <- this ;;
     match _collectionMetadata c with
     | None => throw TypeError
     | Some m =>
         let data :=
           VObj [ ("documents", VObj (_documents c));
                  ("metadata", CollectionMetadata.toJSON m) ] in
         FileService.writeFile (_driveFileId c) data ;;
         assign (with_dirty false)
     end)
    (fun _ => OperationError).

(** [_markDirty] (lines 162-165) *)
Definition _markDirty : M unit := assign (with_dirty true).

(** [_updateMetadata(changes = {})] (lines 172-190); the argument is
    [changes.documentCount], [None] for [undefined]. *)
Definition _updateMetadata (documentCount : option nat) : M unit :=
  _ensureLoaded ;;
  c <- this ;;
  match _collectionMetadata c with
  | None => throw TypeError
  | Some m =>
      let m1 :=
        match documentCount with
        | Some n => CollectionMetadata.setDocumentCount n m
        | None => m
        end in
      w <- world ;;
      let m2 := CollectionMetadata.updateLastModified (now w) m1 in
      assign (with_collectionMetadata (Some m2)) ;;
      match masterIndex w with
      | Some _ =>
          MasterIndex.updateCollectionMetadata (_name c)
            (CollectionMetadata.toJSON m2)
      | None => ret tt
      end
  end.

(** [_validateFilter(filter, operation)] (lines 199-209) *)
Definition _validateFilter (filter : value) : res unit :=
  let* _ := Validate.object filter true in
  let filterKeys := js_keys filter in
  if existsb (String.eqb "_id") filterKeys
  then Validate.nonEmptyString (prop "_id" filter)
  else Ok tt.

Section WithEngines.
Context {E : Engine.t}.

(** [insertOne(doc)] (lines 218-233) *)
Definition insertOne (doc : value) : M insertResult :=
  _ensureLoaded ;;
  insertedDoc <- DocumentOperations.insertDocument doc ;;
  c <- this ;;
  _updateMetadata (Some (List.length (keys (_documents c)))) ;;
  _markDirty ;;
  ret {| insertedId := prop "_id" insertedDoc; insertAcknowledged := true |}.

(** [findOne(filter = {})] (lines 241-260); [None] is [null]. *)
Definition findOne (filter0 : value) : M (option value) :=
  let filter := defaultTo (VObj []) filter0 in
  _ensureLoaded ;;
  lift (_validateFilter filter) ;;
  let filterKeys := js_keys filter in
  if (List.length filterKeys =? 0)%nat then
    allDocs <- DocumentOperations.findAllDocuments ;;
    ret (if (0 <? List.length allDocs)%nat then nth_error allDocs 0 else None)
  else if isIdKeys filterKeys then
    DocumentOperations.findDocumentById (prop "_id" filter)
  else DocumentOperations.findByQuery filter.

(** [find(filter = {})] (lines 268-281) *)
Definition find (filter0 : value) : M (list value) :=
  let filter := defaultTo (VObj []) filter0 in
  _ensureLoaded ;;
  lift (_validateFilter filter) ;;
  let filterKeys := js_keys filter in
  if (List.length filterKeys =? 0)%nat then
    DocumentOperations.findAllDocuments
  else DocumentOperations.findMultipleByQuery filter.

(** [_updateOneWithOperators(filter, update)] (lines 325-373) *)
Definition _updateOneWithOperators (filter update : value)
  : M updateResult :=
  let filterKeys := js_keys filter in
  if isIdKeys filterKeys then
    result <- DocumentOperations.updateDocumentWithOperators
                (prop "_id" filter) update ;;
    (if (0 <? DocumentOperations.modifiedCount result)%nat then
       _updateMetadata None ;;
       _markDirty
     else ret tt) ;;
    ret {| matchedCount :=
             if (0 <? DocumentOperations.modifiedCount result)%nat
             then 1 else 0;
           modifiedCount := DocumentOperations.modifiedCount result;
           acknowledged := true |}
  else
    matchingDoc <- DocumentOperations.findByQuery filter ;;
    match matchingDoc with
    | None =>
        ret {| matchedCount := 0; modifiedCount := 0; acknowledged := true |}
    | Some doc =>
        result <- DocumentOperations.updateDocumentWithOperators
                    (prop "_id" doc) update ;;
        (if (0 <? DocumentOperations.modifiedCount result)%nat then
           _updateMetadata None ;;
           _markDirty
         else ret tt) ;;
        ret {| matchedCount := 1;
               modifiedCount := DocumentOperations.modifiedCount result;
               acknowledged := true |}
    end.

(** [_updateOneWithReplacement(filter, update)] (lines 382-430) *)
Definition _updateOneWithReplacement (filter update : value)
  : M updateResult :=
  let filterKeys := js_keys filter in
  if isIdKeys filterKeys then
    result <- DocumentOperations.updateDocument (prop "_id" filter) update ;;
    (if (0 <? DocumentOperations.modifiedCount result)%nat then
       _updateMetadata None ;;
       _markDirty
     else ret tt) ;;
    ret {| matchedCount :=
             if (0 <? DocumentOperations.modifiedCount result)%nat
             then 1 else 0;
           modifiedCount := DocumentOperations.modifiedCount result;
           acknowledged := true |}
  else
    matchingDoc <- DocumentOperations.findByQuery filter ;;
    match matchingDoc with
    | None =>
        ret {| matchedCount := 0; modifiedCount := 0; acknowledged := true |}
    | Some doc =>
        result <- DocumentOperations.updateDocument (prop "_id" doc) update ;;
        (if (0 <? DocumentOperations.modifiedCount result)%nat then
           _updateMetadata None ;;
           _markDirty
         else ret tt) ;;
        ret {| matchedCount := 1;
               modifiedCount := DocumentOperations.modifiedCount result;
               acknowledged := true |}
    end.

(** [updateOne(filterOrId, update)] (lines 290-316) *)
Definition updateOne (filterOrId update : value) : M updateResult :=
  _ensureLoaded ;;
  lift (Validate.object update false) ;;
  let isIdFilter := typeof_string filterOrId in
  let filter :=
    if isIdFilter then VObj [("_id", filterOrId)] else filterOrId in
  (if negb isIdFilter then lift (_validateFilter filter) else ret tt) ;;
  lift (Validate.validateUpdateObject update Validate.noOptions) ;;
  let updateKeys := js_keys update in
  let hasOperators := existsb is_operator_key updateKeys in
  if hasOperators then _updateOneWithOperators filter update
  else _updateOneWithReplacement filter update.

(** The loop of [updateMany] (lines 466-473). *)
Fixpoint updateEach (matchingDocs : list value) (update : value)
  (modified : nat) : M nat :=
  match matchingDocs with
  | [] => ret modified
  | doc :: rest =>
      result <- DocumentOperations.updateDocumentWithOperators
                  (prop "_id" doc) update ;;
      updateEach rest update
        (modified + DocumentOperations.modifiedCount result)
  end.

(** [updateMany(filter, update)] (lines 439-485) *)
Definition updateMany (filter update : value) : M updateResult :=
  _ensureLoaded ;;
  lift (_validateFilter filter) ;;
  lift (Validate.object update false) ;;
  lift (Validate.validateUpdateObject update
          {| Validate.requireOperators := true;
             Validate.forbidOperators := false |}) ;;
  matchingDocs <- DocumentOperations.findMultipleByQuery filter ;;
  let matched := List.length matchingDocs in
  if (matched =? 0)%nat then
    ret {| matchedCount := 0; modifiedCount := 0; acknowledged := true |}
  else
    modified <- updateEach matchingDocs update 0 ;;
    (if (0 <? modified)%nat then
       _updateMetadata None ;;
       _markDirty
     else ret tt) ;;
    ret {| matchedCount := matched; modifiedCount := modified;
           acknowledged := true |}.

(** [replaceOne(filterOrId, doc)] (lines 494-555) *)
Definition replaceOne (filterOrId doc : value) : M updateResult :=
  _ensureLoaded ;;
  lift (Validate.object doc false) ;;
  lift (Validate.validateUpdateObject doc
          {| Validate.requireOperators := false;
             Validate.forbidOperators := true |}) ;;
  let isIdFilter := typeof_string filterOrId in
  let filter :=
    if isIdFilter then VObj [("_id", filterOrId)] else filterOrId in
  (if negb isIdFilter then lift (_validateFilter filter) else ret tt) ;;
  let filterKeys := js_keys filter in
  if isIdKeys filterKeys then
    result <- DocumentOperations.replaceDocument (prop "_id" filter) doc ;;
    (if (0 <? DocumentOperations.modifiedCount result)%nat then
       _updateMetadata None ;;
       _markDirty
     else ret tt) ;;
    ret {| matchedCount :=
             if (0 <? DocumentOperations.modifiedCount result)%nat
             then 1 else 0;
           modifiedCount := DocumentOperations.modifiedCount result;
           acknowledged := true |}
  else
    matchingDoc <- DocumentOperations.findByQuery filter ;;
    match matchingDoc with
    | None =>
        ret {| matchedCount := 0; modifiedCount := 0; acknowledged := true |}
    | Some found =>
        result <- DocumentOperations.replaceDocument
                    (prop "_id" found) doc ;;
        (if (0 <? DocumentOperations.modifiedCount result)%nat then
           _updateMetadata None ;;
           _markDirty
         else ret tt) ;;
        ret {| matchedCount := 1;
               modifiedCount := DocumentOperations.modifiedCount result;
               acknowledged := true |}
    end.

(** [deleteOne(filter = {})] (lines 563-634) *)
Definition deleteOne (filter0 : value) : M deleteResult :=
  let filter := defaultTo (VObj []) filter0 in
  _ensureLoaded ;;
  lift (_validateFilter filter) ;;
  let filterKeys := js_keys filter in
  if (List.length filterKeys =? 0)%nat then
    allDocs <- DocumentOperations.findAllDocuments ;;
    match allDocs with
    | [] => ret {| deletedCount := 0; deleteAcknowledged := true |}
    | first :: _ =>
        deleted <- DocumentOperations.deleteDocument (prop "_id" first) ;;
        (if (0 <? deleted)%nat then
           c <- this ;;
           _updateMetadata (Some (List.length (keys (_documents c)))) ;;
           _markDirty
         else ret tt) ;;
        ret {| deletedCount := deleted; deleteAcknowledged := true |}
    end
  else if isIdKeys filterKeys then
    deleted <- DocumentOperations.deleteDocument (prop "_id" filter) ;;
    (if (0 <? deleted)%nat then
       c <- this ;;
       _updateMetadata (Some (List.length (keys (_documents c)))) ;;
       _markDirty
     else ret tt) ;;
    ret {| deletedCount := deleted; deleteAcknowledged := true |}
  else
    matchingDoc <- DocumentOperations.findByQuery filter ;;
    match matchingDoc with
    | None => ret {| deletedCount := 0; deleteAcknowledged := true |}
    | Some doc =>
        deleted <- DocumentOperations.deleteDocument (prop "_id" doc) ;;
        (if (0 <? deleted)%nat then
           c <- this ;;
           _updateMetadata (Some (List.length (keys (_documents c)))) ;;
           _markDirty
         else ret tt) ;;
        ret {| deletedCount := deleted; deleteAcknowledged := true |}
    end.

(** [countDocuments(filter = {})] (lines 642-655) *)
Definition countDocuments (filter0 : value) : M nat :=
  let filter := defaultTo (VObj []) filter0 in
  _ensureLoaded ;;
  lift (_validateFilter filter) ;;
  let filterKeys := js_keys filter in
  if (List.length filterKeys =? 0)%nat then DocumentOperations.countDocuments
  else DocumentOperations.countByQuery filter.

End WithEngines.

(** [getName()] (lines 661-663) *)
Definition getName : M string :=
  c <- this ;;
  ret (_name c).

(** [getMetadata()] (lines 669-672) *)
Definition getMetadata : M (option CollectionMetadata.t) :=
  _ensureLoaded ;;
  c <- this ;;
  ret (_collectionMetadata c).

(** [isDirty()] (lines 678-680) *)
Definition isDirty : M bool :=
  c <- this ;;
  ret (_dirty c).

(** [save()] (lines 686-690) *)
Definition save : M unit :=
  c <- this ;;
  if _loaded c && _dirty c then _saveData else ret tt.

(** The methods the class body declares, in source order: what
    [collection[name]] finds. *)
Definition methods : list string :=
  [ "constructor"; "_ensureLoaded"; "_loadData"; "_saveData"; "_markDirty";
    "_updateMetadata"; "_validateFilter"; "insertOne"; "findOne"; "find";
    "updateOne"; "_updateOneWithOperators"; "_updateOneWithReplacement";
    "updateMany"; "replaceOne"; "deleteOne"; "countDocuments"; "getName";
    "getMetadata"; "isDirty"; "save" ].

(** [typeof collection[name] === "function"] *)
Definition provides (name : string) : bool :=
  existsb (String.eqb name) methods.

(* ================================================================== *)
(** ** Calls on the public surface *)

Inductive call : Type :=
| InsertOne (doc : value)
| FindOne (filter : value)
| Find (filter : value)
| UpdateOne (filterOrId update : value)
| UpdateMany (filter update : value)
| ReplaceOne (filterOrId doc : value)
| DeleteOne (filter : value)
| CountDocuments (filter : value).

Inductive reply : Type :=
| Inserted (r : insertResult)
| Found (doc : option value)
| FoundAll (docs : list value)
| Updated (r : updateResult)
| Deleted (r : deleteResult)
| Counted (n : nat).

Definition perform {E : Engine.t} (op : call) : M reply :=
  match op with
  | InsertOne doc => r <- insertOne doc ;; ret (Inserted r)
  | FindOne filter => r <- findOne filter ;; ret (Found r)
  | Find filter => r <- find filter ;; ret (FoundAll r)
  | UpdateOne filterOrId update =>
      r <- updateOne filterOrId update ;; ret (Updated r)
  | UpdateMany filter update =>
      r <- updateMany filter update ;; ret (Updated r)
  | ReplaceOne filterOrId doc =>
      r <- replaceOne filterOrId doc ;; ret (Updated r)
  | DeleteOne filter => r <- deleteOne filter ;; ret (Deleted r)
  | CountDocuments filter => r <- countDocuments filter ;; ret (Counted r)
  end.

(** The public mutation calls. *)
Definition isMutation (op : call) : bool :=
  match op with
  | InsertOne _ | UpdateOne _ _ | UpdateMany _ _ | ReplaceOne _ _
  | DeleteOne _ => true
  | _ => false
  end.

(** What a reply reports as changed: an insertion, [modifiedCount] or
    [deletedCount]. *)
Definition changes (r : reply) : nat :=
  match r with
  | Inserted _ => 1
  | Updated u => modifiedCount u
  | Deleted d => deletedCount d
  | _ => 0
  end.

(** The events a run appended to the trace. *)
Definition emitted (before after : State) (evs : list event) : Prop :=
  trace (snd after) = (trace (snd before) ++ evs)%list.

(** A lazy read or a publication to the master index: neither a lock
    operation nor a blob write. *)
Definition isReadOrPublish (e : event) : bool :=
  match e with
  | ReadFile _ | UpdateCollectionMetadata _ _ => true
  | _ => false
  end.

(** The data-model invariant "for every document d, d._id equals its key
    in the documents map". *)
Definition storedUnderId (docs : object) : bool :=
  forallb (fun kd => ObjectUtils.deepEqual (prop "_id" (snd kd)) (VStr (fst kd)))
          docs.

(** "documentCount equals the size of the documents map". *)
Definition countMatches (c : Collection) : Prop :=
  match _collectionMetadata c with
  | Some m =>
      CollectionMetadata.documentCount m = List.length (keys (_documents c))
  | None => False
  end.

(* ================================================================== *)
(** ** A small collection to run the methods on *)

Module Sample.

Definition anna : value := VObj [("_id", VStr "a"); ("n", VNum 1)].
Definition ben : value := VObj [("_id", VStr "b"); ("n", VNum 2)].

Definition metadata : CollectionMetadata.t :=
  {| CollectionMetadata.name := "people";
     CollectionMetadata.fileId := "file-1";
     CollectionMetadata.created := 0;
     CollectionMetadata.lastUpdated := 0;
     CollectionMetadata.documentCount := 2;
     CollectionMetadata.modificationToken := None |}.

Definition blob : value :=
  VObj [ ("documents", VObj [("a", anna); ("b", ben)]);
         ("metadata", CollectionMetadata.toJSON metadata) ].

Definition outside : World :=
  {| files := [("file-1", blob)];
     available := true;
     masterIndex := Some [("people", CollectionMetadata.toJSON metadata)];
     now := 7;
     uuids := fun n => "uuid-" ++ NilEmpty.string_of_uint (Nat.to_uint n);
     issued := 0;
     trace := [] |}.

(** The instance as the constructor leaves it. *)
Definition fresh : Collection :=
  {| _name := "people"; _driveFileId := "file-1"; _loaded := false;
     _dirty := false; _documents := []; _collectionMetadata := None;
     _documentOperations := false |}.

(** The instance after its first operation. *)
Definition loaded : Collection :=
  {| _name := "people"; _driveFileId := "file-1"; _loaded := true;
     _dirty := false; _documents := [("a", anna); ("b", ben)];
     _collectionMetadata := Some metadata; _documentOperations := true |}.

Definition setN1 : value := VObj [("$set", VObj [("n", VNum 1)])].
Definition setN5 : value := VObj [("$set", VObj [("n", VNum 5)])].

End Sample.

(** The write path the specification describes, as a property of the
    events of one call: lock, blob write, publication, unlock. *)
Definition lockedWriteThrough (evs : list event) : Prop :=
  In AcquireScriptLock evs /\
  (exists h d, In (WriteFile h d) evs) /\
  (exists n m, In (UpdateCollectionMetadata n m) evs) /\
  In ReleaseScriptLock evs.

(** What [deleteOne] does once it holds the identifier of the document
    to delete: the block its three branches repeat (lines 579-591,
    596-608, 621-633). *)
Definition deleteById (id : value) : M deleteResult :=
  deleted <- DocumentOperations.deleteDocument id ;;
  (if (0 <? deleted)%nat then
     c <- this ;;
     _updateMetadata (Some (List.length (keys (_documents c)))) ;;
     _markDirty
   else ret tt) ;;
  ret {| deletedCount := deleted; deleteAcknowledged := true |}.

(** The last branch of [deleteOne], "Field-based or complex queries - use
    QueryEngine" (lines 611-633). *)
Definition deleteByQuery {E : Engine.t} (filter : value) : M deleteResult :=
  matchingDoc <- DocumentOperations.findByQuery filter ;;
  match matchingDoc with
  | None => ret {| deletedCount := 0; deleteAcknowledged := true |}
  | Some doc => deleteById (prop "_id" doc)
  end.

(** The same calls with the dispatch on the filter's shape left out:
    every filter goes "through the QueryEngine path", the last branch of
    [findOne] (line 259) and of [deleteOne] (lines 611-633). *)
Definition findOneByQuery {E : Engine.t} (filter0 : value)
  : M (option value) :=
  let filter := defaultTo (VObj []) filter0 in
  _ensureLoaded ;;
  lift (_validateFilter filter) ;;
  DocumentOperations.findByQuery filter.

Definition deleteOneByQuery {E : Engine.t} (filter0 : value)
  : M deleteResult :=
  let filter := defaultTo (VObj []) filter0 in
  _ensureLoaded ;;
  lift (_validateFilter filter) ;;
  deleteByQuery filter.

(** The direct map lookup of the fast path, with no engine in sight. *)
Definition findOneByLookup (id : string) : M (option value) :=
  _ensureLoaded ;;
  lift (Validate.nonEmptyString (VStr id)) ;;
  c <- this ;;
  ret (obj_get id (_documents c)).




(** A validation that throws. *)
Definition fails {A} (r : res A) : bool :=
  match r with Ok _ => false | Err _ => true end.

(** The call has an argument that one of its validations rejects: the
    validations of each method, in the order of its body.  [insertOne]
    has none of its own; its document is validated by
    DocumentOperations. *)
Definition invalidArguments (op : call) : bool :=
  match op with
  | InsertOne doc => fails (Validate.object doc true)
  | FindOne filter | Find filter | DeleteOne filter
  | CountDocuments filter =>
      fails (_validateFilter (defaultTo (VObj []) filter))
  | UpdateOne filterOrId update =>
      fails (Validate.object update false)
      || (negb (typeof_string filterOrId) && fails (_validateFilter filterOrId))
      || fails (Validate.validateUpdateObject update Validate.noOptions)
  | UpdateMany filter update =>
      fails (_validateFilter filter)
      || fails (Validate.object update false)
      || fails (Validate.validateUpdateObject update
                  {| Validate.requireOperators := true;
                     Validate.forbidOperators := false |})
  | ReplaceOne filterOrId doc =>
      fails (Validate.object doc false)
      || fails (Validate.validateUpdateObject doc
                  {| Validate.requireOperators := false;
                     Validate.forbidOperators := true |})
      || (negb (typeof_string filterOrId) && fails (_validateFilter filterOrId))
  end.

(** The blob [_saveData] hands to FileService (lines 139-142). *)
Definition blobOf (c : Collection) (m : CollectionMetadata.t) : value :=
  VObj [ ("documents", VObj (_documents c));
         ("metadata", CollectionMetadata.toJSON m) ].

(* ================================================================== *)
(** ** Vocabulary of the properties *)

(** A relation between the state before and after a computation, for
    every outcome. *)
Definition steps {A} (R : State -> State -> Prop) (m : M A) : Prop :=
  forall s, R s (snd (m s)).

(** The run appended only lazy reads and publications. *)
Definition quietly (s s' : State) : Prop :=
  exists evs, emitted s s' evs /\ forallb isReadOrPublish evs = true.

(** The collection is dirty and, where the database has a master index,
    the last thing the run did outside was to publish the metadata the
    collection now holds. *)
Definition published (s : State) : Prop :=
  _dirty (fst s) = true /\
  (masterIndex (snd s) <> None ->
   exists m pre,
     _collectionMetadata (fst s) = Some m /\
     trace (snd s) =
       (pre ++ [UpdateCollectionMetadata (_name (fst s))
                  (CollectionMetadata.toJSON m)])%list).

(** The collection is clean: loaded, with [documentCount] equal to the
    size of the documents map. *)
Definition clean (s : State) : Prop :=
  _loaded (fst s) = true /\ countMatches (fst s).

Definition staysClean (s s' : State) : Prop := clean s -> clean s'.


Definition noUpdate : updateResult :=
  {| matchedCount := 0; modifiedCount := 0; acknowledged := true |}.

Definition noDelete : deleteResult :=
  {| deletedCount := 0; deleteAcknowledged := true |}.


(* ================================================================== *)
(** ** The whole public surface, and sequences of calls *)

(** A call of any public method: the data calls, and [getName()],
    [getMetadata()], [isDirty()] and [save()]. *)
Inductive request : Type :=
| Data (op : call)
| GetName
| GetMetadata
| IsDirty
| Save.

Inductive answer : Type :=
| Replied (r : reply)
| Named (n : string)
| Described (m : option CollectionMetadata.t)
| Flagged (b : bool)
| Saved.

Definition serve {E : Engine.t} (rq : request) : M answer :=
  match rq with
  | Data op => r <- perform op ;; ret (Replied r)
  | GetName => n <- getName ;; ret (Named n)
  | GetMetadata => m <- getMetadata ;; ret (Described m)
  | IsDirty => b <- isDirty ;; ret (Flagged b)
  | Save => save ;; ret Saved
  end.

(** The state a caller is left with after a sequence of requests, going
    on after an exception. *)
Fixpoint session {E : Engine.t} (rqs : list request) (s : State) : State :=
  match rqs with
  | [] => s
  | rq :: rest => session rest (snd (serve rq s))
  end.

(** The methods whose body starts with [this._ensureLoaded()]: all but
    [getName], [isDirty] and [save]. *)
Definition loadsFirst (rq : request) : bool :=
  match rq with
  | Data _ | GetMetadata => true
  | GetName | IsDirty | Save => false
  end.

(** The methods that only look: the three queries and the getters. *)
Definition observes (rq : request) : bool :=
  match rq with
  | Data (FindOne _) | Data (Find _) | Data (CountDocuments _)
  | GetName | GetMetadata | IsDirty => true
  | _ => false
  end.

(** The calls that rewrite stored documents in place. *)
Definition isUpdate (op : call) : bool :=
  match op with
  | UpdateOne _ _ | UpdateMany _ _ | ReplaceOne _ _ => true
  | _ => false
  end.

(** The mutation calls that touch at most one document. *)
Definition changesOne (op : call) : bool :=
  match op with
  | InsertOne _ | UpdateOne _ _ | ReplaceOne _ _ | DeleteOne _ => true
  | _ => false
  end.

Definition isRead (e : event) : bool :=
  match e with ReadFile _ => true | _ => false end.

Definition isWrite (e : event) : bool :=
  match e with WriteFile _ _ => true | _ => false end.

(** An event on the blob or on the index entry of collection [c]. *)
Definition ownEvent (c : Collection) (e : event) : bool :=
  match e with
  | ReadFile h | WriteFile h _ => h =? _driveFileId c
  | UpdateCollectionMetadata n _ => n =? _name c
  | AcquireScriptLock | ReleaseScriptLock => false
  end.

(** The documents map as the data model has it: one entry per key, each
    document under its own [_id]. *)
Definition wellStored (docs : object) : Prop :=
  NoDup (keys docs) /\ storedUnderId docs = true.

(** The metadata a load builds when the blob has none (line 98). *)
Definition defaultMetadata (c : Collection) (w : World)
  : res CollectionMetadata.t :=
  CollectionMetadata.new (_name c) (_driveFileId c) (VObj []) (now w).

(** The world apart from the identifier source, which [insertOne] may
    draw from before it throws. *)
Definition sameOutside (w w' : World) : Prop :=
  files w' = files w /\ available w' = available w /\
  masterIndex w' = masterIndex w /\ now w' = now w /\ trace w' = trace w.

(** A loaded collection stays loaded and the run reads no blob. *)
Definition readsNothing (s s' : State) : Prop :=
  _loaded (fst s) = true ->
  _loaded (fst s') = true /\
  exists evs,
    emitted s s' evs /\ forallb (fun e => negb (isRead e)) evs = true.

(** The instance keeps its name and its file, and the run touches no
    other blob and no other index entry. *)
Definition keepsToItsOwn (s s' : State) : Prop :=
  _name (fst s') = _name (fst s) /\
  _driveFileId (fst s') = _driveFileId (fst s) /\
  exists evs, emitted s s' evs /\ forallb (ownEvent (fst s)) evs = true.

(** The state is the one before. *)
Definition unchanged (s s' : State) : Prop := s' = s.

(** The instance after a load that installed [docs] and [m] (lines 97-108
    and 70). *)
Definition loadedWith (docs : object) (m : CollectionMetadata.t)
  (c : Collection) : Collection :=
  {| _name := _name c; _driveFileId := _driveFileId c; _loaded := true;
     _dirty := _dirty c; _documents := docs; _collectionMetadata := Some m;
     _documentOperations := true |}.

(** The world with Drive out of reach. *)
Definition outOfReach (w : World) : World :=
  {| files := files w; available := false; masterIndex := masterIndex w;
     now := now w; uuids := uuids w; issued := issued w; trace := trace w |}.

(** A loaded collection stays loaded and keeps the keys of its documents
    map, in their order. *)
Definition keepsKeys (s s' : State) : Prop :=
  _loaded (fst s) = true ->
  _loaded (fst s') = true /\
  keys (_documents (fst s')) = keys (_documents (fst s)).

(** A loaded collection stays loaded, and its documents map stays as the
    data model has it. *)
Definition staysStored (s s' : State) : Prop :=
  _loaded (fst s) = true -> wellStored (_documents (fst s)) ->
  _loaded (fst s') = true /\ wellStored (_documents (fst s')).

(** The metadata a collection named [nm] on file [fid] builds from the
    persisted form of [m]. *)
Definition reloaded (nm fid : string) (m : CollectionMetadata.t)
  : CollectionMetadata.t :=
  {| CollectionMetadata.name := nm;
     CollectionMetadata.fileId := fid;
     CollectionMetadata.created := CollectionMetadata.created m;
     CollectionMetadata.lastUpdated := CollectionMetadata.lastUpdated m;
     CollectionMetadata.documentCount := CollectionMetadata.documentCount m;
     CollectionMetadata.modificationToken :=
       CollectionMetadata.modificationToken m |}.

(** The collection object is the one before, and so is the world apart
    from the identifier source. *)
Definition sameCollection (s s' : State) : Prop :=
  fst s' = fst s /\ sameOutside (snd s) (snd s').

(** Nothing but the documents map may differ: the flags, the metadata
    and the world (apart from the identifier source) are as before. *)
Definition sameButDocuments (s s' : State) : Prop :=
  (exists docs, fst s' = with_documents docs (fst s)) /\
  sameOutside (snd s) (snd s').

(** The documents map after documents were rewritten in place, one
    after another, each into a document structurally equal to the one
    it replaces. *)
Inductive rewrittenEqual : object -> object -> Prop :=
| rewritten_none docs : rewrittenEqual docs docs
| rewritten_one docs k old d docs' :
    obj_get k docs = Some old ->
    ObjectUtils.deepEqual d old = true ->
    rewrittenEqual (obj_replace k d docs) docs' ->
    rewrittenEqual docs docs'.

(** Nothing but the documents map may differ, and it differs by
    documents rewritten into structurally equal ones. *)
Definition rewrittenOnly (s s' : State) : Prop :=
  sameButDocuments s s' /\
  rewrittenEqual (_documents (fst s)) (_documents (fst s')).

(** A loaded collection holds its metadata ([_loadData] installs both
    before [_ensureLoaded] sets the flag). *)
Definition ready (s : State) : Prop :=
  _loaded (fst s) = true /\ _collectionMetadata (fst s) <> None.

(** On a ready collection, a run that throws leaves states related by
    [R]. *)
Definition failsWithin (R : State -> State -> Prop) {A} (m : M A) : Prop :=
  forall s e s', ready s -> m s = (Err e, s') -> R s s'.

(** On a ready collection the computation returns, and leaves the
    collection ready. *)
Definition runs {A} (m : M A) : Prop :=
  forall s, ready s -> exists a s', m s = (Ok a, s') /\ ready s'.

(* ================================================================== *)
(** * Properties *)

(** ** The reference engines on the scenarios of the specification *)

Module Scenarios.

Definition a1 : value :=
  VObj [("_id", VStr "a"); ("name", VObj [("first", VStr "Anna")])].
Definition b1 : value :=
  VObj [("_id", VStr "b"); ("name", VObj [("first", VStr "Ben")])].

(** Implicit equality with a dotted path. *)
Example implicit_equality_dotted_path :
  DocumentOperations.findAll (E := Engine.spec) [a1; b1]
    (VObj [("name.first", VStr "Anna")]) = Ok [a1].
Proof. vm_compute; reflexivity. Qed.

(** Logical AND: the active persons over 25. *)
Example logical_and :
  let person id age active :=
    VObj [("_id", VStr id); ("age", VNum age); ("isActive", VBool active)] in
  DocumentOperations.findAll (E := Engine.spec)
    [ person "p1" 29%Z true; person "p2" 0%Z false; person "p3" 45%Z true;
      person "p4" 38%Z true; person "p5" 50%Z false; person "p6" 65%Z true ]
    (VObj [("$and", VArr [ VObj [("age", VObj [("$gt", VNum 25)])];
                           VObj [("isActive", VBool true)] ])])
  = Ok [ person "p1" 29%Z true; person "p3" 45%Z true; person "p4" 38%Z true;
         person "p6" 65%Z true ].
Proof. vm_compute; reflexivity. Qed.

(** Immutable update. *)
Example increment :
  UpdateEngine.applyOperators
    (VObj [("_id", VStr "x"); ("n", VNum 10)])
    (VObj [("$inc", VObj [("n", VNum 5)])])
  = Ok (VObj [("_id", VStr "x"); ("n", VNum 15)]).
Proof. vm_compute; reflexivity. Qed.

(** Array operators. *)
Example array_operators :
  let doc := VObj [("_id", VStr "a");
                   ("tags", VArr [VStr "red"; VStr "blue"])] in
  UpdateEngine.applyOperators doc
    (VObj [("$addToSet", VObj [("tags", VStr "red")])]) = Ok doc /\
  UpdateEngine.applyOperators doc
    (VObj [("$addToSet",
            VObj [("tags",
                   VObj [("$each", VArr [VStr "red"; VStr "green"])])])])
  = Ok (VObj [("_id", VStr "a");
              ("tags", VArr [VStr "red"; VStr "blue"; VStr "green"])]) /\
  UpdateEngine.applyOperators doc
    (VObj [("$pull", VObj [("tags", VStr "red")])])
  = Ok (VObj [("_id", VStr "a"); ("tags", VArr [VStr "blue"])]).
Proof. cbv zeta. repeat split; vm_compute; reflexivity. Qed.

(** The identifier is immutable. *)
Example immutable_id :
  UpdateEngine.applyOperators a1 (VObj [("$set", VObj [("_id", VStr "z")])])
    = Err ImmutableField /\
  UpdateEngine.applyOperators a1 (VObj [("$unset", VObj [("_id", VNum 1)])])
    = Err ImmutableField.
Proof. split; vm_compute; reflexivity. Qed.

(** Duplicate insert: the second call fails, the collection has one
    document. *)
Example duplicate_insert :
  let empty := (with_collectionMetadata
                  (Some (CollectionMetadata.setDocumentCount 0
                           Sample.metadata))
                  (with_documents [] Sample.loaded), Sample.outside) in
  let once := snd (insertOne (VObj [("_id", VStr "a")]) empty) in
  fst (insertOne (VObj [("_id", VStr "a")]) once) = Err DuplicateKey /\
  fst (countDocuments (E := Engine.spec) (VObj [])
         (snd (insertOne (VObj [("_id", VStr "a")]) once))) = Ok 1.
Proof. cbv zeta. split; vm_compute; reflexivity. Qed.

End Scenarios.

(** ** Running the state-and-error monad *)

Lemma bind_Ok {A B} (m : M A) (k : A -> M B) s a s' :
  m s = (Ok a, s') -> bind m k s = k a s'.
Proof. unfold bind; intros ->; reflexivity. Qed.

Lemma bind_Err {A B} (m : M A) (k : A -> M B) s e s' :
  m s = (Err e, s') -> bind m k s = (Err e, s').
Proof. unfold bind; intros ->; reflexivity. Qed.

Lemma run_Ok {A} {m : M A} {s a s'} (H : m s = (Ok a, s')) :
  forall B (k : A -> M B), bind m k s = k a s'.
Proof. intros B k. now apply bind_Ok. Qed.

Lemma run_Err {A} {m : M A} {s e s'} (H : m s = (Err e, s')) :
  forall B (k : A -> M B), bind m k s = (Err e, s').
Proof. intros B k. now apply bind_Err. Qed.

Lemma bind_lift_Ok {A B} (a : A) (k : A -> M B) s :
  bind (lift (Ok a)) k s = k a s.
Proof. reflexivity. Qed.

Lemma bind_lift_Err {A B} e (k : A -> M B) s :
  bind (lift (Err e)) k s = (Err e, s).
Proof. reflexivity. Qed.

Lemma bind_inv {A B} (m : M A) (k : A -> M B) s b s' :
  bind m k s = (Ok b, s') ->
  exists a s1, m s = (Ok a, s1) /\ k a s1 = (Ok b, s').
Proof.
  unfold bind; destruct (m s) as [[a|e] s1]; intros H.
  - exists a, s1; split; [reflexivity | exact H].
  - discriminate.
Qed.


(** [deleteOne] read by its blocks. *)
Lemma deleteOne_blocks {E : Engine.t} (filter0 : value) :
  deleteOne filter0
  = (let filter := defaultTo (VObj []) filter0 in
     _ensureLoaded ;;
     lift (_validateFilter filter) ;;
     let filterKeys := js_keys filter in
     if (List.length filterKeys =? 0)%nat then
       allDocs <- DocumentOperations.findAllDocuments ;;
       match allDocs with
       | [] => ret {| deletedCount := 0; deleteAcknowledged := true |}
       | first :: _ => deleteById (prop "_id" first)
       end
     else if isIdKeys filterKeys then deleteById (prop "_id" filter)
     else deleteByQuery filter).
Proof. reflexivity. Qed.

Section Steps.
Variable R : State -> State -> Prop.
Hypothesis R_refl : forall s, R s s.
Hypothesis R_trans : forall s1 s2 s3, R s1 s2 -> R s2 s3 -> R s1 s3.

Lemma steps_ret {A} (a : A) : steps R (ret a).
Proof. intros s; apply R_refl. Qed.

Lemma steps_throw {A} e : steps R (@throw A e).
Proof. intros s; apply R_refl. Qed.

Lemma steps_lift {A} (r : res A) : steps R (lift r).
Proof. intros s; apply R_refl. Qed.

Lemma steps_this : steps R this.
Proof. intros s; apply R_refl. Qed.

Lemma steps_world : steps R world.
Proof. intros s; apply R_refl. Qed.

Lemma steps_bind {A B} (m : M A) (k : A -> M B) :
  steps R m -> (forall a, steps R (k a)) -> steps R (bind m k).
Proof.
  intros Hm Hk s; unfold bind.
  specialize (Hm s); destruct (m s) as [[a|e] s1]; cbn in *.
  - eapply R_trans; [exact Hm | apply Hk].
  - exact Hm.
Qed.

Lemma steps_rethrow {A} (m : M A) h : steps R m -> steps R (rethrow m h).
Proof.
  intros Hm s; unfold rethrow; specialize (Hm s).
  destruct (m s) as [[a|e] s1]; exact Hm.
Qed.

End Steps.

(** ** C1: what a mutation call does outside the collection *)


Lemma quietly_refl s : quietly s s.
Proof. exists []; split; [unfold emitted; now rewrite app_nil_r | reflexivity]. Qed.

Lemma quietly_trans s1 s2 s3 : quietly s1 s2 -> quietly s2 s3 -> quietly s1 s3.
Proof.
  intros (e1 & H1 & Q1) (e2 & H2 & Q2). exists (e1 ++ e2)%list; split.
  - unfold emitted in *. now rewrite H2, H1, app_assoc.
  - now rewrite forallb_app, Q1, Q2.
Qed.

Lemma quietly_same_trace s s' : trace (snd s') = trace (snd s) -> quietly s s'.
Proof.
  intros H; exists []; split; [unfold emitted; now rewrite app_nil_r | reflexivity].
Qed.

Lemma quiet_assign f : steps quietly (assign f).
Proof. intros s; now apply quietly_same_trace. Qed.

Lemma quiet_effect f :
  (forall w, trace (f w) = trace w) -> steps quietly (effect f).
Proof. intros H s; apply quietly_same_trace; cbn; apply H. Qed.

Lemma quiet_log e : isReadOrPublish e = true -> steps quietly (effect (log e)).
Proof.
  intros H s; exists [e]; split; [reflexivity | cbn; now rewrite H].
Qed.

Ltac quiet_step :=
  match goal with
  | |- steps _ (bind _ _) => apply (steps_bind quietly_trans)
  | |- steps _ (ret _) => apply (steps_ret quietly quietly_refl)
  | |- steps _ (throw _) => apply (steps_throw quietly quietly_refl)
  | |- steps _ (lift _) => apply (steps_lift quietly quietly_refl)
  | |- steps _ this => apply (steps_this quietly quietly_refl)
  | |- steps _ world => apply (steps_world quietly quietly_refl)
  | |- steps _ (rethrow _ _) => apply steps_rethrow
  | |- steps _ (assign _) => apply quiet_assign
  | |- steps _ (effect (log _)) => apply quiet_log; reflexivity
  | |- steps _ (effect _) => apply quiet_effect; reflexivity
  | |- steps _ (if ?b then _ else _) => destruct b
  | |- steps _ (match ?x with _ => _ end) => destruct x
  | |- forall _, _ => intro
  end.

Create HintDb quiet.

Ltac quiet := repeat (solve [auto with quiet] || quiet_step).

Lemma quiet_readFile h : steps quietly (FileService.readFile h).
Proof. unfold FileService.readFile; quiet. Qed.

Lemma quiet_publish n m :
  steps quietly (MasterIndex.updateCollectionMetadata n m).
Proof. unfold MasterIndex.updateCollectionMetadata; quiet. Qed.
#[local] Hint Resolve quiet_readFile quiet_publish : quiet.

Lemma quiet_loadData : steps quietly _loadData.
Proof. unfold _loadData; quiet. Qed.
#[local] Hint Resolve quiet_loadData : quiet.

Lemma quiet_ensureLoaded : steps quietly _ensureLoaded.
Proof. unfold _ensureLoaded; quiet. Qed.
#[local] Hint Resolve quiet_ensureLoaded : quiet.

Lemma quiet_updateMetadata n : steps quietly (_updateMetadata n).
Proof. unfold _updateMetadata; quiet. Qed.
#[local] Hint Resolve quiet_updateMetadata : quiet.

Lemma quiet_markDirty : steps quietly _markDirty.
Proof. unfold _markDirty; quiet. Qed.
#[local] Hint Resolve quiet_markDirty : quiet.

Section QuietWithEngines.
Context {E : Engine.t}.

Lemma quiet_idOf id : steps quietly (DocumentOperations.idOf id).
Proof. unfold DocumentOperations.idOf; quiet. Qed.
#[local] Hint Resolve quiet_idOf : quiet.

Lemma quiet_insertDocument d : steps quietly (DocumentOperations.insertDocument d).
Proof. unfold DocumentOperations.insertDocument, DocumentOperations.generateId; quiet. Qed.

Lemma quiet_findByQuery f : steps quietly (DocumentOperations.findByQuery f).
Proof. unfold DocumentOperations.findByQuery; quiet. Qed.

Lemma quiet_findMultipleByQuery f :
  steps quietly (DocumentOperations.findMultipleByQuery f).
Proof. unfold DocumentOperations.findMultipleByQuery; quiet. Qed.

Lemma quiet_findAllDocuments : steps quietly DocumentOperations.findAllDocuments.
Proof. unfold DocumentOperations.findAllDocuments; quiet. Qed.

Lemma quiet_replaceDocument i d :
  steps quietly (DocumentOperations.replaceDocument i d).
Proof. unfold DocumentOperations.replaceDocument; quiet. Qed.

Lemma quiet_updateDocument i d :
  steps quietly (DocumentOperations.updateDocument i d).
Proof. apply quiet_replaceDocument. Qed.

Lemma quiet_updateDocumentWithOperators i u :
  steps quietly (DocumentOperations.updateDocumentWithOperators i u).
Proof. unfold DocumentOperations.updateDocumentWithOperators; quiet. Qed.

Lemma quiet_deleteDocument i : steps quietly (DocumentOperations.deleteDocument i).
Proof. unfold DocumentOperations.deleteDocument; quiet. Qed.

#[local] Hint Resolve quiet_insertDocument quiet_findByQuery quiet_findMultipleByQuery
  quiet_findAllDocuments quiet_replaceDocument quiet_updateDocument
  quiet_updateDocumentWithOperators quiet_deleteDocument : quiet.


Lemma quiet_updateEach docs u n : steps quietly (updateEach docs u n).
Proof. revert n; induction docs as [|d r IH]; intros n; cbn [updateEach]; quiet. Qed.
#[local] Hint Resolve quiet_updateEach : quiet.

Lemma quiet_deleteById i : steps quietly (deleteById i).
Proof. unfold deleteById; quiet. Qed.
#[local] Hint Resolve quiet_deleteById : quiet.

Lemma quiet_mutation op : isMutation op = true -> steps quietly (perform op).
Proof.
  destruct op; cbn [isMutation]; try discriminate; intros _; cbn [perform].
  - unfold insertOne; quiet.
  - unfold updateOne, _updateOneWithOperators, _updateOneWithReplacement; quiet.
  - unfold updateMany; quiet.
  - unfold replaceOne; quiet.
  - rewrite deleteOne_blocks; cbv zeta; unfold deleteByQuery; quiet.
Qed.

End QuietWithEngines.


(** Inverting a run that returned: one layer of the computation. *)
Ltac returned :=
  match goal with
  | H : bind _ _ _ = (Ok _, _) |- _ =>
      let a := fresh "a" in
      let s := fresh "s" in
      let H1 := fresh "Hrun" in
      apply bind_inv in H as (a & s & H1 & H)
  | H : ret _ _ = _ |- _ => unfold ret in H; inversion H; subst; clear H
  | H : throw _ _ = (Ok _, _) |- _ => discriminate H
  | H : lift _ _ = _ |- _ => unfold lift in H; inversion H; subst; clear H
  | H : this _ = _ |- _ => unfold this in H; inversion H; subst; clear H
  | H : world _ = _ |- _ => unfold world in H; inversion H; subst; clear H
  | H : assign _ _ = _ |- _ =>
      unfold assign in H; inversion H; subst; clear H
  | H : effect _ _ = _ |- _ =>
      unfold effect in H; inversion H; subst; clear H
  | H : (if ?b then _ else _) _ = (Ok _, _) |- _ =>
      let Hb := fresh "Hb" in destruct b eqn:Hb
  | H : (match ?x with _ => _ end) _ = (Ok _, _) |- _ =>
      let Hx := fresh "Hx" in destruct x eqn:Hx
  end.

Lemma updateMetadata_returned x s u s1 :
  _updateMetadata x s = (Ok u, s1) ->
  exists m,
    _collectionMetadata (fst s1) = Some m /\
    (masterIndex (snd s1) <> None ->
     exists pre,
       trace (snd s1) =
         (pre ++ [UpdateCollectionMetadata (_name (fst s1))
                    (CollectionMetadata.toJSON m)])%list).
Proof.
  unfold _updateMetadata, MasterIndex.updateCollectionMetadata; intros H.
  repeat returned; cbn [fst snd with_collectionMetadata _collectionMetadata
    _name log trace masterIndex with_masterIndex] in *.
  - eexists; split; [reflexivity|]. intros _. eexists; reflexivity.
  - eexists; split; [reflexivity|]. intros HM; congruence.
Qed.

Lemma touched x s u s1 u' s2 :
  _updateMetadata x s = (Ok u, s1) -> _markDirty s1 = (Ok u', s2) ->
  published s2.
Proof.
  intros H1 H2. apply updateMetadata_returned in H1 as (m & Hm & Hp).
  unfold _markDirty in H2; returned. split; [reflexivity|].
  cbn. intros HM. destruct (Hp HM) as (pre & Hpre). now exists m, pre.
Qed.

Section PublishedWithEngines.
Context {E : Engine.t}.


Lemma deleteById_returned id s r s' :
  deleteById id s = (Ok r, s') -> 0 < deletedCount r -> published s'.
Proof.
  unfold deleteById; intros H Hn.
  repeat returned; cbn in Hn.
  - eapply touched; eassumption.
  - apply Nat.ltb_ge in Hb. lia.
Qed.

Lemma changed_published op s r s' :
  isMutation op = true ->
  perform op s = (Ok r, s') -> 0 < changes r -> published s'.
Proof.
  destruct op; cbn [isMutation]; try discriminate; intros _ H Hn;
    cbn [perform] in H; do 2 returned; cbn [changes] in Hn.
  - (* insertOne *)
    unfold insertOne in Hrun. repeat returned.
    eapply touched; eassumption.
  - (* updateOne *)
    unfold updateOne, _updateOneWithOperators, _updateOneWithReplacement
      in Hrun.
    repeat returned; cbn in Hn; try lia; first
      [ eapply touched; eassumption
      | match goal with
        | Hz : (0 <? _)%nat = false |- _ => apply Nat.ltb_ge in Hz; lia
        end ].
  - (* updateMany *)
    unfold updateMany in Hrun.
    repeat returned; cbn in Hn; try lia; first
      [ eapply touched; eassumption
      | match goal with
        | Hz : (0 <? _)%nat = false |- _ => apply Nat.ltb_ge in Hz; lia
        end ].
  - (* replaceOne *)
    unfold replaceOne in Hrun.
    repeat returned; cbn in Hn; try lia; first
      [ eapply touched; eassumption
      | match goal with
        | Hz : (0 <? _)%nat = false |- _ => apply Nat.ltb_ge in Hz; lia
        end ].
  - (* deleteOne *)
    rewrite deleteOne_blocks in Hrun; cbv zeta in Hrun; unfold deleteByQuery in Hrun.
    repeat returned; cbn in Hn; try lia;
      eapply deleteById_returned; eassumption.
Qed.

End PublishedWithEngines.

Section MutationCalls.
Context {E : Engine.t}.

(** C1 (amended).  A public mutation call (insertOne, updateOne,
    updateMany, replaceOne, deleteOne) takes no lock and writes no blob:
    whatever its outcome, the only things it does outside the collection
    are the lazy read of the blob and publications to the master index.
    When it returns a result that reports a change (an insertion,
    [modifiedCount > 0] or [deletedCount > 0]) it has left the collection
    dirty and, where the database has a master index, its last outside
    action was to publish the collection's new metadata there. *)
Theorem mutation_publishes_without_lock_or_write (op : call) (s : State) :
  isMutation op = true ->
  (exists evs,
     emitted s (snd (perform op s)) evs /\
     forallb isReadOrPublish evs = true) /\
  (forall r,
     fst (perform op s) = Ok r -> 0 < changes r ->
     published (snd (perform op s))).
Proof.
  intros Hop; split.
  - exact (quiet_mutation op Hop s).
  - intros r Hr Hn. destruct (perform op s) as [r0 s'] eqn:Hrun.
    cbn in Hr; subst r0. eapply changed_published; eassumption.
Qed.

End MutationCalls.

(** An insertion into the sample collection is such a call. *)
Lemma mutation_publishes_without_lock_or_write_witness :
  isMutation (InsertOne (VObj [("n", VNum 3)])) = true /\
  ((exists evs,
      emitted (Sample.loaded, Sample.outside)
        (snd (perform (E := Engine.spec) (InsertOne (VObj [("n", VNum 3)]))
                (Sample.loaded, Sample.outside))) evs /\
      forallb isReadOrPublish evs = true) /\
   (forall r,
      fst (perform (E := Engine.spec) (InsertOne (VObj [("n", VNum 3)]))
             (Sample.loaded, Sample.outside)) = Ok r ->
      0 < changes r ->
      published
        (snd (perform (E := Engine.spec) (InsertOne (VObj [("n", VNum 3)]))
                (Sample.loaded, Sample.outside))))).
Proof.
  split; [reflexivity|].
  apply (mutation_publishes_without_lock_or_write (E := Engine.spec)).
  reflexivity.
Defined.

(** C1 (as stated) fails: [insertOne] on the loaded sample collection
    returns its result having only published the metadata; it took no
    lock and wrote no blob, and the blob store still holds the old blob. *)
Lemma insertOne_neither_locks_nor_writes :
  let run := insertOne (VObj [("n", VNum 3)])
               (Sample.loaded, Sample.outside) in
  fst run = Ok {| insertedId := VStr "uuid-0"; insertAcknowledged := true |} /\
  files (snd (snd run)) = files Sample.outside /\
  ~ lockedWriteThrough (trace (snd (snd run))).
Proof.
  cbv zeta. split; [vm_compute; reflexivity|]. split; [vm_compute; reflexivity|].
  intros (Hlock & _). vm_compute in Hlock. intuition discriminate.
Qed.

(** C2 (code defect, evaluated).  The stored document "a" is
    [{_id: "a", n: 1}] and the update sets [n] to 1, so the resulting
    document equals the prior one.  Through the ID forms ([ "a" ] and
    [{_id: "a"}]) [updateOne] and [replaceOne] report [matchedCount = 0]
    although the document was matched; through a field filter matching
    the same single document they report [matchedCount = 1]. *)
Theorem id_filter_reports_unmatched_when_unchanged :
  let s := (Sample.loaded, Sample.outside) in
  let unmatched :=
    Ok {| matchedCount := 0; modifiedCount := 0; acknowledged := true |} in
  let matched :=
    Ok {| matchedCount := 1; modifiedCount := 0; acknowledged := true |} in
  fst (updateOne (E := Engine.spec) (VStr "a") Sample.setN1 s) = unmatched /\
  fst (updateOne (E := Engine.spec) (VObj [("_id", VStr "a")])
         Sample.setN1 s) = unmatched /\
  fst (replaceOne (E := Engine.spec) (VStr "a") Sample.anna s) = unmatched /\
  fst (updateOne (E := Engine.spec) (VObj [("n", VNum 1)])
         Sample.setN1 s) = matched /\
  fst (replaceOne (E := Engine.spec) (VObj [("n", VNum 1)])
         Sample.anna s) = matched /\
  DocumentOperations.findAll (E := Engine.spec)
    (values (_documents Sample.loaded)) (VObj [("_id", VStr "a")])
    = Ok [Sample.anna] /\
  DocumentOperations.findAll (E := Engine.spec)
    (values (_documents Sample.loaded)) (VObj [("n", VNum 1)])
    = Ok [Sample.anna].
Proof. cbv zeta. repeat split; vm_compute; reflexivity. Qed.

(** ** Loaded collections *)

Lemma ensureLoaded_loaded s :
  _loaded (fst s) = true -> _ensureLoaded s = (Ok tt, s).
Proof.
  destruct s as [c w]; cbn; intros H.
  unfold _ensureLoaded, bind, this; cbn. now rewrite H.
Qed.

Lemma run_loaded {A} (k : unit -> M A) s :
  _loaded (fst s) = true -> bind _ensureLoaded k s = k tt s.
Proof. intros H. unfold bind. now rewrite (ensureLoaded_loaded s H). Qed.

Lemma obj_delete_length k o v :
  obj_get k o = Some v ->
  List.length (keys (obj_delete k o)) + 1 = List.length (keys o).
Proof.
  unfold keys; induction o as [|[k' v'] r IH]; cbn; [discriminate|].
  destruct (k' =? k); intros H; cbn.
  - lia.
  - specialize (IH H). lia.
Qed.

Lemma obj_get_set k v o : obj_get k (obj_set k v o) = Some v.
Proof.
  unfold obj_set. destruct (obj_get k o) eqn:Hget.
  - induction o as [|[k' v'] r IH]; cbn in *; [discriminate|].
    destruct (k' =? k) eqn:Hk; cbn.
    + now rewrite String.eqb_refl.
    + rewrite Hk. now apply IH.
  - destruct (array_index k) as [i|].
    + induction o as [|[k' v'] r IH]; cbn in *.
      * now rewrite String.eqb_refl.
      * destruct (k' =? k) eqn:Hk; [discriminate|].
        destruct (array_index k') as [j|]; [destruct (j <? i)%N|]; cbn;
          rewrite ?Hk, ?String.eqb_refl; auto.
    + induction o as [|[k' v'] r IH]; cbn in *.
      * now rewrite String.eqb_refl.
      * destruct (k' =? k) eqn:Hk; [discriminate|]. now apply IH.
Qed.

Lemma obj_replace_length k v o :
  List.length (keys (obj_replace k v o)) = List.length (keys o).
Proof.
  unfold keys; induction o as [|[k' v'] r IH]; cbn; [reflexivity|].
  destruct (k' =? k); cbn; [reflexivity | now rewrite IH].
Qed.

(** What [_updateMetadata] leaves alone on a loaded collection. *)
Lemma updateMetadata_frame x s :
  _loaded (fst s) = true ->
  let s' := snd (_updateMetadata x s) in
  _loaded (fst s') = true /\
  _documents (fst s') = _documents (fst s) /\
  _dirty (fst s') = _dirty (fst s) /\
  files (snd s') = files (snd s).
Proof.
  intros H. cbv zeta. unfold _updateMetadata. rewrite (run_loaded _ s H).
  destruct s as [c w]; cbn in H |- *.
  unfold bind, this, world, assign, MasterIndex.updateCollectionMetadata,
    effect, throw, ret, bind; cbn.
  destruct (_collectionMetadata c); cbn; [|auto].
  destruct (masterIndex w) eqn:HM; cbn; [rewrite HM|]; cbn; auto.
Qed.

Lemma updateMetadata_returned_frame x s u s' :
  _loaded (fst s) = true ->
  _updateMetadata x s = (Ok u, s') ->
  _loaded (fst s') = true /\ _documents (fst s') = _documents (fst s).
Proof.
  intros H Hrun. pose proof (updateMetadata_frame x s H) as (H1 & H2 & _).
  rewrite Hrun in H1, H2. auto.
Qed.

Lemma deleteDocument_returned id s n s' :
  DocumentOperations.deleteDocument id s = (Ok n, s') ->
  n <= 1 /\
  List.length (keys (_documents (fst s'))) + n
    = List.length (keys (_documents (fst s))) /\
  _loaded (fst s') = _loaded (fst s) /\
  _collectionMetadata (fst s') = _collectionMetadata (fst s) /\
  snd s' = snd s.
Proof.
  unfold DocumentOperations.deleteDocument, DocumentOperations.idOf; intros H.
  repeat returned; cbn.
  - split; [lia|]. split; [|auto]. eapply obj_delete_length; eassumption.
  - split; [lia|]. split; [lia|auto].
Qed.

Section DeleteCounts.
Context {E : Engine.t}.

Lemma deleteById_counts id s r s' :
  _loaded (fst s) = true ->
  deleteById id s = (Ok r, s') ->
  deletedCount r <= 1 /\
  List.length (keys (_documents (fst s'))) + deletedCount r
    = List.length (keys (_documents (fst s))) /\
  _loaded (fst s') = true.
Proof.
  unfold deleteById; intros HL H.
  apply bind_inv in H as (n & s1 & Hdel & H).
  apply deleteDocument_returned in Hdel as (Hn & Hlen & HL1 & _ & _).
  rewrite HL in HL1.
  repeat returned; cbn [deletedCount fst snd _documents _loaded with_dirty].
  - unfold _markDirty in *. repeat returned.
    match goal with
    | Hm : _updateMetadata _ _ = (Ok _, _) |- _ =>
        apply updateMetadata_returned_frame in Hm as (HL2 & Hd);
          [|exact HL1]
    end.
    cbn. rewrite Hd. auto.
  - auto.
Qed.

(** C3 (amended).  The class has no [deleteMany]; its delete operation
    is [deleteOne], which removes at most one document: if
    [deleteOne(filter)] on a loaded collection returns [deletedCount = k]
    then [k <= 1], the documents map has exactly [k] entries fewer, and
    [countDocuments({})] immediately afterwards returns the previous
    total minus [k]. *)
Theorem deleteOne_removes_what_it_counts (filter : value) (c : Collection)
  (w : World) (r : deleteResult) (s' : State) :
  _loaded c = true ->
  deleteOne filter (c, w) = (Ok r, s') ->
  provides "deleteMany" = false /\
  provides "deleteOne" = true /\
  deletedCount r <= 1 /\
  List.length (keys (_documents (fst s'))) + deletedCount r
    = List.length (keys (_documents c)) /\
  countDocuments (VObj []) s'
    = (Ok (List.length (keys (_documents c)) - deletedCount r), s').
Proof.
  intros HL H. split; [reflexivity|]. split; [reflexivity|].
  assert (Hmain : deletedCount r <= 1 /\
            List.length (keys (_documents (fst s'))) + deletedCount r
              = List.length (keys (_documents c)) /\
            _loaded (fst s') = true).
  { rewrite deleteOne_blocks in H. cbv zeta in H.
    rewrite (run_loaded _ (c, w) HL) in H.
    unfold deleteByQuery, DocumentOperations.findAllDocuments,
      DocumentOperations.findByQuery in H.
    repeat returned;
      try match goal with
          | Hd : deleteById _ _ = (Ok _, _) |- _ =>
              eapply deleteById_counts in Hd; [exact Hd | cbn; assumption]
          end;
      cbn; auto with arith. }
  destruct Hmain as (Hk & Hlen & HL'). split; [exact Hk|]. split; [exact Hlen|].
  unfold countDocuments. rewrite (run_loaded _ s' HL').
  destruct s' as [c' w']; cbn in *.
  unfold DocumentOperations.countDocuments, bind, lift, this, ret; cbn.
  f_equal. f_equal. lia.
Qed.

End DeleteCounts.

(** C3 (as stated) fails on its first half: the class body declares no
    [deleteMany]. *)
Lemma deleteMany_is_not_provided :
  provides "deleteMany" = false /\ ~ In "deleteMany" methods.
Proof.
  split; [reflexivity|]. cbn. intuition discriminate.
Qed.

(** On the sample collection, [deleteOne({n: 2})] removes one document
    of two. *)
Lemma deleteOne_removes_what_it_counts_witness :
  let s := (Sample.loaded, Sample.outside) in
  let r := {| deletedCount := 1; deleteAcknowledged := true |} in
  let s' := snd (deleteOne (E := Engine.spec) (VObj [("n", VNum 2)]) s) in
  _loaded Sample.loaded = true /\
  deleteOne (E := Engine.spec) (VObj [("n", VNum 2)]) s = (Ok r, s') /\
  (provides "deleteMany" = false /\
   provides "deleteOne" = true /\
   deletedCount r <= 1 /\
   List.length (keys (_documents (fst s'))) + deletedCount r
     = List.length (keys (_documents Sample.loaded)) /\
   countDocuments (E := Engine.spec) (VObj []) s'
     = (Ok (List.length (keys (_documents Sample.loaded)) - deletedCount r),
        s')).
Proof.
  cbv zeta. split; [reflexivity|].
  assert (H : deleteOne (E := Engine.spec) (VObj [("n", VNum 2)])
                (Sample.loaded, Sample.outside)
              = (Ok {| deletedCount := 1; deleteAcknowledged := true |},
                 snd (deleteOne (E := Engine.spec) (VObj [("n", VNum 2)])
                        (Sample.loaded, Sample.outside))))
    by (vm_compute; reflexivity).
  split; [exact H|].
  exact (@deleteOne_removes_what_it_counts Engine.spec
           (VObj [("n", VNum 2)]) Sample.loaded Sample.outside _ _
           eq_refl H).
Defined.

(** ** C4: the document count *)


Lemma staysClean_refl s : staysClean s s.
Proof. intros H; exact H. Qed.

Lemma staysClean_trans s1 s2 s3 :
  staysClean s1 s2 -> staysClean s2 s3 -> staysClean s1 s3.
Proof. unfold staysClean; auto. Qed.

Lemma clean_assign f :
  (forall c, _loaded (f c) = _loaded c /\
             _collectionMetadata (f c) = _collectionMetadata c /\
             List.length (keys (_documents (f c)))
               = List.length (keys (_documents c))) ->
  steps staysClean (assign f).
Proof.
  intros Hf [c w] [HL HC]; unfold assign; cbn in *.
  destruct (Hf c) as (H1 & H2 & H3).
  split; cbn; [congruence|]. unfold countMatches in *. now rewrite H2, H3.
Qed.

Lemma clean_effect f : steps staysClean (effect f).
Proof. intros [c w] H; exact H. Qed.

Lemma clean_ensureLoaded : steps staysClean _ensureLoaded.
Proof. intros s [HL HC]. rewrite (ensureLoaded_loaded s HL). now split. Qed.

Lemma clean_markDirty : steps staysClean _markDirty.
Proof. apply clean_assign; intros c; cbn; auto. Qed.

(** [_updateMetadata({documentCount: size})] makes a loaded collection
    clean, whatever its count was and however the call ends. *)
Lemma updateMetadata_cleans s :
  _loaded (fst s) = true -> _collectionMetadata (fst s) <> None ->
  clean (snd (_updateMetadata
                (Some (List.length (keys (_documents (fst s))))) s)).
Proof.
  intros HL HM. unfold _updateMetadata. rewrite (run_loaded _ s HL).
  destruct s as [c w]; cbn in HL, HM |- *.
  unfold bind, this, world, assign, MasterIndex.updateCollectionMetadata,
    effect, throw, ret, bind; cbn.
  destruct (_collectionMetadata c) eqn:Hm; [|congruence]. cbn.
  destruct (masterIndex w) eqn:Hi; cbn; [rewrite Hi; cbn|];
    (split; [exact HL | unfold countMatches; cbn; reflexivity]).
Qed.

Lemma clean_updateMetadata_None : steps staysClean (_updateMetadata None).
Proof.
  intros s [HL HC]. unfold _updateMetadata. rewrite (run_loaded _ s HL).
  destruct s as [c w]; cbn in HL, HC |- *.
  unfold bind, this, world, assign, MasterIndex.updateCollectionMetadata,
    effect, throw, ret, bind; cbn.
  unfold countMatches in HC.
  destruct (_collectionMetadata c) eqn:Hm; [|contradiction]. cbn.
  destruct (masterIndex w) eqn:Hi; cbn; [rewrite Hi; cbn|];
    (split; [exact HL | unfold countMatches; cbn; exact HC]).
Qed.

Ltac clean_step :=
  match goal with
  | |- steps _ (bind _ _) => apply (steps_bind staysClean_trans)
  | |- steps _ (ret _) => apply (steps_ret staysClean staysClean_refl)
  | |- steps _ (throw _) => apply (steps_throw staysClean staysClean_refl)
  | |- steps _ (lift _) => apply (steps_lift staysClean staysClean_refl)
  | |- steps _ this => apply (steps_this staysClean staysClean_refl)
  | |- steps _ world => apply (steps_world staysClean staysClean_refl)
  | |- steps _ (effect _) => apply clean_effect
  | |- steps _ (assign _) =>
      apply clean_assign; intro;
      cbn [_loaded _collectionMetadata _documents with_documents with_dirty];
      rewrite ?obj_replace_length; auto
  | |- steps _ (if ?b then _ else _) => destruct b
  | |- steps _ (match ?x with _ => _ end) => destruct x
  | |- forall _, _ => intro
  end.

Create HintDb clean.
#[local] Hint Resolve clean_ensureLoaded clean_markDirty
  clean_updateMetadata_None : clean.

Ltac clean := repeat (solve [auto with clean] || clean_step).

Section CleanWithEngines.
Context {E : Engine.t}.

Lemma clean_idOf id : steps staysClean (DocumentOperations.idOf id).
Proof. unfold DocumentOperations.idOf; clean. Qed.
#[local] Hint Resolve clean_idOf : clean.

Lemma clean_findByQuery f : steps staysClean (DocumentOperations.findByQuery f).
Proof. unfold DocumentOperations.findByQuery; clean. Qed.

Lemma clean_findMultipleByQuery f :
  steps staysClean (DocumentOperations.findMultipleByQuery f).
Proof. unfold DocumentOperations.findMultipleByQuery; clean. Qed.

Lemma clean_findAllDocuments :
  steps staysClean DocumentOperations.findAllDocuments.
Proof. unfold DocumentOperations.findAllDocuments; clean. Qed.

Lemma clean_findDocumentById i :
  steps staysClean (DocumentOperations.findDocumentById i).
Proof. unfold DocumentOperations.findDocumentById; clean. Qed.

Lemma clean_replaced s k d :
  clean s -> clean (with_documents (obj_replace k d (_documents (fst s))) (fst s), snd s).
Proof.
  intros [HL HC]. split; [exact HL|]. unfold countMatches in *; cbn.
  now rewrite obj_replace_length.
Qed.

Lemma clean_replaceDocument i d :
  steps staysClean (DocumentOperations.replaceDocument i d).
Proof.
  intros s H. unfold DocumentOperations.replaceDocument,
    DocumentOperations.idOf.
  destruct i; try exact H. destruct d; try exact H.
  unfold bind, ret, throw, this, assign; cbn [fst snd].
  destruct (existsb is_operator_key (keys props)); [exact H|].
  destruct (match obj_get "_id" props with
            | Some v => negb (ObjectUtils.deepEqual v (VStr s0))
            | None => false
            end); [exact H|].
  destruct (obj_get s0 (_documents (fst s))); [|exact H].
  cbn [fst snd]. now apply clean_replaced.
Qed.

Lemma clean_updateDocument i d :
  steps staysClean (DocumentOperations.updateDocument i d).
Proof. apply clean_replaceDocument. Qed.

Lemma clean_updateDocumentWithOperators i u :
  steps staysClean (DocumentOperations.updateDocumentWithOperators i u).
Proof.
  intros s H. unfold DocumentOperations.updateDocumentWithOperators,
    DocumentOperations.idOf.
  destruct i; try exact H.
  unfold bind, ret, throw, this, assign, lift; cbn [fst snd].
  destruct (obj_get s0 (_documents (fst s))); [|exact H].
  destruct (Engine.applyOperators v u); [|exact H].
  cbn [fst snd]. now apply clean_replaced.
Qed.

#[local] Hint Resolve clean_findByQuery clean_findMultipleByQuery
  clean_findAllDocuments clean_findDocumentById clean_replaceDocument
  clean_updateDocument clean_updateDocumentWithOperators : clean.


Lemma clean_updateEach docs u n : steps staysClean (updateEach docs u n).
Proof.
  revert n; induction docs as [|d r IH]; intros n; cbn [updateEach]; clean.
Qed.
#[local] Hint Resolve clean_updateEach : clean.

(** The two calls that change the size of the map restore the count
    before they return, although the map and the count disagree in
    between. *)
Lemma recount_cleans {A} (k : M A) s :
  _loaded (fst s) = true -> _collectionMetadata (fst s) <> None ->
  steps staysClean k ->
  clean (snd ((c <- this ;;
               _updateMetadata (Some (List.length (keys (_documents c)))) ;;
               k) s)).
Proof.
  intros HL HM Hk. pose proof (updateMetadata_cleans s HL HM) as Hclean.
  unfold bind, this; cbn [fst snd].
  destruct (_updateMetadata _ s) as [[u|e] s2]; cbn [fst snd] in *.
  - now apply Hk.
  - exact Hclean.
Qed.

Lemma snd_bind_ret {A B} (m : M A) (b : B) s :
  snd ((m ;; ret b) s) = snd (m s).
Proof. unfold bind, ret; destruct (m s) as [[a|e] s']; reflexivity. Qed.

Lemma metadata_of_clean s : clean s -> _collectionMetadata (fst s) <> None.
Proof.
  intros [_ HC]. unfold countMatches in HC.
  destruct (_collectionMetadata (fst s)); [discriminate | contradiction].
Qed.

Lemma clean_deleteById id : steps staysClean (deleteById id).
Proof.
  intros s Hs. pose proof Hs as [HL HC]. unfold deleteById.
  unfold bind at 1.
  destruct (DocumentOperations.deleteDocument id s) as [[n|e] s1] eqn:Hdel.
  - apply deleteDocument_returned in Hdel as (Hn & Hlen & HL1 & HM1 & _).
    rewrite HL in HL1. rewrite snd_bind_ret.
    destruct (0 <? n)%nat eqn:Hpos.
    + apply recount_cleans; [exact HL1 | | apply clean_markDirty].
      rewrite HM1. now apply metadata_of_clean.
    + cbn. apply Nat.ltb_ge in Hpos. assert (n = 0) by lia; subst n.
      split; [exact HL1|]. unfold countMatches in *.
      rewrite HM1. destruct (_collectionMetadata (fst s)); [|contradiction].
      lia.
  - unfold DocumentOperations.deleteDocument, DocumentOperations.idOf in Hdel.
    destruct id; cbn in Hdel; inversion Hdel; subst; try exact Hs.
    unfold bind, ret, this, assign in H0; cbn in H0.
    destruct (obj_get s0 (_documents (fst s))); cbn in H0; discriminate.
Qed.
#[local] Hint Resolve clean_deleteById : clean.

Lemma insertDocument_frame doc s :
  let run := DocumentOperations.insertDocument doc s in
  _loaded (fst (snd run)) = _loaded (fst s) /\
  _collectionMetadata (fst (snd run)) = _collectionMetadata (fst s) /\
  (forall e, fst run = Err e ->
             _documents (fst (snd run)) = _documents (fst s)).
Proof.
  cbv zeta. destruct s as [c w]. unfold DocumentOperations.insertDocument.
  destruct doc as [ | | | | | | |props]; try (cbn; auto; fail).
  destruct (DocumentOperations.hasOperatorKeys (VObj props));
    [cbn; auto|].
  unfold DocumentOperations.generateId, bind, this, world, effect, assign,
    ret, throw; cbn [fst snd].
  destruct (obj_get "_id" props) as [v|].
  - destruct v as [ | | | |id| | |]; try (cbn; auto; fail).
    destruct (id =? EmptyString); [cbn; auto|]. cbn.
    destruct (obj_get id (_documents c)); cbn; auto.
    repeat split; intros; discriminate.
  - cbn. destruct (obj_get _ (_documents c)); cbn; auto.
    repeat split; intros; discriminate.
Qed.

Lemma clean_insertOne doc : steps staysClean (insertOne doc).
Proof.
  intros s Hs. pose proof Hs as [HL HC].
  unfold insertOne. rewrite (run_loaded _ s HL).
  pose proof (insertDocument_frame doc s) as (HL1 & HM1 & Hdocs).
  unfold bind at 1.
  destruct (DocumentOperations.insertDocument doc s) as [[d|e] s1];
    cbn [fst snd] in *.
  - apply recount_cleans.
    + congruence.
    + rewrite HM1. now apply metadata_of_clean.
    + clean.
  - split; [congruence|]. unfold countMatches in *.
    rewrite HM1, (Hdocs e eq_refl). exact HC.
Qed.
#[local] Hint Resolve clean_insertOne : clean.

(** C4.  Whenever the collection is clean (loaded, with
    [documentCount] equal to the number of entries of the documents
    map), it is clean again when a public operation returns or throws:
    insertOne and deleteOne set the count from the map before they
    return, the other operations change neither. *)
Theorem documentCount_matches_after_every_call (op : call) (s : State) :
  _loaded (fst s) = true -> countMatches (fst s) ->
  _loaded (fst (snd (perform op s))) = true /\
  countMatches (fst (snd (perform op s))).
Proof.
  intros HL HC. assert (H : steps staysClean (perform op)).
  { destruct op; cbn [perform].
    - clean.
    - unfold findOne; clean.
    - unfold find; clean.
    - unfold updateOne, _updateOneWithOperators, _updateOneWithReplacement;
        clean.
    - unfold updateMany; clean.
    - unfold replaceOne; clean.
    - rewrite deleteOne_blocks; cbv zeta; unfold deleteByQuery; clean.
    - unfold countDocuments, DocumentOperations.countByQuery,
        DocumentOperations.countDocuments; clean. }
  exact (H s (conj HL HC)).
Qed.

End CleanWithEngines.

(** The sample collection is clean, and stays so when a document is
    deleted. *)
Lemma documentCount_matches_after_every_call_witness :
  let s := (Sample.loaded, Sample.outside) in
  let op := DeleteOne (VObj [("_id", VStr "a")]) in
  _loaded (fst s) = true /\
  countMatches (fst s) /\
  (_loaded (fst (snd (perform (E := Engine.spec) op s))) = true /\
   countMatches (fst (snd (perform (E := Engine.spec) op s)))).
Proof.
  cbv zeta. split; [reflexivity|]. split; [reflexivity|].
  apply (@documentCount_matches_after_every_call Engine.spec
           (DeleteOne (VObj [("_id", VStr "a")]))
           (Sample.loaded, Sample.outside)); reflexivity.
Defined.

(** The invariant at the first load: a collection that loads a blob
    written by [save] from a clean collection is clean, and holds the
    documents that were saved. *)
Lemma metadata_round_trip nm fid m now0 :
  CollectionMetadata.new nm fid (CollectionMetadata.toJSON m) now0
  = Ok {| CollectionMetadata.name := nm;
          CollectionMetadata.fileId := fid;
          CollectionMetadata.created := CollectionMetadata.created m;
          CollectionMetadata.lastUpdated := CollectionMetadata.lastUpdated m;
          CollectionMetadata.documentCount :=
            CollectionMetadata.documentCount m;
          CollectionMetadata.modificationToken :=
            CollectionMetadata.modificationToken m |}.
Proof.
  unfold CollectionMetadata.new, CollectionMetadata.toJSON; cbn.
  destruct (Z.leb_spec 0 (Z.of_nat (CollectionMetadata.documentCount m)));
    [|lia].
  cbn. rewrite Nat2Z.id.
  destruct (CollectionMetadata.modificationToken m); reflexivity.
Qed.

Lemma loading_a_saved_blob_is_clean c w c0 m0 :
  _loaded c = false ->
  available w = true ->
  obj_get (_driveFileId c) (files w) = Some (blobOf c0 m0) ->
  CollectionMetadata.documentCount m0
    = List.length (keys (_documents c0)) ->
  fst (_ensureLoaded (c, w)) = Ok tt /\
  clean (snd (_ensureLoaded (c, w))) /\
  _documents (fst (snd (_ensureLoaded (c, w)))) = _documents c0.
Proof.
  intros HL Ha Hfile Hcount.
  assert (Hrun : exists c', _ensureLoaded (c, w)
                   = (Ok tt, (c', log (ReadFile (_driveFileId c)) w)) /\
                 _loaded c' = true /\ _documents c' = _documents c0 /\
                 option_map CollectionMetadata.documentCount
                   (_collectionMetadata c')
                 = Some (CollectionMetadata.documentCount m0)).
  { unfold _ensureLoaded, _loadData, rethrow, FileService.readFile, bind,
      this, world, effect, assign, throw, ret, lift.
    cbn -[CollectionMetadata.new CollectionMetadata.toJSON].
    rewrite HL. cbn -[CollectionMetadata.new CollectionMetadata.toJSON].
    rewrite Ha. cbn -[CollectionMetadata.new CollectionMetadata.toJSON].
    rewrite Hfile. unfold blobOf.
    cbn -[CollectionMetadata.new CollectionMetadata.toJSON].
    change (truthy (CollectionMetadata.toJSON m0)) with true.
    cbn -[CollectionMetadata.new CollectionMetadata.toJSON].
    rewrite metadata_round_trip. cbn.
    eexists; repeat split. }
  destruct Hrun as (c' & Hrun & HL' & Hdocs & Hm). rewrite Hrun.
  cbn [fst snd]. split; [reflexivity|]. split; [|exact Hdocs].
  split; [exact HL'|]. unfold countMatches. cbn [fst].
  destruct (_collectionMetadata c'); cbn in Hm; [|discriminate].
  inversion Hm. rewrite Hdocs. congruence.
Qed.

Example insertOne_recounts_sample :
  let s' := snd (insertOne (VObj [("n", VNum 3)])
                   (Sample.loaded, Sample.outside)) in
  List.length (keys (_documents (fst s'))) = 3 /\
  option_map CollectionMetadata.documentCount (_collectionMetadata (fst s'))
    = Some 3.
Proof. cbv zeta. split; vm_compute; reflexivity. Qed.

(** ** C5: the [{_id: "<string>"}] fast path *)

Lemma deepEqual_VStr v k :
  ObjectUtils.deepEqual v (VStr k) = true -> v = VStr k.
Proof.
  destruct v; cbn; try discriminate.
  intros H. apply String.eqb_eq in H. now subst.
Qed.

(** The reference engine evaluates [{_id: id}] by implicit equality on
    the document's [_id]. *)
Lemma matches_id_filter d k id :
  prop "_id" d = VStr k ->
  QueryEngine.matches d (VObj [("_id", VStr id)]) = Ok (k =? id).
Proof.
  intros H. destruct d; cbn in H; try discriminate.
  destruct (obj_get "_id" props) as [v|] eqn:Hget; [|discriminate]. subst v.
  unfold QueryEngine.matches; cbn.
  unfold QueryEngine.fieldPredicate; cbn.
  rewrite Hget; cbn.
  now rewrite orb_false_r, andb_true_r.
Qed.

Lemma stored_under_key docs id d :
  storedUnderId docs = true -> obj_get id docs = Some d ->
  prop "_id" d = VStr id.
Proof.
  induction docs as [|[k v] r IH]; cbn; [discriminate|].
  intros H Hget. apply andb_true_iff in H as [Hk Hr].
  destruct (k =? id) eqn:Heq.
  - apply String.eqb_eq in Heq; subst k. inversion Hget; subst v.
    now apply deepEqual_VStr.
  - now apply IH.
Qed.

Lemma findFirst_id_filter docs id :
  storedUnderId docs = true ->
  DocumentOperations.findFirst (E := Engine.spec) (values docs)
    (VObj [("_id", VStr id)]) = Ok (obj_get id docs).
Proof.
  induction docs as [|[k v] r IH]; cbn [values map snd obj_get
    DocumentOperations.findFirst storedUnderId forallb fst];
    [reflexivity|].
  intros H. apply andb_true_iff in H as [Hk Hr].
  apply deepEqual_VStr in Hk.
  cbn [Engine.matches Engine.spec].
  rewrite (matches_id_filter v id Hk). cbn [res_bind].
  destruct (k =? id); [reflexivity | now apply IH].
Qed.

(** C5.  A filter of exactly [{_id: "<string>"}] never reaches the
    engine: whichever engine is installed, [findOne] is the direct map
    lookup and [deleteOne] does the same as with any other engine.  On a
    collection whose documents are stored under their [_id] (the
    data-model invariant), the fast path of [findOne] returns the same
    document, and the fast path of [deleteOne] deletes the same document
    and returns the same result and state, as evaluating the filter
    through the QueryEngine path. *)
Theorem id_filter_fast_path_refines_query_path (id : string) (s : State) :
  storedUnderId (_documents (fst (snd (_ensureLoaded s)))) = true ->
  (forall E : Engine.t,
     findOne (E := E) (VObj [("_id", VStr id)]) s = findOneByLookup id s /\
     deleteOne (E := E) (VObj [("_id", VStr id)]) s
       = deleteOne (E := Engine.spec) (VObj [("_id", VStr id)]) s) /\
  findOne (E := Engine.spec) (VObj [("_id", VStr id)]) s
    = findOneByQuery (E := Engine.spec) (VObj [("_id", VStr id)]) s /\
  deleteOne (E := Engine.spec) (VObj [("_id", VStr id)]) s
    = deleteOneByQuery (E := Engine.spec) (VObj [("_id", VStr id)]) s.
Proof.
  intros Hwf. split; [|split].
  - intros E; split; reflexivity.
  - unfold findOne, findOneByQuery.
    cbn [defaultTo js_keys own_properties keys map fst List.length Nat.eqb
         isIdKeys nth_error andb String.eqb Ascii.eqb Bool.eqb prop obj_get].
    destruct (_ensureLoaded s) as [[u|e] s1] eqn:HL;
      [|now rewrite !(run_Err HL)].
    rewrite !(run_Ok HL). cbn [fst snd] in Hwf.
    destruct (_validateFilter _);
      [rewrite !bind_lift_Ok | now rewrite !bind_lift_Err].
    unfold DocumentOperations.findDocumentById, DocumentOperations.findByQuery,
      DocumentOperations.idOf, bind, ret, this, lift; cbn [fst snd].
    now rewrite (findFirst_id_filter _ id Hwf).
  - rewrite deleteOne_blocks; unfold deleteOneByQuery; cbv zeta.
    cbn [defaultTo js_keys own_properties keys map fst List.length Nat.eqb
         isIdKeys nth_error andb String.eqb Ascii.eqb Bool.eqb prop obj_get].
    destruct (_ensureLoaded s) as [[u|e] s1] eqn:HL;
      [|now rewrite !(run_Err HL)].
    rewrite !(run_Ok HL). cbn [fst snd] in Hwf.
    destruct (_validateFilter _);
      [rewrite !bind_lift_Ok | now rewrite !bind_lift_Err].
    unfold deleteByQuery.
    assert (Hfind : DocumentOperations.findByQuery (E := Engine.spec)
                      (VObj [("_id", VStr id)]) s1
                    = (Ok (obj_get id (_documents (fst s1))), s1)).
    { unfold DocumentOperations.findByQuery, bind, this, lift; cbn [fst snd].
      now rewrite (findFirst_id_filter _ id Hwf). }
    rewrite (run_Ok Hfind).
    destruct (obj_get id (_documents (fst s1))) as [d|] eqn:Hget.
    + now rewrite (stored_under_key _ _ Hwf Hget).
    + unfold deleteById, DocumentOperations.deleteDocument,
        DocumentOperations.idOf, bind, ret, this; cbn [fst snd].
      rewrite Hget. reflexivity.
Qed.

(** The sample blob stores its documents under their [_id]. *)
Lemma id_filter_fast_path_refines_query_path_witness :
  let s := (Sample.fresh, Sample.outside) in
  let f := VObj [("_id", VStr "b")] in
  storedUnderId (_documents (fst (snd (_ensureLoaded s)))) = true /\
  ((forall E : Engine.t,
      findOne (E := E) f s = findOneByLookup "b" s /\
      deleteOne (E := E) f s = deleteOne (E := Engine.spec) f s) /\
   findOne (E := Engine.spec) f s = findOneByQuery (E := Engine.spec) f s /\
   deleteOne (E := Engine.spec) f s
     = deleteOneByQuery (E := Engine.spec) f s).
Proof.
  cbv zeta. split; [vm_compute; reflexivity|].
  apply (@id_filter_fast_path_refines_query_path "b"
           (Sample.fresh, Sample.outside)).
  vm_compute; reflexivity.
Defined.

Example id_filter_on_sample :
  fst (findOne (E := Engine.spec) (VObj [("_id", VStr "b")])
         (Sample.fresh, Sample.outside)) = Ok (Some Sample.ben) /\
  fst (findOneByQuery (E := Engine.spec) (VObj [("_id", VStr "b")])
         (Sample.fresh, Sample.outside)) = Ok (Some Sample.ben) /\
  _documents (fst (snd (deleteOne (E := Engine.spec)
                          (VObj [("_id", VStr "b")])
                          (Sample.fresh, Sample.outside))))
    = [("a", Sample.anna)].
Proof. repeat split; vm_compute; reflexivity. Qed.

(** ** C6: the empty filter *)

Lemma findAll_empty_filter docs :
  DocumentOperations.findAll (E := Engine.spec) docs (VObj []) = Ok docs.
Proof.
  induction docs as [|d r IH]; cbn; [reflexivity|]. cbn in IH. now rewrite IH.
Qed.

(** The first use of an instance (lines 67-72 and 79-108): the blob on
    the collection's file is read once, its [documents] object - [{}]
    when the blob has none - becomes the documents map, and the metadata
    is built from its [metadata]. *)
Lemma first_load_run c w data docs m :
  _loaded c = false ->
  available w = true ->
  obj_get (_driveFileId c) (files w) = Some data ->
  truthy data = true -> typeof_object data = true ->
  (if truthy (prop "documents" data) then prop "documents" data
   else VObj []) = VObj docs ->
  CollectionMetadata.new (_name c) (_driveFileId c)
    (if truthy (prop "metadata" data) then prop "metadata" data
     else VObj []) (now w) = Ok m ->
  _ensureLoaded (c, w)
  = (Ok tt, (loadedWith docs m c, log (ReadFile (_driveFileId c)) w)).
Proof.
  intros HL Ha Hfile Ht Ho Hdocs Hm.
  unfold _ensureLoaded, _loadData, rethrow, FileService.readFile, bind,
    this, world, effect, assign, throw, ret, lift.
  cbn -[CollectionMetadata.new prop truthy typeof_object].
  rewrite HL. cbn -[CollectionMetadata.new prop truthy typeof_object].
  rewrite Ha. cbn -[CollectionMetadata.new prop truthy typeof_object].
  rewrite Hfile. cbn -[CollectionMetadata.new prop truthy typeof_object].
  rewrite Ht, Ho, Hdocs.
  cbn -[CollectionMetadata.new prop truthy typeof_object].
  rewrite Hm. reflexivity.
Qed.

Lemma empty_filter_when_loaded {E : Engine.t} c w :
  _loaded c = true ->
  find (VObj []) (c, w)
    = (Ok (values (_documents c)), (c, w)) /\
  countDocuments (VObj []) (c, w)
    = (Ok (List.length (values (_documents c))), (c, w)).
Proof.
  intros HL. unfold find, countDocuments.
  rewrite !(run_loaded _ (c, w) HL). split; [reflexivity|].
  cbn. unfold DocumentOperations.countDocuments, bind, this, ret; cbn.
  unfold keys, values. now rewrite !length_map.
Qed.

(** C6.  With the empty filter, whichever engine is installed: [find]
    and [countDocuments] are the load followed by the enumeration of the
    documents map (its values, the number of its keys).  So on a loaded
    collection [find] returns all the documents the collection holds and
    [countDocuments] their number, and the state is as before; and on
    the first use of an instance, whose blob holds the documents object
    [docs] ([{}] when the blob has none), they return the documents of
    the blob and their number, and leave the instance loaded with [docs]
    after one read of the blob.
    The reference QueryEngine matches every document against [{}], so
    that selecting with [{}] through the engine returns every document
    as well. *)
Theorem empty_filter_selects_everything :
  (forall (E : Engine.t) (s : State),
     find (VObj []) s
     = (_ensureLoaded ;; c <- this ;; ret (values (_documents c))) s /\
     countDocuments (VObj []) s
     = (_ensureLoaded ;; c <- this ;;
        ret (List.length (keys (_documents c)))) s) /\
  (forall (E : Engine.t) (c : Collection) (w : World),
     _loaded c = true ->
     find (VObj []) (c, w) = (Ok (values (_documents c)), (c, w)) /\
     countDocuments (VObj []) (c, w)
     = (Ok (List.length (values (_documents c))), (c, w))) /\
  (forall (E : Engine.t) (c : Collection) (w : World) (data : value)
          (docs : object) (m : CollectionMetadata.t),
     _loaded c = false ->
     available w = true ->
     obj_get (_driveFileId c) (files w) = Some data ->
     truthy data = true -> typeof_object data = true ->
     (if truthy (prop "documents" data) then prop "documents" data
      else VObj []) = VObj docs ->
     CollectionMetadata.new (_name c) (_driveFileId c)
       (if truthy (prop "metadata" data) then prop "metadata" data
        else VObj []) (now w) = Ok m ->
     let s1 := (loadedWith docs m c, log (ReadFile (_driveFileId c)) w) in
     find (VObj []) (c, w) = (Ok (values docs), s1) /\
     countDocuments (VObj []) (c, w)
     = (Ok (List.length (values docs)), s1)) /\
  (forall d, QueryEngine.matches d (VObj []) = Ok true) /\
  (forall docs,
     DocumentOperations.findAll (E := Engine.spec) docs (VObj []) = Ok docs).
Proof.
  split; [|split; [|split; [|split]]].
  - intros E s; split; reflexivity.
  - intros E c w HL. exact (empty_filter_when_loaded c w HL).
  - intros E c w data docs m HL Ha Hfile Ht Ho Hdocs Hm s1.
    pose proof (first_load_run c w HL Ha Hfile Ht Ho Hdocs Hm) as Hrun.
    unfold find, countDocuments. cbv zeta.
    rewrite !(run_Ok Hrun). split; [reflexivity|].
    cbn. unfold DocumentOperations.countDocuments, bind, this, ret; cbn.
    unfold keys, values. now rewrite !length_map.
  - intros d. reflexivity.
  - exact findAll_empty_filter.
Qed.

(** The first call on the instance of the sample collection: the two
    documents of its blob, in the order of the blob. *)
Lemma empty_filter_selects_everything_witness :
  let s1 := (loadedWith [("a", Sample.anna); ("b", Sample.ben)]
               (reloaded "people" "file-1" Sample.metadata) Sample.fresh,
             log (ReadFile "file-1") Sample.outside) in
  _loaded Sample.fresh = false /\
  available Sample.outside = true /\
  obj_get (_driveFileId Sample.fresh) (files Sample.outside)
  = Some Sample.blob /\
  prop "documents" Sample.blob
  = VObj [("a", Sample.anna); ("b", Sample.ben)] /\
  find (E := Engine.spec) (VObj []) (Sample.fresh, Sample.outside)
  = (Ok [Sample.anna; Sample.ben], s1) /\
  countDocuments (E := Engine.spec) (VObj []) (Sample.fresh, Sample.outside)
  = (Ok 2, s1).
Proof.
  intros s1. do 4 (split; [reflexivity|]).
  exact (proj1 (proj2 (proj2 empty_filter_selects_everything))
           Engine.spec Sample.fresh Sample.outside Sample.blob
           [("a", Sample.anna); ("b", Sample.ben)]
           (reloaded "people" "file-1" Sample.metadata)
           eq_refl eq_refl eq_refl eq_refl eq_refl eq_refl eq_refl).
Defined.

Example empty_filter_on_sample :
  find (E := Engine.spec) (VObj []) (Sample.fresh, Sample.outside)
  = (Ok [Sample.anna; Sample.ben],
     (Sample.loaded, log (ReadFile "file-1") Sample.outside)) /\
  fst (countDocuments (E := Engine.spec) VUndefined
         (Sample.loaded, Sample.outside)) = Ok 2.
Proof. split; vm_compute; reflexivity. Qed.

(** ** C7: a call that matches nothing *)

Section Selection.
Context {E : Engine.t}.


End Selection.


(** A validated filter that takes the ID branch is [{_id: "<string>"}]. *)
Lemma validated_id_filter f u :
  _validateFilter f = Ok u -> isIdKeys (js_keys f) = true ->
  exists id, f = VObj [("_id", VStr id)].
Proof.
  unfold _validateFilter. destruct f; cbn; try discriminate.
  destruct props as [|[k v] [|kv r]]; cbn; try discriminate.
  intros HV Hk. unfold isIdKeys in Hk; cbn in Hk.
  apply String.eqb_eq in Hk; subst k. cbn in HV.
  destruct v; cbn in HV; try discriminate. now exists s.
Qed.









Section NoMatch.
Variable s : State.
Variable filter : value.
Hypothesis stored : storedUnderId (_documents (fst s)) = true.
Hypothesis none :
  DocumentOperations.findAll (E := Engine.spec)
    (values (_documents (fst s))) filter = Ok [].




End NoMatch.





Example no_match_on_sample :
  perform (E := Engine.spec) (UpdateMany (VObj [("n", VNum 9)]) Sample.setN5)
    (Sample.loaded, Sample.outside)
  = (Ok (Updated noUpdate), (Sample.loaded, Sample.outside)) /\
  perform (E := Engine.spec) (DeleteOne (VObj [("_id", VStr "zed")]))
    (Sample.loaded, Sample.outside)
  = (Ok (Deleted noDelete), (Sample.loaded, Sample.outside)) /\
  perform (E := Engine.spec) (ReplaceOne (VStr "zed") (VObj [("n", VNum 9)]))
    (Sample.loaded, Sample.outside)
  = (Ok (Updated noUpdate), (Sample.loaded, Sample.outside)).
Proof. repeat split; vm_compute; reflexivity. Qed.

(** ** C8: calls with invalid arguments *)

Lemma object_error v b e : Validate.object v b = Err e -> e = InvalidArgument.
Proof.
  destruct v; cbn; try (now inversion 1).
  destruct (negb b && _); now inversion 1.
Qed.

Lemma nonEmptyString_error v e :
  Validate.nonEmptyString v = Err e -> e = InvalidArgument.
Proof.
  destruct v; cbn; try (now inversion 1).
  destruct (s =? EmptyString); now inversion 1.
Qed.

Lemma validateUpdateObject_error v o e :
  Validate.validateUpdateObject v o = Err e -> e = InvalidArgument.
Proof.
  destruct v; cbn; try (now inversion 1).
  repeat match goal with
         | |- (if ?b then _ else _) = _ -> _ => destruct b
         end; now inversion 1.
Qed.

Lemma validateFilter_error f e : _validateFilter f = Err e -> e = InvalidArgument.
Proof.
  unfold _validateFilter.
  destruct (Validate.object f true) eqn:H; cbn.
  - destruct (existsb _ _); [apply nonEmptyString_error | discriminate].
  - intros H1; inversion H1; subst. eapply object_error; eassumption.
Qed.

Lemma bind_bind {A B C} (m : M A) (k : A -> M B) (g : B -> M C) s :
  bind (bind m k) g s = bind m (fun a => bind (k a) g) s.
Proof. unfold bind. destruct (m s) as [[a|e] s1]; reflexivity. Qed.

(** What loading may do: nothing outside but one read of the blob, and
    nothing to the dirty flag. *)
Lemma ensureLoaded_run_effects s r s' :
  _ensureLoaded s = (r, s') ->
  _dirty (fst s') = _dirty (fst s) /\
  files (snd s') = files (snd s) /\
  masterIndex (snd s') = masterIndex (snd s) /\
  (trace (snd s') = trace (snd s) \/
   trace (snd s')
     = (trace (snd s) ++ [ReadFile (_driveFileId (fst s))])%list).
Proof.
  destruct s as [c w].
  unfold _ensureLoaded, _loadData, rethrow, FileService.readFile, bind, this,
    world, effect, assign, throw, ret, lift.
  cbn -[CollectionMetadata.new prop truthy typeof_object own_properties obj_get].
  destruct (_loaded c);
    cbn -[CollectionMetadata.new prop truthy typeof_object own_properties
          obj_get];
    [intros H; inversion H; subst; cbn; auto|].
  destruct (available w);
    cbn -[CollectionMetadata.new prop truthy typeof_object own_properties
          obj_get];
    [|intros H; inversion H; subst; cbn; auto 6].
  destruct (obj_get (_driveFileId c) (files w)) as [data|];
    cbn -[CollectionMetadata.new prop truthy typeof_object own_properties
          obj_get];
    [|intros H; inversion H; subst; cbn; auto 6].
  destruct (negb (truthy data) || negb (typeof_object data));
    cbn -[CollectionMetadata.new prop truthy typeof_object own_properties
          obj_get];
    [intros H; inversion H; subst; cbn; auto 6|].
  match goal with
  | |- context [CollectionMetadata.new ?a ?b ?c ?d] =>
      destruct (CollectionMetadata.new a b c d)
  end; cbn; intros H; inversion H; subst; cbn; auto 6.
Qed.

Lemma ensureLoaded_effects s :
  let s' := snd (_ensureLoaded s) in
  _dirty (fst s') = _dirty (fst s) /\
  files (snd s') = files (snd s) /\
  masterIndex (snd s') = masterIndex (snd s) /\
  (trace (snd s') = trace (snd s) \/
   trace (snd s')
     = (trace (snd s) ++ [ReadFile (_driveFileId (fst s))])%list).
Proof.
  cbv zeta. destruct (_ensureLoaded s) as [r s'] eqn:H.
  exact (ensureLoaded_run_effects s H).
Qed.

Section InvalidWithEngines.
Context {E : Engine.t}.

Lemma invalid_call_throws (op : call) (s : State) :
  invalidArguments op = true ->
  perform op s = (_ensureLoaded ;; throw InvalidArgument) s.
Proof.
  intros H.
  destruct op as [d|f|f|f u|f u|f d|f|f]; cbn [perform invalidArguments] in *.
  - unfold insertOne. rewrite bind_bind.
    destruct (_ensureLoaded s) as [[x|e] s1] eqn:HL;
      [rewrite !(run_Ok HL) | now rewrite !(run_Err HL)].
    destruct d; try discriminate H; reflexivity.
  - unfold findOne. rewrite bind_bind.
    destruct (_ensureLoaded s) as [[x|e] s1] eqn:HL;
      [rewrite !(run_Ok HL) | now rewrite !(run_Err HL)].
    destruct (_validateFilter _) eqn:HV; [discriminate H|].
    apply validateFilter_error in HV; subst. reflexivity.
  - unfold find. rewrite bind_bind.
    destruct (_ensureLoaded s) as [[x|e] s1] eqn:HL;
      [rewrite !(run_Ok HL) | now rewrite !(run_Err HL)].
    destruct (_validateFilter _) eqn:HV; [discriminate H|].
    apply validateFilter_error in HV; subst. reflexivity.
  - unfold updateOne. rewrite bind_bind.
    destruct (_ensureLoaded s) as [[x|e] s1] eqn:HL;
      [rewrite !(run_Ok HL) | now rewrite !(run_Err HL)].
    destruct (Validate.object u false) eqn:H1;
      [|apply object_error in H1; subst; reflexivity].
    destruct (typeof_string f); cbn [negb andb orb fails] in H.
    + destruct (Validate.validateUpdateObject u Validate.noOptions) eqn:H3;
        [discriminate H|].
      apply validateUpdateObject_error in H3; subst. reflexivity.
    + destruct (_validateFilter f) eqn:H2;
        [|apply validateFilter_error in H2; subst; reflexivity].
      destruct (Validate.validateUpdateObject u Validate.noOptions) eqn:H3;
        [discriminate H|].
      apply validateUpdateObject_error in H3; subst. reflexivity.
  - unfold updateMany. rewrite bind_bind.
    destruct (_ensureLoaded s) as [[x|e] s1] eqn:HL;
      [rewrite !(run_Ok HL) | now rewrite !(run_Err HL)].
    destruct (_validateFilter f) eqn:H1;
      [|apply validateFilter_error in H1; subst; reflexivity].
    destruct (Validate.object u false) eqn:H2;
      [|apply object_error in H2; subst; reflexivity].
    destruct (Validate.validateUpdateObject u _) eqn:H3;
      [discriminate H|].
    apply validateUpdateObject_error in H3; subst. reflexivity.
  - unfold replaceOne. rewrite bind_bind.
    destruct (_ensureLoaded s) as [[x|e] s1] eqn:HL;
      [rewrite !(run_Ok HL) | now rewrite !(run_Err HL)].
    destruct (Validate.object d false) eqn:H1;
      [|apply object_error in H1; subst; reflexivity].
    destruct (Validate.validateUpdateObject d _) eqn:H2;
      [|apply validateUpdateObject_error in H2; subst; reflexivity].
    destruct (typeof_string f); cbn [negb andb orb fails] in H;
      [discriminate H|].
    destruct (_validateFilter f) eqn:H3; [discriminate H|].
    apply validateFilter_error in H3; subst. reflexivity.
  - rewrite deleteOne_blocks. cbv zeta. rewrite bind_bind.
    destruct (_ensureLoaded s) as [[x|e] s1] eqn:HL;
      [rewrite !(run_Ok HL) | now rewrite !(run_Err HL)].
    destruct (_validateFilter _) eqn:HV; [discriminate H|].
    apply validateFilter_error in HV; subst. reflexivity.
  - unfold countDocuments. rewrite bind_bind.
    destruct (_ensureLoaded s) as [[x|e] s1] eqn:HL;
      [rewrite !(run_Ok HL) | now rewrite !(run_Err HL)].
    destruct (_validateFilter _) eqn:HV; [discriminate H|].
    apply validateFilter_error in HV; subst. reflexivity.
Qed.

(** C8 (amended).  A public method called with an invalid argument does
    what the lazy load does and then throws: on a collection that is
    already loaded it throws InvalidArgument and changes nothing at all;
    on one that is not, the blob is first read through FileService (one
    read, which sets documents and metadata) and a failing load throws
    instead.  In either case nothing is written: blob store, master
    index and dirty flag stay as they were. *)
Theorem invalid_call_loads_then_throws (op : call) (s : State) :
  invalidArguments op = true ->
  perform op s = (_ensureLoaded ;; throw InvalidArgument) s /\
  (_loaded (fst s) = true -> perform op s = (Err InvalidArgument, s)) /\
  (exists e, fst (perform op s) = Err e) /\
  _dirty (fst (snd (perform op s))) = _dirty (fst s) /\
  files (snd (snd (perform op s))) = files (snd s) /\
  masterIndex (snd (snd (perform op s))) = masterIndex (snd s) /\
  (trace (snd (snd (perform op s))) = trace (snd s) \/
   trace (snd (snd (perform op s)))
     = (trace (snd s) ++ [ReadFile (_driveFileId (fst s))])%list).
Proof.
  intros H. pose proof (invalid_call_throws op s H) as Hrun.
  split; [exact Hrun|]. rewrite Hrun. split; [|split].
  - intros HL. now rewrite (run_loaded _ s HL).
  - unfold bind, throw. destruct (_ensureLoaded s) as [[u|e] s1];
      eexists; reflexivity.
  - pose proof (ensureLoaded_effects s) as Heff. cbv zeta in Heff.
    unfold bind, throw. destruct (_ensureLoaded s) as [[u|e] s1];
      exact Heff.
Qed.

End InvalidWithEngines.

(** An empty update object is an invalid argument of [updateOne]. *)
Lemma invalid_call_loads_then_throws_witness :
  let op := UpdateOne (VObj [("_id", VStr "a")]) (VObj []) in
  let s := (Sample.loaded, Sample.outside) in
  invalidArguments op = true /\
  (perform (E := Engine.spec) op s
     = (_ensureLoaded ;; throw InvalidArgument) s /\
   (_loaded (fst s) = true ->
    perform (E := Engine.spec) op s = (Err InvalidArgument, s)) /\
   (exists e, fst (perform (E := Engine.spec) op s) = Err e) /\
   _dirty (fst (snd (perform (E := Engine.spec) op s))) = _dirty (fst s) /\
   files (snd (snd (perform (E := Engine.spec) op s))) = files (snd s) /\
   masterIndex (snd (snd (perform (E := Engine.spec) op s)))
     = masterIndex (snd s) /\
   (trace (snd (snd (perform (E := Engine.spec) op s))) = trace (snd s) \/
    trace (snd (snd (perform (E := Engine.spec) op s)))
      = (trace (snd s) ++ [ReadFile (_driveFileId (fst s))])%list)).
Proof.
  cbv zeta. split; [reflexivity|].
  apply (@invalid_call_loads_then_throws Engine.spec
           (UpdateOne (VObj [("_id", VStr "a")]) (VObj []))
           (Sample.loaded, Sample.outside)).
  reflexivity.
Defined.

(** C8 (as stated) fails: [findOne({_id: 5})] on the collection as the
    constructor left it throws InvalidArgument only after the blob was
    read through FileService and its documents and metadata were
    installed. *)
Lemma invalid_filter_still_loads_the_blob :
  let run := findOne (E := Engine.spec) (VObj [("_id", VNum 5)])
               (Sample.fresh, Sample.outside) in
  fst run = Err InvalidArgument /\
  trace (snd (snd run)) = [ReadFile "file-1"] /\
  _documents (fst (snd run)) = [("a", Sample.anna); ("b", Sample.ben)] /\
  _documents Sample.fresh = [] /\
  _collectionMetadata (fst (snd run)) = Some Sample.metadata /\
  _collectionMetadata Sample.fresh = None.
Proof. cbv zeta. repeat split; vm_compute; reflexivity. Qed.

(** ** C9: [deleteOne] with the empty filter *)

Section EmptyFilterDelete.
Context {E : Engine.t}.








End EmptyFilterDelete.


Example deleteOne_empty_filter_on_empty :
  deleteOne (E := Engine.spec) VUndefined
    (with_documents [] Sample.loaded, Sample.outside)
  = (Ok {| deletedCount := 0; deleteAcknowledged := true |},
     (with_documents [] Sample.loaded, Sample.outside)).
Proof. vm_compute; reflexivity. Qed.

(** ** C10: [save] *)

Lemma list_not_longer {A} (l : list A) x : l <> (l ++ [x])%list.
Proof.
  intros H. apply (f_equal (@List.length A)) in H.
  rewrite length_app in H. cbn in H. lia.
Qed.

(** C10.  [save()] hands the blob - the documents and the metadata - to
    FileService if and only if the collection is both loaded and dirty
    (a loaded collection has its metadata).  Otherwise it does nothing at
    all.  A save that succeeds after writing leaves the dirty flag
    false, and saving again right after any successful save performs no
    write and changes nothing. *)
Theorem save_writes_iff_loaded_and_dirty (c : Collection) (w : World) :
  (_loaded c = true -> _collectionMetadata c <> None) ->
  ((exists data,
      trace (snd (snd (save (c, w))))
        = (trace w ++ [WriteFile (_driveFileId c) data])%list)
   <-> _loaded c && _dirty c = true) /\
  (_loaded c && _dirty c = false -> save (c, w) = (Ok tt, (c, w))) /\
  (forall m,
     _loaded c && _dirty c = true -> _collectionMetadata c = Some m ->
     trace (snd (snd (save (c, w))))
       = (trace w ++ [WriteFile (_driveFileId c) (blobOf c m)])%list /\
     (available w = true ->
      fst (save (c, w)) = Ok tt /\
      _dirty (fst (snd (save (c, w)))) = false /\
      obj_get (_driveFileId c) (files (snd (snd (save (c, w)))))
        = Some (blobOf c m))) /\
  (forall u s', save (c, w) = (Ok u, s') -> save s' = (Ok tt, s')).
Proof.
  intros Hwf.
  assert (Hclean : _loaded c && _dirty c = false ->
                   save (c, w) = (Ok tt, (c, w))).
  { intros H. unfold save, bind, this; cbn. now rewrite H. }
  assert (Hdirty : forall m,
            _loaded c && _dirty c = true -> _collectionMetadata c = Some m ->
            save (c, w)
            = if available w
              then (Ok tt,
                    (with_dirty false c,
                     with_files
                       (obj_set (_driveFileId c) (blobOf c m) (files w))
                       (log (WriteFile (_driveFileId c) (blobOf c m)) w)))
              else (Err OperationError,
                    (c, log (WriteFile (_driveFileId c) (blobOf c m)) w))).
  { intros m H Hm. unfold save, bind at 1, this; cbn [fst snd]. rewrite H.
    unfold _saveData, rethrow, bind at 1, this; cbn [fst snd]. rewrite Hm.
    unfold FileService.writeFile, bind, effect, world, assign, throw;
      cbn [fst snd log available].
    destruct (available w); reflexivity. }
  split; [|split; [exact Hclean|split]].
  - split.
    + intros [data Hdata].
      destruct (_loaded c && _dirty c) eqn:H; [reflexivity|].
      rewrite (Hclean eq_refl) in Hdata. cbn in Hdata.
      now apply list_not_longer in Hdata.
    + intros H. assert (HL : _loaded c = true)
        by (now apply andb_true_iff in H).
      destruct (_collectionMetadata c) as [m|] eqn:Hm;
        [|now destruct (Hwf HL)].
      exists (blobOf c m). rewrite (Hdirty m H eq_refl).
      destruct (available w); reflexivity.
  - intros m H Hm. rewrite (Hdirty m H Hm). split.
    + destruct (available w); reflexivity.
    + intros Ha. rewrite Ha. cbn. repeat split.
      apply obj_get_set.
  - intros u s' Hrun.
    destruct (_loaded c && _dirty c) eqn:H.
    + assert (HL : _loaded c = true) by (now apply andb_true_iff in H).
      destruct (_collectionMetadata c) as [m|] eqn:Hm;
        [|now destruct (Hwf HL)].
      rewrite (Hdirty m eq_refl eq_refl) in Hrun.
      destruct (available w); inversion Hrun; subst.
      unfold save, bind, this; cbn. now rewrite andb_false_r.
    + rewrite (Hclean eq_refl) in Hrun. inversion Hrun; subst.
      now apply Hclean.
Qed.

(** The sample collection, once dirty, is written by [save]. *)
Lemma save_writes_iff_loaded_and_dirty_witness :
  let c := with_dirty true Sample.loaded in
  let w := Sample.outside in
  (_loaded c = true -> _collectionMetadata c <> None) /\
  _loaded c && _dirty c = true /\
  _collectionMetadata c = Some Sample.metadata /\
  available w = true /\
  (trace (snd (snd (save (c, w))))
     = (trace w ++ [WriteFile (_driveFileId c) (blobOf c Sample.metadata)])%list
   /\ fst (save (c, w)) = Ok tt
   /\ _dirty (fst (snd (save (c, w)))) = false
   /\ obj_get (_driveFileId c) (files (snd (snd (save (c, w)))))
        = Some (blobOf c Sample.metadata)).
Proof.
  cbv zeta.
  assert (Hwf : _loaded (with_dirty true Sample.loaded) = true ->
                _collectionMetadata (with_dirty true Sample.loaded) <> None)
    by (intros _; discriminate).
  split; [exact Hwf|]. do 3 (split; [reflexivity|]).
  destruct (proj1 (proj2 (proj2
    (@save_writes_iff_loaded_and_dirty (with_dirty true Sample.loaded)
       Sample.outside Hwf))) Sample.metadata eq_refl eq_refl) as [Ht Hs].
  split; [exact Ht | exact (Hs eq_refl)].
Defined.

Example save_twice_on_sample :
  let s1 := snd (save (with_dirty true Sample.loaded, Sample.outside)) in
  trace (snd s1) = [WriteFile "file-1" (blobOf Sample.loaded Sample.metadata)]
  /\ save s1 = (Ok tt, s1)
  /\ save (Sample.fresh, Sample.outside)
       = (Ok tt, (Sample.fresh, Sample.outside)).
Proof. cbv zeta. repeat split; vm_compute; reflexivity. Qed.

(* ================================================================== *)
(** * Further properties of the class *)

(** One step of a proof that a computation keeps a reflexive and
    transitive relation between the states before and after. *)
Ltac frame_step refl trans :=
  match goal with
  | |- steps _ (bind _ _) => apply (steps_bind trans)
  | |- steps ?R (ret _) => apply (steps_ret R refl)
  | |- steps ?R (throw _) => apply (steps_throw R refl)
  | |- steps ?R (lift _) => apply (steps_lift R refl)
  | |- steps ?R this => apply (steps_this R refl)
  | |- steps ?R world => apply (steps_world R refl)
  | |- steps _ (rethrow _ _) => apply steps_rethrow
  | |- steps _ (if ?b then _ else _) => destruct b
  | |- steps _ (match ?x with _ => _ end) => destruct x
  | |- forall _, _ => intro
  end.

Lemma emitted_nil s s' : trace (snd s') = trace (snd s) -> emitted s s' [].
Proof. intros H; unfold emitted; now rewrite app_nil_r. Qed.

Lemma emitted_app s1 s2 s3 e1 e2 :
  emitted s1 s2 e1 -> emitted s2 s3 e2 -> emitted s1 s3 (e1 ++ e2)%list.
Proof. unfold emitted; intros H1 H2. now rewrite H2, H1, app_assoc. Qed.

(** ** Lazy loading happens once *)

Lemma readsNothing_refl s : readsNothing s s.
Proof.
  intros H; split; [exact H|]. exists []; split; [now apply emitted_nil|reflexivity].
Qed.

Lemma readsNothing_trans s1 s2 s3 :
  readsNothing s1 s2 -> readsNothing s2 s3 -> readsNothing s1 s3.
Proof.
  intros H12 H23 H1. destruct (H12 H1) as (H2 & e1 & He1 & Q1).
  destruct (H23 H2) as (H3 & e2 & He2 & Q2). split; [exact H3|].
  exists (e1 ++ e2)%list; split; [eapply emitted_app; eassumption|].
  now rewrite forallb_app, Q1, Q2.
Qed.

Lemma noread_assign f :
  (forall c, _loaded c = true -> _loaded (f c) = true) ->
  steps readsNothing (assign f).
Proof.
  intros Hf [c w] H; cbn in *. split; [now apply Hf|].
  exists []; split; [now apply emitted_nil | reflexivity].
Qed.

Lemma noread_effect f :
  (forall w, trace (f w) = trace w) -> steps readsNothing (effect f).
Proof.
  intros Hf [c w] H; cbn in *. split; [exact H|].
  exists []; split; [apply emitted_nil; cbn; apply Hf | reflexivity].
Qed.

Lemma noread_log e : isRead e = false -> steps readsNothing (effect (log e)).
Proof.
  intros He [c w] H; cbn in *. split; [exact H|].
  exists [e]; split; [reflexivity | cbn; now rewrite He].
Qed.

Lemma noread_ensureLoaded : steps readsNothing _ensureLoaded.
Proof.
  intros s H. rewrite (ensureLoaded_loaded s H). now apply readsNothing_refl.
Qed.

Create HintDb noread.
#[local] Hint Resolve noread_ensureLoaded : noread.

Ltac noread_step :=
  match goal with
  | |- steps _ (assign _) =>
      apply noread_assign; let H := fresh in intros ? H; cbn; try exact H;
      reflexivity
  | |- steps _ (effect (log _)) => apply noread_log; reflexivity
  | |- steps _ (effect _) => apply noread_effect; reflexivity
  end.

Ltac noread :=
  repeat (solve [auto with noread] || noread_step
          || frame_step readsNothing_refl readsNothing_trans).

Lemma noread_updateMetadata x : steps readsNothing (_updateMetadata x).
Proof.
  unfold _updateMetadata, MasterIndex.updateCollectionMetadata; noread.
Qed.

Lemma noread_markDirty : steps readsNothing _markDirty.
Proof. unfold _markDirty; noread. Qed.

Lemma noread_save : steps readsNothing save.
Proof. unfold save, _saveData, FileService.writeFile; noread. Qed.
#[local] Hint Resolve noread_updateMetadata noread_markDirty noread_save
  : noread.

Section NoReadWithEngines.
Context {E : Engine.t}.

Lemma noread_updateEach docs u n : steps readsNothing (updateEach docs u n).
Proof.
  revert n; induction docs as [|d r IH]; intros n; cbn [updateEach];
    unfold DocumentOperations.updateDocumentWithOperators,
      DocumentOperations.idOf; noread.
Qed.
#[local] Hint Resolve noread_updateEach : noread.

Lemma noread_perform op : steps readsNothing (perform op).
Proof.
  destruct op; cbn [perform];
    unfold insertOne, findOne, find, updateOne, _updateOneWithOperators,
      _updateOneWithReplacement, updateMany, replaceOne, deleteOne,
      countDocuments,
      DocumentOperations.insertDocument, DocumentOperations.generateId,
      DocumentOperations.findDocumentById,
      DocumentOperations.findAllDocuments, DocumentOperations.findByQuery,
      DocumentOperations.countByQuery,
      DocumentOperations.findMultipleByQuery,
      DocumentOperations.countDocuments, DocumentOperations.updateDocument,
      DocumentOperations.replaceDocument,
      DocumentOperations.updateDocumentWithOperators,
      DocumentOperations.deleteDocument, DocumentOperations.idOf; noread.
Qed.

Lemma noread_serve rq : steps readsNothing (serve rq).
Proof.
  destruct rq; cbn [serve]; unfold getName, getMetadata, isDirty;
    try (apply (steps_bind readsNothing_trans);
         [apply noread_perform | noread]); noread.
Qed.

(** X1.  Once a collection is loaded it never reads its blob again: whatever
    sequence of public calls follows (data calls, getters, [save]), with
    whatever outcomes, the collection stays loaded and no [readFile]
    reaches FileService. *)
Theorem loaded_collection_never_reads (rqs : list request) (s : State) :
  _loaded (fst s) = true ->
  _loaded (fst (session rqs s)) = true /\
  exists evs,
    emitted s (session rqs s) evs /\
    forallb (fun e => negb (isRead e)) evs = true.
Proof.
  revert s; induction rqs as [|rq rest IH]; intros s H; cbn [session].
  - now apply readsNothing_refl.
  - apply (readsNothing_trans (s2 := snd (serve rq s)));
      [apply noread_serve | intros H1; now apply IH | exact H].
Qed.

End NoReadWithEngines.

(** The sample collection, loaded: an insertion, a save and a query read
    nothing. *)
Lemma loaded_collection_never_reads_witness :
  let s := (Sample.loaded, Sample.outside) in
  let rqs := [Data (InsertOne (VObj [("n", VNum 3)])); Save;
              Data (Find (VObj []))] in
  _loaded (fst s) = true /\
  (_loaded (fst (session (E := Engine.spec) rqs s)) = true /\
   exists evs,
     emitted s (session (E := Engine.spec) rqs s) evs /\
     forallb (fun e => negb (isRead e)) evs = true).
Proof.
  cbv zeta. split; [reflexivity|].
  apply (@loaded_collection_never_reads Engine.spec). reflexivity.
Defined.

(** ** The collection keeps to its own blob and index entry *)

Lemma ownEvent_same c c' e :
  _name c' = _name c -> _driveFileId c' = _driveFileId c ->
  ownEvent c' e = ownEvent c e.
Proof. intros Hn Hf. destruct e; cbn; now rewrite ?Hn, ?Hf. Qed.

Lemma forallb_same {A} (p q : A -> bool) l :
  (forall x, p x = q x) -> forallb p l = forallb q l.
Proof. intros H; induction l as [|x r IH]; cbn; [reflexivity|]. now rewrite H, IH. Qed.

Lemma own_refl s : keepsToItsOwn s s.
Proof.
  split; [reflexivity|]. split; [reflexivity|].
  exists []; split; [now apply emitted_nil | reflexivity].
Qed.

Lemma own_trans s1 s2 s3 :
  keepsToItsOwn s1 s2 -> keepsToItsOwn s2 s3 -> keepsToItsOwn s1 s3.
Proof.
  intros (Hn1 & Hf1 & e1 & He1 & Q1) (Hn2 & Hf2 & e2 & He2 & Q2).
  split; [congruence|]. split; [congruence|].
  exists (e1 ++ e2)%list; split; [eapply emitted_app; eassumption|].
  rewrite forallb_app, Q1. cbn.
  rewrite <- Q2. apply forallb_same. intros e.
  symmetry. now apply ownEvent_same.
Qed.

Lemma own_assign f :
  (forall c, _name (f c) = _name c /\ _driveFileId (f c) = _driveFileId c) ->
  steps keepsToItsOwn (assign f).
Proof.
  intros Hf [c w]; cbn. destruct (Hf c) as [Hn Hd].
  split; [exact Hn|]. split; [exact Hd|].
  exists []; split; [now apply emitted_nil | reflexivity].
Qed.

Lemma own_effect f :
  (forall w, trace (f w) = trace w) -> steps keepsToItsOwn (effect f).
Proof.
  intros Hf [c w]; cbn. split; [reflexivity|]. split; [reflexivity|].
  exists []; split; [apply emitted_nil; cbn; apply Hf | reflexivity].
Qed.

(** Under [c <- this], [c] is the instance the computation runs on. *)
Lemma steps_on_this {A} (R : State -> State -> Prop) (k : Collection -> M A) :
  (forall s, R s (snd (k (fst s) s))) -> steps R (c <- this ;; k c).
Proof. intros H s. unfold bind, this. apply H. Qed.

Lemma own_event (e : event) s :
  ownEvent (fst s) e = true ->
  keepsToItsOwn s (fst s, log e (snd s)).
Proof.
  intros H. split; [reflexivity|]. split; [reflexivity|].
  exists [e]; split; [reflexivity | cbn; now rewrite H].
Qed.

Lemma own_readFile s :
  keepsToItsOwn s (snd (FileService.readFile (_driveFileId (fst s)) s)).
Proof.
  assert (H : snd (FileService.readFile (_driveFileId (fst s)) s)
              = (fst s, log (ReadFile (_driveFileId (fst s))) (snd s))).
  { unfold FileService.readFile, bind, effect, world, ret, throw; cbn.
    destruct (available (snd s)); [|reflexivity].
    destruct (obj_get _ (files (snd s))); reflexivity. }
  rewrite H. apply own_event. cbn. apply String.eqb_refl.
Qed.

Ltac own_step :=
  match goal with
  | |- steps _ (assign _) => apply own_assign; intro; cbn; split; reflexivity
  | |- steps _ (effect _) => apply own_effect; reflexivity
  end.

Create HintDb own.

Ltac own :=
  repeat (solve [auto with own] || own_step || frame_step own_refl own_trans).

Lemma own_loadData : steps keepsToItsOwn _loadData.
Proof.
  unfold _loadData. apply steps_rethrow. apply steps_on_this. intros s.
  unfold bind at 1.
  pose proof (own_readFile s) as Hread.
  destruct (FileService.readFile (_driveFileId (fst s)) s) as [[data|e] s1];
    cbn [snd] in *; [|exact Hread].
  eapply own_trans; [exact Hread|].
  match goal with
  | |- keepsToItsOwn _ (snd (?m s1)) =>
      assert (Hrest : steps keepsToItsOwn m); [own | apply Hrest]
  end.
Qed.

Lemma own_ensureLoaded : steps keepsToItsOwn _ensureLoaded.
Proof.
  unfold _ensureLoaded. pose proof own_loadData. own.
Qed.
#[local] Hint Resolve own_ensureLoaded : own.

Lemma own_updateMetadata x : steps keepsToItsOwn (_updateMetadata x).
Proof.
  unfold _updateMetadata. apply (steps_bind own_trans); [auto with own|].
  intros _. apply steps_on_this. intros [c w]; cbn [fst].
  destruct (_collectionMetadata c) as [m|]; [|apply own_refl].
  unfold bind, world, assign, MasterIndex.updateCollectionMetadata, effect,
    ret, throw; cbn [fst snd].
  cbn. destruct (masterIndex w) eqn:HM; cbn; rewrite ?HM; cbn.
  - split; [reflexivity|]. split; [reflexivity|].
    eexists [_]; split; [reflexivity|]. cbn. now rewrite String.eqb_refl.
  - split; [reflexivity|]. split; [reflexivity|].
    exists []; split; [now apply emitted_nil | reflexivity].
Qed.

Lemma own_markDirty : steps keepsToItsOwn _markDirty.
Proof. unfold _markDirty; own. Qed.

Lemma own_save : steps keepsToItsOwn save.
Proof.
  unfold save. apply steps_on_this. intros [c w]; cbn [fst].
  destruct (_loaded c && _dirty c); [|apply own_refl].
  unfold _saveData, rethrow, bind, this; cbn [fst snd].
  destruct (_collectionMetadata c) as [m|]; [|apply own_refl].
  unfold FileService.writeFile, bind, effect, world, assign, throw;
    cbn [fst snd log available].
  destruct (available w); cbn [snd fst];
    (split; [reflexivity|]; split; [reflexivity|];
     eexists [_]; split; [reflexivity|]; cbn; now rewrite String.eqb_refl).
Qed.
#[local] Hint Resolve own_updateMetadata own_markDirty own_save : own.

Section OwnWithEngines.
Context {E : Engine.t}.

Lemma own_updateEach docs u n : steps keepsToItsOwn (updateEach docs u n).
Proof.
  revert n; induction docs as [|d r IH]; intros n; cbn [updateEach];
    unfold DocumentOperations.updateDocumentWithOperators,
      DocumentOperations.idOf; own.
Qed.
#[local] Hint Resolve own_updateEach : own.

Lemma own_perform op : steps keepsToItsOwn (perform op).
Proof.
  destruct op; cbn [perform];
    unfold insertOne, findOne, find, updateOne, _updateOneWithOperators,
      _updateOneWithReplacement, updateMany, replaceOne, deleteOne,
      countDocuments,
      DocumentOperations.insertDocument, DocumentOperations.generateId,
      DocumentOperations.findDocumentById,
      DocumentOperations.findAllDocuments, DocumentOperations.findByQuery,
      DocumentOperations.countByQuery,
      DocumentOperations.findMultipleByQuery,
      DocumentOperations.countDocuments, DocumentOperations.updateDocument,
      DocumentOperations.replaceDocument,
      DocumentOperations.updateDocumentWithOperators,
      DocumentOperations.deleteDocument, DocumentOperations.idOf; own.
Qed.

Lemma own_serve rq : steps keepsToItsOwn (serve rq).
Proof.
  destruct rq; cbn [serve]; unfold getName, getMetadata, isDirty;
    try (apply (steps_bind own_trans); [apply own_perform | own]); own.
Qed.

(** X2.  Whatever is called on a collection, in whatever order and with
    whatever outcome, the instance keeps its name and its file
    identifier, and everything it asks of its services concerns its own
    blob (reads and writes of [_driveFileId]) and its own entry of the
    master index (publications under [_name]); it takes no lock. *)
Theorem collection_keeps_to_its_own_blob (rqs : list request) (s : State) :
  _name (fst (session rqs s)) = _name (fst s) /\
  _driveFileId (fst (session rqs s)) = _driveFileId (fst s) /\
  exists evs,
    emitted s (session rqs s) evs /\ forallb (ownEvent (fst s)) evs = true.
Proof.
  revert s; induction rqs as [|rq rest IH]; intros s; cbn [session].
  - apply own_refl.
  - apply (own_trans (s2 := snd (serve rq s))); [apply own_serve | apply IH].
Qed.

End OwnWithEngines.

(** ** The methods that only look *)

Lemma unchanged_refl s : unchanged s s.
Proof. reflexivity. Qed.

Lemma unchanged_trans s1 s2 s3 :
  unchanged s1 s2 -> unchanged s2 s3 -> unchanged s1 s3.
Proof. unfold unchanged; congruence. Qed.

Ltac looks := repeat (frame_step unchanged_refl unchanged_trans).

Lemma snd_bind_unchanged {A B} (m : M A) (k : A -> M B) s :
  (forall a, steps unchanged (k a)) -> snd (bind m k s) = snd (m s).
Proof.
  intros Hk. unfold bind. destruct (m s) as [[a|e] s1]; [|reflexivity].
  apply Hk.
Qed.

Section ObserversWithEngines.
Context {E : Engine.t}.

(** What follows [_ensureLoaded()] in the three queries changes
    nothing. *)
Lemma query_after_load (op : call) (s : State) :
  isMutation op = false -> snd (perform op s) = snd (_ensureLoaded s).
Proof.
  destruct op; cbn [isMutation perform]; try discriminate; intros _;
    unfold findOne, find, countDocuments; cbv zeta;
    rewrite snd_bind_unchanged by looks;
    apply snd_bind_unchanged;
    unfold DocumentOperations.countByQuery,
      DocumentOperations.findAllDocuments,
      DocumentOperations.findDocumentById, DocumentOperations.findByQuery,
      DocumentOperations.findMultipleByQuery,
      DocumentOperations.countDocuments, DocumentOperations.idOf; looks.
Qed.

(** X3.  [findOne], [find], [countDocuments] and [getMetadata] do nothing but
    load the collection if it is not loaded yet: for every argument and
    every outcome the state they leave is the one [_ensureLoaded()]
    alone leaves, so on a loaded collection it is the state before.
    [getName] and [isDirty] do not even load: they leave every state as
    it is. *)
Theorem observers_only_load (rq : request) (s : State) :
  observes rq = true ->
  snd (serve rq s) = (if loadsFirst rq then snd (_ensureLoaded s) else s) /\
  (_loaded (fst s) = true -> snd (serve rq s) = s).
Proof.
  intros Hrq.
  assert (H : snd (serve rq s)
              = if loadsFirst rq then snd (_ensureLoaded s) else s).
  { destruct rq as [op| | | |]; cbn [observes loadsFirst serve] in *;
      try discriminate.
    - rewrite snd_bind_unchanged by looks. apply query_after_load.
      destruct op; cbn in *; congruence.
    - reflexivity.
    - unfold getMetadata. rewrite snd_bind_unchanged by looks.
      apply snd_bind_unchanged; looks.
    - reflexivity. }
  split; [exact H|]. intros HL. rewrite H.
  destruct (loadsFirst rq); [|reflexivity].
  now rewrite (ensureLoaded_loaded s HL).
Qed.

End ObserversWithEngines.

(** A query on the sample collection before its first use leaves what
    the load leaves. *)
Lemma observers_only_load_witness :
  let s := (Sample.fresh, Sample.outside) in
  let rq := Data (Find (VObj [("n", VNum 1)])) in
  observes rq = true /\
  snd (serve (E := Engine.spec) rq s) = snd (_ensureLoaded s).
Proof.
  cbv zeta. split; [reflexivity|].
  exact (proj1 (@observers_only_load Engine.spec
                  (Data (Find (VObj [("n", VNum 1)])))
                  (Sample.fresh, Sample.outside) eq_refl)).
Defined.

(** ** Loading *)

(** What a failing [_loadData()] leaves: the error is an
    [OperationError], the blob was asked for once, and the flags are as
    before. *)
Lemma loadData_failed s e :
  fst (_loadData s) = Err e ->
  e = OperationError /\
  _loaded (fst (snd (_loadData s))) = _loaded (fst s) /\
  _dirty (fst (snd (_loadData s))) = _dirty (fst s) /\
  files (snd (snd (_loadData s))) = files (snd s) /\
  masterIndex (snd (snd (_loadData s))) = masterIndex (snd s) /\
  trace (snd (snd (_loadData s)))
    = (trace (snd s) ++ [ReadFile (_driveFileId (fst s))])%list.
Proof.
  destruct s as [c w].
  unfold _loadData, rethrow, FileService.readFile, bind, this,
    world, effect, assign, throw, ret, lift.
  cbn -[CollectionMetadata.new prop truthy typeof_object own_properties obj_get].
  destruct (available w);
    cbn -[CollectionMetadata.new prop truthy typeof_object own_properties
          obj_get];
    [|intros H; inversion H; subst; cbn; auto 7].
  destruct (obj_get (_driveFileId c) (files w)) as [data|];
    cbn -[CollectionMetadata.new prop truthy typeof_object own_properties
          obj_get];
    [|intros H; inversion H; subst; cbn; auto 7].
  destruct (negb (truthy data) || negb (typeof_object data));
    cbn -[CollectionMetadata.new prop truthy typeof_object own_properties
          obj_get];
    [intros H; inversion H; subst; cbn; auto 7|].
  match goal with
  | |- context [CollectionMetadata.new ?a ?b ?c ?d] =>
      destruct (CollectionMetadata.new a b c d)
  end; cbn; intros H; inversion H; subst; cbn; auto 7.
Qed.

Lemma ensureLoaded_failed s e :
  _loaded (fst s) = false -> fst (_loadData s) = Err e ->
  _ensureLoaded s = (Err OperationError, snd (_loadData s)).
Proof.
  intros HL He. destruct (loadData_failed s He) as (-> & _).
  unfold _ensureLoaded, bind at 1, this. rewrite HL. cbn [negb].
  unfold bind. destruct (_loadData s) as [[u|e] s1]; cbn in *; congruence.
Qed.

Section LoadingWithEngines.
Context {E : Engine.t}.

(** X4.  If the lazy load fails - the blob cannot be read, is not an object,
    or carries metadata CollectionMetadata rejects - every method that
    loads first (all but [getName], [isDirty] and [save]) throws an
    [OperationError], whatever its arguments.  The blob has been asked
    for once, nothing was written or published, the dirty flag is as
    before, and the collection is still not loaded: the next call tries
    the load again. *)
Theorem failed_load_is_an_OperationError (rq : request) (s : State)
  (e : error) :
  loadsFirst rq = true ->
  _loaded (fst s) = false ->
  fst (_loadData s) = Err e ->
  serve rq s = (Err OperationError, snd (_loadData s)) /\
  _loaded (fst (snd (serve rq s))) = false /\
  _dirty (fst (snd (serve rq s))) = _dirty (fst s) /\
  files (snd (snd (serve rq s))) = files (snd s) /\
  masterIndex (snd (snd (serve rq s))) = masterIndex (snd s) /\
  trace (snd (snd (serve rq s)))
    = (trace (snd s) ++ [ReadFile (_driveFileId (fst s))])%list.
Proof.
  intros Hrq HL He.
  pose proof (ensureLoaded_failed s HL He) as Hrun.
  assert (H : serve rq s = (Err OperationError, snd (_loadData s))).
  { destruct rq as [op| | | |]; cbn [loadsFirst serve] in *;
      try discriminate.
    - destruct op; cbn [perform];
        unfold insertOne, findOne, find, updateOne, updateMany, replaceOne,
          deleteOne, countDocuments; cbv zeta;
        now rewrite !bind_bind, (run_Err Hrun).
    - unfold getMetadata. now rewrite !bind_bind, (run_Err Hrun). }
  rewrite H. cbn [fst snd]. split; [reflexivity|].
  destruct (loadData_failed s He) as (_ & H1 & H2 & H3 & H4 & H5).
  rewrite H1. auto.
Qed.

End LoadingWithEngines.

(** The sample collection with Drive out of reach. *)
Lemma failed_load_is_an_OperationError_witness :
  let s := (Sample.fresh, outOfReach Sample.outside) in
  let rq := Data (FindOne (VObj [])) in
  loadsFirst rq = true /\
  _loaded (fst s) = false /\
  fst (_loadData s) = Err OperationError /\
  serve (E := Engine.spec) rq s = (Err OperationError, snd (_loadData s)).
Proof.
  cbv zeta. split; [reflexivity|]. split; [reflexivity|].
  split; [reflexivity|].
  refine (proj1 (@failed_load_is_an_OperationError Engine.spec
                   (Data (FindOne (VObj [])))
                   (Sample.fresh, outOfReach Sample.outside) OperationError
                   eq_refl eq_refl eq_refl)).
Defined.

(** X5.  A blob object without documents and without metadata - the keys
    absent, or bound to a falsy value - loads as an empty collection
    with the metadata CollectionMetadata makes of [{}]; the dirty flag
    is not touched, and the first query already sees the empty
    collection. *)
Theorem blob_without_documents_loads_empty (c : Collection) (w : World)
  (o : object) (m : CollectionMetadata.t) :
  _loaded c = false ->
  available w = true ->
  obj_get (_driveFileId c) (files w) = Some (VObj o) ->
  truthy (prop "documents" (VObj o)) = false ->
  truthy (prop "metadata" (VObj o)) = false ->
  defaultMetadata c w = Ok m ->
  _ensureLoaded (c, w)
    = (Ok tt, (loadedWith [] m c, log (ReadFile (_driveFileId c)) w)) /\
  find (E := Engine.spec) (VObj []) (c, w)
    = (Ok [], (loadedWith [] m c, log (ReadFile (_driveFileId c)) w)).
Proof.
  intros HL Ha Hfile Hdocs Hmeta Hm.
  assert (Hrun : _ensureLoaded (c, w)
            = (Ok tt, (loadedWith [] m c,
                       log (ReadFile (_driveFileId c)) w))).
  { unfold defaultMetadata in Hm.
    unfold _ensureLoaded, _loadData, rethrow, FileService.readFile, bind,
      this, world, effect, assign, throw, ret, lift.
    cbn -[CollectionMetadata.new prop truthy].
    rewrite HL. cbn -[CollectionMetadata.new prop truthy].
    rewrite Ha. cbn -[CollectionMetadata.new prop truthy].
    rewrite Hfile. cbn -[CollectionMetadata.new prop truthy].
    rewrite Hdocs, Hmeta. change (truthy (VObj o)) with true.
    cbn -[CollectionMetadata.new prop truthy].
    rewrite Hm. reflexivity. }
  split; [exact Hrun|].
  unfold find. cbv zeta. rewrite (run_Ok Hrun). reflexivity.
Qed.

(** A blob that is the empty object. *)
Lemma blob_without_documents_loads_empty_witness :
  let w := with_files [("file-1", VObj [])] Sample.outside in
  let m := {| CollectionMetadata.name := "people";
              CollectionMetadata.fileId := "file-1";
              CollectionMetadata.created := 7;
              CollectionMetadata.lastUpdated := 7;
              CollectionMetadata.documentCount := 0;
              CollectionMetadata.modificationToken := None |} in
  _loaded Sample.fresh = false /\
  available w = true /\
  obj_get (_driveFileId Sample.fresh) (files w) = Some (VObj []) /\
  defaultMetadata Sample.fresh w = Ok m /\
  find (E := Engine.spec) (VObj []) (Sample.fresh, w)
    = (Ok [], (loadedWith [] m Sample.fresh, log (ReadFile "file-1") w)).
Proof.
  intros w m. do 4 (split; [reflexivity|]).
  exact (proj2 (@blob_without_documents_loads_empty Sample.fresh w [] m
                  eq_refl eq_refl eq_refl eq_refl eq_refl eq_refl)).
Defined.

(** ** Queries agree with one another *)

Section Heads.
Context {E : Engine.t}.

Lemma findAll_head docs f l :
  DocumentOperations.findAll docs f = Ok l ->
  DocumentOperations.findFirst docs f = Ok (hd_error l).
Proof.
  revert l; induction docs as [|d r IH]; cbn; intros l H.
  - now inversion H.
  - destruct (Engine.matches d f) as [b|e]; cbn in *; [|discriminate].
    destruct (DocumentOperations.findAll r f) as [rest|e]; cbn in *;
      [|discriminate].
    inversion H; subst. destruct b; [reflexivity|]. now apply IH.
Qed.

End Heads.

Lemma bind_lift_inv {A B} (r : res A) (k : A -> M B) s b s' :
  bind (lift r) k s = (Ok b, s') -> exists a, r = Ok a /\ k a s = (Ok b, s').
Proof.
  destruct r as [a|e]; cbn; intros H; [now exists a | discriminate].
Qed.

Lemma ensureLoaded_returned s u s1 :
  _ensureLoaded s = (Ok u, s1) -> _loaded (fst s1) = true.
Proof.
  unfold _ensureLoaded. intros H. repeat returned; cbn.
  - reflexivity.
  - now apply negb_false_iff in Hb.
Qed.

(** X6.  [findOne] and [countDocuments] answer as [find] does: when
    [find(filter)] returns a list, [findOne(filter)] returns its first
    element ([null] when it is empty) and [countDocuments(filter)] its
    length, from the same state and leaving the same state.  The
    documents are stored under their [_id], which is what lets the
    direct lookup of [findOne({_id})] agree with the engine. *)
Theorem findOne_and_countDocuments_follow_find (filter : value) (s : State)
  (docs : list value) (s' : State) :
  storedUnderId (_documents (fst (snd (_ensureLoaded s)))) = true ->
  find (E := Engine.spec) filter s = (Ok docs, s') ->
  findOne (E := Engine.spec) filter s = (Ok (hd_error docs), s') /\
  countDocuments (E := Engine.spec) filter s = (Ok (List.length docs), s').
Proof.
  intros Hwf H. unfold find in H. cbv zeta in H.
  apply bind_inv in H as (u & s1 & Hload & H). rewrite Hload in Hwf.
  cbn [snd] in Hwf.
  apply bind_inv in H as (v & s2 & Hval & H).
  unfold lift in Hval.
  destruct (_validateFilter (defaultTo (VObj []) filter)) as [[]|e] eqn:HV;
    inversion Hval; subst s2; clear Hval.
  unfold findOne, countDocuments; cbv zeta.
  rewrite !(run_Ok Hload), HV, !bind_lift_Ok.
  destruct (List.length (js_keys (defaultTo (VObj []) filter)) =? 0)%nat.
  - unfold DocumentOperations.findAllDocuments in *.
    unfold DocumentOperations.countDocuments.
    repeat returned. unfold bind, this, ret; cbn [fst snd].
    unfold keys, values. rewrite !length_map. split; [|reflexivity].
    destruct (_documents (fst s')) as [|[k d] r]; reflexivity.
  - unfold DocumentOperations.findMultipleByQuery in H.
    unfold DocumentOperations.countByQuery,
      DocumentOperations.findMultipleByQuery.
    repeat returned.
    match goal with
    | Hall : DocumentOperations.findAll _ _ = Ok docs |- _ =>
        rename Hall into Hfind
    end.
    split.
    + destruct (isIdKeys (js_keys (defaultTo (VObj []) filter))) eqn:Hid.
      * destruct (validated_id_filter _ HV Hid) as [id Hf].
        rewrite Hf in *. cbn [prop obj_get String.eqb].
        unfold DocumentOperations.findDocumentById,
          DocumentOperations.idOf, bind, this, ret; cbn [fst snd].
        apply findAll_head in Hfind.
        rewrite (findFirst_id_filter _ id Hwf) in Hfind.
        now inversion Hfind.
      * unfold DocumentOperations.findByQuery, bind, this, lift;
          cbn [fst snd].
        now rewrite (findAll_head _ _ Hfind).
    + unfold bind, this, lift, ret; cbn [fst snd]. now rewrite Hfind.
Qed.

(** On the sample collection, the documents with [n] = 1. *)
Lemma findOne_and_countDocuments_follow_find_witness :
  let s := (Sample.loaded, Sample.outside) in
  let filter := VObj [("n", VNum 1)] in
  storedUnderId (_documents (fst (snd (_ensureLoaded s)))) = true /\
  find (E := Engine.spec) filter s = (Ok [Sample.anna], s) /\
  findOne (E := Engine.spec) filter s = (Ok (Some Sample.anna), s) /\
  countDocuments (E := Engine.spec) filter s = (Ok 1, s).
Proof.
  cbv zeta. split; [reflexivity|]. split; [reflexivity|].
  exact (@findOne_and_countDocuments_follow_find (VObj [("n", VNum 1)])
           (Sample.loaded, Sample.outside) [Sample.anna]
           (Sample.loaded, Sample.outside) eq_refl eq_refl).
Defined.

(** ** The forms of [updateOne] and [replaceOne] *)

Section UpdateForms.
Context {E : Engine.t}.

(** X7.  [updateOne] and [replaceOne] take a document identifier in place of
    a filter: for every non-empty string [id], passing [id] is the same
    as passing the filter [{_id: id}] - same result or exception, same
    state after.  (The empty string is not equivalent: as a filter it is
    rejected by the validation, which the string form skips.) *)
Theorem string_id_is_the_id_filter (id : string) (arg : value) :
  id <> EmptyString ->
  updateOne (VStr id) arg = updateOne (VObj [("_id", VStr id)]) arg /\
  replaceOne (VStr id) arg = replaceOne (VObj [("_id", VStr id)]) arg.
Proof.
  intros Hid.
  assert (HV : _validateFilter (VObj [("_id", VStr id)]) = Ok tt).
  { unfold _validateFilter; cbn.
    destruct (id =? EmptyString) eqn:He; [|reflexivity].
    apply String.eqb_eq in He. contradiction. }
  unfold updateOne, replaceOne; cbn [typeof_string negb].
  rewrite HV. split; reflexivity.
Qed.

End UpdateForms.

(** The identifier "a". *)
Lemma string_id_is_the_id_filter_witness :
  "a" <> EmptyString /\
  updateOne (E := Engine.spec) (VStr "a") Sample.setN5
    = updateOne (E := Engine.spec) (VObj [("_id", VStr "a")]) Sample.setN5.
Proof.
  split; [discriminate|].
  apply (@string_id_is_the_id_filter Engine.spec "a" Sample.setN5).
  discriminate.
Defined.

(** ** What the update calls count and keep *)

Section UpdateCounts.
Context {E : Engine.t}.

Lemma updateDocumentWithOperators_returned id u s r s' :
  DocumentOperations.updateDocumentWithOperators id u s = (Ok r, s') ->
  DocumentOperations.modifiedCount r <= 1.
Proof.
  unfold DocumentOperations.updateDocumentWithOperators,
    DocumentOperations.idOf. intros H.
  repeat returned; cbn; try lia.
  destruct (ObjectUtils.deepEqual _ _); lia.
Qed.

Lemma updateEach_returned docs u n s m s' :
  updateEach docs u n s = (Ok m, s') -> m <= n + List.length docs.
Proof.
  revert n s; induction docs as [|d r IH]; intros n s H; cbn [updateEach] in H.
  - returned. cbn; lia.
  - apply bind_inv in H as (res & s1 & Hone & H).
    apply updateDocumentWithOperators_returned in Hone.
    apply IH in H. cbn [List.length]. lia.
Qed.

End UpdateCounts.

(** X8.  [updateMany] counts as matched the documents [find] returns for the
    same filter on the same collection, and never reports more
    modifications than matches. *)
Theorem updateMany_counts_what_find_returns (filter update : value)
  (s : State) (r : updateResult) (s' : State) :
  updateMany (E := Engine.spec) filter update s = (Ok r, s') ->
  exists docs,
    find (E := Engine.spec) filter s = (Ok docs, snd (_ensureLoaded s)) /\
    matchedCount r = List.length docs /\
    modifiedCount r <= matchedCount r /\
    acknowledged r = true.
Proof.
  intros H. unfold updateMany in H.
  apply bind_inv in H as (u & s1 & Hload & H).
  apply bind_lift_inv in H as ([] & HV & H).
  apply bind_lift_inv in H as (? & _ & H).
  apply bind_lift_inv in H as (? & _ & H).
  apply bind_inv in H as (docs & s3 & Hfind & H).
  assert (Hfilter : defaultTo (VObj []) filter = filter).
  { destruct filter; try reflexivity. discriminate. }
  unfold DocumentOperations.findMultipleByQuery, bind, this, lift in Hfind.
  cbn [fst snd] in Hfind.
  destruct (DocumentOperations.findAll (values (_documents (fst s1))) filter)
    as [l|e] eqn:Hall; inversion Hfind; subst l s3; clear Hfind.
  exists docs. split.
  - unfold find. rewrite Hfilter. rewrite Hload. cbn [snd].
    rewrite (run_Ok Hload), HV, bind_lift_Ok.
    destruct (List.length (js_keys filter) =? 0)%nat eqn:Hempty;
      [|unfold DocumentOperations.findMultipleByQuery, bind, this, lift;
        cbn [fst snd]; now rewrite Hall].
    assert (filter = VObj []) as ->.
    { destruct filter; try discriminate. destruct props; [reflexivity|].
      discriminate. }
    rewrite findAll_empty_filter in Hall. inversion Hall; subst. reflexivity.
  - destruct (List.length docs =? 0)%nat eqn:Hnone.
    + returned. apply Nat.eqb_eq in Hnone. cbn. repeat split; lia.
    + apply bind_inv in H as (m & s4 & Heach & H).
      apply updateEach_returned in Heach.
      repeat returned; cbn; repeat split; lia.
Qed.

(** Setting [n] to 5 in every document of the sample collection. *)
Lemma updateMany_counts_what_find_returns_witness :
  let s := (Sample.loaded, Sample.outside) in
  exists r s',
    updateMany (E := Engine.spec) (VObj []) Sample.setN5 s = (Ok r, s') /\
    exists docs,
      find (E := Engine.spec) (VObj []) s = (Ok docs, snd (_ensureLoaded s)) /\
      matchedCount r = List.length docs /\
      modifiedCount r <= matchedCount r /\
      acknowledged r = true.
Proof.
  cbv zeta. eexists; eexists. split; [vm_compute; reflexivity|].
  eapply (@updateMany_counts_what_find_returns (VObj []) Sample.setN5
            (Sample.loaded, Sample.outside)).
  vm_compute; reflexivity.
Defined.

Lemma keys_obj_replace k v o : keys (obj_replace k v o) = keys o.
Proof.
  unfold keys; induction o as [|[k' v'] r IH]; cbn; [reflexivity|].
  destruct (k' =? k) eqn:Hk; cbn; [|now rewrite IH].
  apply String.eqb_eq in Hk. now subst.
Qed.

Lemma keepsKeys_refl s : keepsKeys s s.
Proof. intros H; now split. Qed.

Lemma keepsKeys_trans s1 s2 s3 :
  keepsKeys s1 s2 -> keepsKeys s2 s3 -> keepsKeys s1 s3.
Proof.
  intros H12 H23 H1. destruct (H12 H1) as [H2 K2].
  destruct (H23 H2) as [H3 K3]. split; [exact H3 | congruence].
Qed.

Lemma keys_assign f :
  (forall c, _loaded (f c) = _loaded c /\
             keys (_documents (f c)) = keys (_documents c)) ->
  steps keepsKeys (assign f).
Proof.
  intros Hf [c w] H; cbn in *. destruct (Hf c) as [H1 H2].
  split; [congruence | exact H2].
Qed.

Lemma keys_effect f : steps keepsKeys (effect f).
Proof. intros [c w] H; now split. Qed.

Lemma keys_ensureLoaded : steps keepsKeys _ensureLoaded.
Proof.
  intros s H. rewrite (ensureLoaded_loaded s H). now apply keepsKeys_refl.
Qed.

Create HintDb keys.
#[local] Hint Resolve keys_ensureLoaded : keys.

Ltac keys_step :=
  match goal with
  | |- steps _ (assign _) =>
      apply keys_assign; intro; cbn; rewrite ?keys_obj_replace; split;
      reflexivity
  | |- steps _ (effect _) => apply keys_effect
  end.

Ltac samekeys :=
  repeat (solve [auto with keys] || keys_step
          || frame_step keepsKeys_refl keepsKeys_trans).

Lemma keys_updateMetadata x : steps keepsKeys (_updateMetadata x).
Proof.
  unfold _updateMetadata, MasterIndex.updateCollectionMetadata; samekeys.
Qed.

Lemma keys_markDirty : steps keepsKeys _markDirty.
Proof. unfold _markDirty; samekeys. Qed.
#[local] Hint Resolve keys_updateMetadata keys_markDirty : keys.

Lemma keys_replaced s k d :
  keepsKeys s
    (with_documents (obj_replace k d (_documents (fst s))) (fst s), snd s).
Proof. intros H; cbn. split; [exact H | apply keys_obj_replace]. Qed.

Lemma keys_replaceDocument i d :
  steps keepsKeys (DocumentOperations.replaceDocument i d).
Proof.
  intros s. unfold DocumentOperations.replaceDocument,
    DocumentOperations.idOf.
  destruct i; try apply keepsKeys_refl.
  destruct d; try apply keepsKeys_refl.
  unfold bind, ret, throw, this, assign; cbn [fst snd].
  destruct (existsb is_operator_key (keys props)); [apply keepsKeys_refl|].
  destruct (match obj_get "_id" props with
            | Some v => negb (ObjectUtils.deepEqual v (VStr s0))
            | None => false
            end); [apply keepsKeys_refl|].
  destruct (obj_get s0 (_documents (fst s))); [|apply keepsKeys_refl].
  cbn [fst snd]. apply keys_replaced.
Qed.

Lemma keys_updateDocument i d :
  steps keepsKeys (DocumentOperations.updateDocument i d).
Proof. apply keys_replaceDocument. Qed.

Section KeysWithEngines.
Context {E : Engine.t}.

Lemma keys_updateDocumentWithOperators i u :
  steps keepsKeys (DocumentOperations.updateDocumentWithOperators i u).
Proof.
  intros s. unfold DocumentOperations.updateDocumentWithOperators,
    DocumentOperations.idOf.
  destruct i; try apply keepsKeys_refl.
  unfold bind, ret, throw, this, assign, lift; cbn [fst snd].
  destruct (obj_get s0 (_documents (fst s))); [|apply keepsKeys_refl].
  destruct (Engine.applyOperators v u); [|apply keepsKeys_refl].
  cbn [fst snd]. apply keys_replaced.
Qed.
#[local] Hint Resolve keys_replaceDocument keys_updateDocument
  keys_updateDocumentWithOperators : keys.

Lemma keys_updateEach docs u n : steps keepsKeys (updateEach docs u n).
Proof.
  revert n; induction docs as [|d r IH]; intros n; cbn [updateEach];
    samekeys.
Qed.
#[local] Hint Resolve keys_updateEach : keys.

(** X9.  [updateOne], [updateMany] and [replaceOne] neither add nor remove a
    document, whatever their arguments and however they end: the keys of
    the documents map, in their order, are those the collection had
    once loaded. *)
Theorem updates_keep_the_keys (op : call) (s : State) :
  isUpdate op = true ->
  keys (_documents (fst (snd (perform op s))))
    = keys (_documents (fst (snd (_ensureLoaded s)))).
Proof.
  intros Hop.
  destruct (_ensureLoaded s) as [[[]|e] s1] eqn:Hload; cbn [snd].
  - pose proof Hload as HL. apply ensureLoaded_returned in HL.
    destruct op; cbn [isUpdate perform] in *; try discriminate;
      unfold updateOne, updateMany, replaceOne;
      rewrite !bind_bind, (run_Ok Hload);
      match goal with
      | |- context [snd (?m s1)] =>
          let Hm := fresh in
          assert (Hm : steps keepsKeys m);
            [unfold _updateOneWithOperators, _updateOneWithReplacement,
               DocumentOperations.findByQuery,
               DocumentOperations.findMultipleByQuery; samekeys
            | exact (proj2 (Hm s1 HL))]
      end.
  - destruct op; cbn [isUpdate perform] in *; try discriminate;
      unfold updateOne, updateMany, replaceOne;
      now rewrite !bind_bind, (run_Err Hload).
Qed.

End KeysWithEngines.

(** Replacing the document "a" of the sample collection. *)
Lemma updates_keep_the_keys_witness :
  let s := (Sample.loaded, Sample.outside) in
  let op := ReplaceOne (VStr "a") (VObj [("n", VNum 9)]) in
  isUpdate op = true /\
  keys (_documents (fst (snd (perform (E := Engine.spec) op s)))) = ["a"; "b"].
Proof.
  cbv zeta. split; [reflexivity|].
  exact (@updates_keep_the_keys Engine.spec
           (ReplaceOne (VStr "a") (VObj [("n", VNum 9)]))
           (Sample.loaded, Sample.outside) eq_refl).
Defined.

(** ** The documents map stays as the data model has it *)

Lemma obj_get_None_notin k o : obj_get k o = None -> ~ In k (keys o).
Proof.
  unfold keys; induction o as [|[k' v'] r IH]; cbn; [tauto|].
  destruct (k' =? k) eqn:Hk; [discriminate|]. intros H [Heq|Hin].
  - subst. now rewrite String.eqb_refl in Hk.
  - now apply IH.
Qed.


Lemma in_keys_insert_index x i k v o :
  In x (keys (obj_insert_index i k v o)) <-> x = k \/ In x (keys o).
Proof.
  unfold keys; induction o as [|[k' v'] r IH]; cbn; [intuition|].
  destruct (array_index k') as [j|]; [destruct (j <? i)%N|]; cbn;
    rewrite ?IH; intuition.
Qed.

Lemma NoDup_insert_index i k v o :
  NoDup (keys o) -> ~ In k (keys o) ->
  NoDup (keys (obj_insert_index i k v o)).
Proof.
  induction o as [|[k' v'] r IH]; cbn; intros Hnd Hin.
  - constructor; [tauto | constructor].
  - assert (Hcons : NoDup (k :: k' :: keys r))
      by (constructor; [exact Hin | exact Hnd]).
    destruct (array_index k') as [j|]; [destruct (j <? i)%N|]; cbn;
      try exact Hcons.
    inversion Hnd; subst. constructor.
    + change (map fst (obj_insert_index i k v r))
        with (keys (obj_insert_index i k v r)).
      rewrite in_keys_insert_index. intros [Heq|Hr]; [|contradiction].
      subst. apply Hin. now left.
    + apply IH; [assumption|]. intros Hr. apply Hin. now right.
Qed.

Lemma forallb_insert_index (P : string * value -> bool) i k v o :
  forallb P (obj_insert_index i k v o) = P (k, v) && forallb P o.
Proof.
  induction o as [|[k' v'] r IH]; cbn; [reflexivity|].
  destruct (array_index k') as [j|]; [destruct (j <? i)%N|]; cbn;
    rewrite ?IH; try reflexivity.
  destruct (P (k, v)), (P (k', v')); reflexivity.
Qed.

Lemma stored_entry k d :
  prop "_id" d = VStr k ->
  ObjectUtils.deepEqual (prop "_id" d) (VStr k) = true.
Proof. intros ->. cbn. apply String.eqb_refl. Qed.

Lemma wellStored_set_new k d docs :
  wellStored docs -> obj_get k docs = None -> prop "_id" d = VStr k ->
  wellStored (obj_set k d docs).
Proof.
  intros [Hnd Hst] Hnone Hid. pose proof (stored_entry d Hid) as He.
  pose proof (obj_get_None_notin _ _ Hnone) as Hin.
  unfold obj_set. rewrite Hnone. destruct (array_index k) as [i|].
  - split; [now apply NoDup_insert_index|].
    unfold storedUnderId in *. rewrite forallb_insert_index. cbn [fst snd].
    now rewrite He, Hst.
  - split.
    + unfold keys. rewrite map_app. cbn.
      apply NoDup_app; [exact Hnd | constructor; [tauto | constructor] |].
      intros x Hx [<-|[]]. contradiction.
    + unfold storedUnderId in *. rewrite forallb_app, Hst.
      cbn [forallb fst snd andb]. now rewrite He.
Qed.

Lemma wellStored_replace k d docs :
  wellStored docs -> prop "_id" d = VStr k ->
  wellStored (obj_replace k d docs).
Proof.
  intros [Hnd Hst] Hid. split; [now rewrite keys_obj_replace|].
  pose proof (stored_entry d Hid) as He. clear Hnd.
  unfold storedUnderId in *.
  induction docs as [|[k' v'] r IH]; cbn in *; [reflexivity|].
  apply andb_true_iff in Hst as [H1 H2].
  destruct (k' =? k); cbn [forallb fst snd].
  - now rewrite He, H2.
  - now rewrite H1, IH.
Qed.

Lemma in_keys_delete x k o :
  In x (keys (obj_delete k o)) -> In x (keys o).
Proof.
  unfold keys; induction o as [|[k' v'] r IH]; cbn; [tauto|].
  destruct (k' =? k); cbn; intuition.
Qed.

Lemma wellStored_delete k docs :
  wellStored docs -> wellStored (obj_delete k docs).
Proof.
  intros [Hnd Hst]. split.
  - clear Hst.
    induction docs as [|[k' v'] r IH]; cbn in *; [constructor|].
    inversion Hnd; subst. destruct (k' =? k); cbn; [assumption|].
    constructor; [|now apply IH].
    intros Hin. apply in_keys_delete in Hin. contradiction.
  - clear Hnd. unfold storedUnderId in *.
    induction docs as [|[k' v'] r IH]; cbn in *; [reflexivity|].
    apply andb_true_iff in Hst as [H1 H2].
    destruct (k' =? k); cbn; [assumption|]. now rewrite H1, IH.
Qed.

(** The reference UpdateEngine leaves [_id] as it is. *)
Lemma deepEqual_VStr_left k v :
  ObjectUtils.deepEqual (VStr k) v = true -> v = VStr k.
Proof.
  destruct v; cbn; try discriminate.
  intros H. apply String.eqb_eq in H. now subst.
Qed.

Lemma applyFields_keeps_id op fields d d' k :
  prop "_id" d = VStr k ->
  UpdateEngine.applyFields op fields d = Ok d' -> prop "_id" d' = VStr k.
Proof.
  revert d; induction fields as [|[path arg] r IH]; cbn; intros d Hid H.
  - now inversion H; subst.
  - destruct (UpdateEngine.fieldUpdate op path arg d) as [d1|e]; cbn in H;
      [|discriminate].
    unfold UpdateEngine.keepsId in H. rewrite Hid in H.
    destruct (ObjectUtils.deepEqual (VStr k) (prop "_id" d1)) eqn:Heq;
      cbn in H; [|discriminate].
    apply deepEqual_VStr_left in Heq. now apply (IH d1).
Qed.

Lemma applyOperators_keeps_id d u d' k :
  prop "_id" d = VStr k ->
  UpdateEngine.applyOperators d u = Ok d' -> prop "_id" d' = VStr k.
Proof.
  unfold UpdateEngine.applyOperators. destruct u; try discriminate.
  destruct (_ || _); [discriminate|].
  revert d; induction props as [|[op v] r IH]; cbn; intros d Hid H.
  - now inversion H; subst.
  - destruct v; try discriminate.
    destruct (UpdateEngine.applyFields op props d) as [d1|e] eqn:H1;
      cbn in H; [|discriminate].
    apply (IH d1); [|exact H]. eapply applyFields_keeps_id; eassumption.
Qed.

Lemma staysStored_refl s : staysStored s s.
Proof. intros H1 H2; now split. Qed.

Lemma staysStored_trans s1 s2 s3 :
  staysStored s1 s2 -> staysStored s2 s3 -> staysStored s1 s3.
Proof.
  intros H12 H23 H1 W1. destruct (H12 H1 W1) as [H2 W2]. now apply H23.
Qed.

Lemma stored_assign f :
  (forall c, _loaded (f c) = _loaded c /\ _documents (f c) = _documents c) ->
  steps staysStored (assign f).
Proof.
  intros Hf [c w] H W; cbn in *. destruct (Hf c) as [H1 H2].
  rewrite H1, H2. now split.
Qed.

Lemma stored_effect f : steps staysStored (effect f).
Proof. intros [c w] H W; now split. Qed.

Lemma stored_ensureLoaded : steps staysStored _ensureLoaded.
Proof.
  intros s H. rewrite (ensureLoaded_loaded s H). now apply staysStored_refl.
Qed.

Create HintDb stored.
#[local] Hint Resolve stored_ensureLoaded : stored.

Ltac stored_step :=
  match goal with
  | |- steps _ (assign _) =>
      apply stored_assign; intro; cbn; split; reflexivity
  | |- steps _ (effect _) => apply stored_effect
  end.

Ltac stored :=
  repeat (solve [auto with stored] || stored_step
          || frame_step staysStored_refl staysStored_trans).

Lemma stored_updateMetadata x : steps staysStored (_updateMetadata x).
Proof.
  unfold _updateMetadata, MasterIndex.updateCollectionMetadata; stored.
Qed.

Lemma stored_markDirty : steps staysStored _markDirty.
Proof. unfold _markDirty; stored. Qed.

Lemma stored_save : steps staysStored save.
Proof. unfold save, _saveData, FileService.writeFile; stored. Qed.
#[local] Hint Resolve stored_updateMetadata stored_markDirty stored_save
  : stored.

Lemma stored_with s docs :
  (wellStored (_documents (fst s)) -> wellStored docs) ->
  staysStored s (with_documents docs (fst s), snd s).
Proof. intros H HL W; cbn. split; [exact HL | now apply H]. Qed.

Lemma stored_insertDocument doc :
  steps staysStored (DocumentOperations.insertDocument doc).
Proof.
  unfold DocumentOperations.insertDocument, DocumentOperations.generateId.
  destruct doc as [ | | | | | | |props]; try (stored; fail).
  destruct (DocumentOperations.hasOperatorKeys (VObj props)); [stored|].
  apply (steps_bind staysStored_trans); [stored|].
  intros id. apply steps_on_this. intros [c w]; cbn [fst].
  destruct (obj_get id (_documents c)) eqn:Hget; [apply staysStored_refl|].
  unfold bind, assign, ret; cbn [fst snd].
  apply (stored_with (c, w)). intros W.
  apply wellStored_set_new; [exact W | exact Hget|].
  cbn. now rewrite obj_get_set.
Qed.

Lemma stored_replaceDocument i d :
  steps staysStored (DocumentOperations.replaceDocument i d).
Proof.
  intros s. unfold DocumentOperations.replaceDocument,
    DocumentOperations.idOf.
  destruct i; try apply staysStored_refl.
  destruct d; try apply staysStored_refl.
  unfold bind, ret, throw, this, assign; cbn [fst snd].
  destruct (existsb is_operator_key (keys props)); [apply staysStored_refl|].
  destruct (match obj_get "_id" props with
            | Some v => negb (ObjectUtils.deepEqual v (VStr s0))
            | None => false
            end); [apply staysStored_refl|].
  destruct (obj_get s0 (_documents (fst s))); [|apply staysStored_refl].
  cbn [fst snd]. apply stored_with. intros W.
  apply wellStored_replace; [exact W|]. cbn. now rewrite obj_get_set.
Qed.

Lemma stored_updateDocument i d :
  steps staysStored (DocumentOperations.updateDocument i d).
Proof. apply stored_replaceDocument. Qed.

Lemma stored_updateDocumentWithOperators i u :
  steps staysStored
    (DocumentOperations.updateDocumentWithOperators (E := Engine.spec) i u).
Proof.
  intros s. unfold DocumentOperations.updateDocumentWithOperators,
    DocumentOperations.idOf.
  destruct i; try apply staysStored_refl.
  unfold bind, ret, throw, this, assign, lift; cbn [fst snd].
  destruct (obj_get s0 (_documents (fst s))) as [old|] eqn:Hget;
    [|apply staysStored_refl].
  cbn [Engine.applyOperators Engine.spec].
  destruct (UpdateEngine.applyOperators old u) as [d|e] eqn:Happ;
    [|apply staysStored_refl].
  cbn [fst snd]. apply stored_with. intros W.
  apply wellStored_replace; [exact W|].
  eapply applyOperators_keeps_id; [|exact Happ].
  eapply stored_under_key; [exact (proj2 W) | exact Hget].
Qed.

Lemma stored_deleteDocument i :
  steps staysStored (DocumentOperations.deleteDocument i).
Proof.
  intros s. unfold DocumentOperations.deleteDocument,
    DocumentOperations.idOf.
  destruct i; try apply staysStored_refl.
  unfold bind, ret, throw, this, assign; cbn [fst snd].
  destruct (obj_get s0 (_documents (fst s))); [|apply staysStored_refl].
  cbn [fst snd]. apply stored_with. apply wellStored_delete.
Qed.
#[local] Hint Resolve stored_insertDocument stored_replaceDocument
  stored_updateDocument stored_updateDocumentWithOperators
  stored_deleteDocument : stored.

Lemma stored_updateEach docs u n :
  steps staysStored (updateEach (E := Engine.spec) docs u n).
Proof.
  revert n; induction docs as [|d r IH]; intros n; cbn [updateEach]; stored.
Qed.
#[local] Hint Resolve stored_updateEach : stored.

Lemma stored_perform op : steps staysStored (perform (E := Engine.spec) op).
Proof.
  destruct op; cbn [perform];
    unfold insertOne, findOne, find, updateOne, _updateOneWithOperators,
      _updateOneWithReplacement, updateMany, replaceOne, deleteOne,
      countDocuments, DocumentOperations.countByQuery,
      DocumentOperations.findDocumentById,
      DocumentOperations.findAllDocuments, DocumentOperations.findByQuery,
      DocumentOperations.findMultipleByQuery,
      DocumentOperations.countDocuments, DocumentOperations.idOf; stored.
Qed.

Lemma stored_serve rq : steps staysStored (serve (E := Engine.spec) rq).
Proof.
  destruct rq; cbn [serve]; unfold getName, getMetadata, isDirty;
    try (apply (steps_bind staysStored_trans);
         [apply stored_perform | stored]); stored.
Qed.

(** X10.  The data-model invariant is kept: on a loaded collection whose
    documents map has one entry per key, each document under its own
    [_id], every sequence of public calls, with whatever outcomes, leaves
    a documents map of the same kind.  (The update operators are those of
    the UpdateEngine of the specification, which refuses to change
    [_id].) *)
Theorem documents_stay_under_their_ids (rqs : list request) (s : State) :
  _loaded (fst s) = true ->
  wellStored (_documents (fst s)) ->
  _loaded (fst (session (E := Engine.spec) rqs s)) = true /\
  wellStored (_documents (fst (session (E := Engine.spec) rqs s))).
Proof.
  revert s; induction rqs as [|rq rest IH]; intros s H W; cbn [session].
  - now split.
  - destruct (stored_serve rq s H W) as [H1 W1]. now apply IH.
Qed.

Lemma wellStored_sample : wellStored (_documents Sample.loaded).
Proof.
  split; [|reflexivity]. cbn.
  constructor; [|constructor; [|constructor]]; cbn; intuition discriminate.
Qed.

(** The sample collection through an insertion, an update and a
    deletion. *)
Lemma documents_stay_under_their_ids_witness :
  let s := (Sample.loaded, Sample.outside) in
  let rqs := [Data (InsertOne (VObj [("n", VNum 3)]));
              Data (UpdateMany (VObj []) Sample.setN5);
              Data (DeleteOne (VObj [("_id", VStr "a")]))] in
  _loaded (fst s) = true /\
  wellStored (_documents (fst s)) /\
  wellStored (_documents (fst (session (E := Engine.spec) rqs s))).
Proof.
  cbv zeta. split; [reflexivity|]. split; [exact wellStored_sample|].
  exact (proj2 (@documents_stay_under_their_ids
                  [Data (InsertOne (VObj [("n", VNum 3)]));
                   Data (UpdateMany (VObj []) Sample.setN5);
                   Data (DeleteOne (VObj [("_id", VStr "a")]))]
                  (Sample.loaded, Sample.outside) eq_refl
                  wellStored_sample)).
Defined.

(** ** Saving *)

Lemma save_run_dirty c w m :
  _loaded c = true -> _dirty c = true -> _collectionMetadata c = Some m ->
  save (c, w)
  = if available w
    then (Ok tt,
          (with_dirty false c,
           with_files (obj_set (_driveFileId c) (blobOf c m) (files w))
             (log (WriteFile (_driveFileId c) (blobOf c m)) w)))
    else (Err OperationError,
          (c, log (WriteFile (_driveFileId c) (blobOf c m)) w)).
Proof.
  intros HL HD Hm. unfold save, bind at 1, this; cbn [fst snd].
  rewrite HL, HD. cbn [andb].
  unfold _saveData, rethrow, bind at 1, this; cbn [fst snd]. rewrite Hm.
  unfold FileService.writeFile, bind, effect, world, assign, throw;
    cbn [fst snd log available].
  destruct (available w); reflexivity.
Qed.

(** X11.  A [save()] whose write fails throws an [OperationError] and leaves
    the collection exactly as it was, dirty flag included; only the
    attempted write shows outside.  So the next [save()] attempts the
    write again. *)
Theorem failed_save_stays_dirty (c : Collection) (w : World)
  (m : CollectionMetadata.t) :
  _loaded c = true -> _dirty c = true -> _collectionMetadata c = Some m ->
  available w = false ->
  let attempt := WriteFile (_driveFileId c) (blobOf c m) in
  save (c, w) = (Err OperationError, (c, log attempt w)) /\
  save (c, log attempt w)
    = (Err OperationError, (c, log attempt (log attempt w))).
Proof.
  intros HL HD Hm Ha. cbv zeta.
  rewrite (save_run_dirty c w HL HD Hm), Ha.
  rewrite (save_run_dirty c _ HL HD Hm). cbn [available log]. rewrite Ha.
  split; reflexivity.
Qed.

(** The sample collection, dirty, with Drive out of reach. *)
Lemma failed_save_stays_dirty_witness :
  let c := with_dirty true Sample.loaded in
  let w := outOfReach Sample.outside in
  _loaded c = true /\ _dirty c = true /\
  _collectionMetadata c = Some Sample.metadata /\ available w = false /\
  save (c, w)
    = (Err OperationError,
       (c, log (WriteFile "file-1" (blobOf c Sample.metadata)) w)).
Proof.
  intros c w. do 4 (split; [reflexivity|]).
  exact (proj1 (@failed_save_stays_dirty c w Sample.metadata
                  eq_refl eq_refl eq_refl eq_refl)).
Defined.

(** X12.  What [save()] writes, [_loadData()] reads back: after a successful
    save of a loaded, dirty collection, an instance on the same file that
    is not loaded yet loads exactly the documents map that was saved,
    and metadata with the saved timestamps, count and token. *)
Theorem saved_collection_loads_back (c : Collection) (w : World)
  (m : CollectionMetadata.t) (c2 : Collection) :
  _loaded c = true -> _dirty c = true -> _collectionMetadata c = Some m ->
  available w = true ->
  _loaded c2 = false -> _driveFileId c2 = _driveFileId c ->
  let w1 := snd (snd (save (c, w))) in
  fst (save (c, w)) = Ok tt /\
  _ensureLoaded (c2, w1)
    = (Ok tt,
       (loadedWith (_documents c) (reloaded (_name c2) (_driveFileId c2) m)
          c2,
        log (ReadFile (_driveFileId c2)) w1)).
Proof.
  intros HL HD Hm Ha HL2 Hfile. cbv zeta.
  rewrite (save_run_dirty c w HL HD Hm), Ha. cbn [fst snd].
  split; [reflexivity|].
  unfold _ensureLoaded, _loadData, rethrow, FileService.readFile, bind,
    this, world, effect, assign, throw, ret, lift.
  cbn -[CollectionMetadata.new CollectionMetadata.toJSON obj_set].
  rewrite HL2. cbn -[CollectionMetadata.new CollectionMetadata.toJSON obj_set].
  rewrite Ha. cbn -[CollectionMetadata.new CollectionMetadata.toJSON obj_set].
  rewrite Hfile, obj_get_set. unfold blobOf.
  cbn -[CollectionMetadata.new CollectionMetadata.toJSON obj_set].
  change (truthy (CollectionMetadata.toJSON m)) with true.
  cbn -[CollectionMetadata.new CollectionMetadata.toJSON obj_set].
  rewrite metadata_round_trip. cbn -[obj_set]. rewrite <- Hfile.
  reflexivity.
Qed.

(** The sample collection, saved and loaded by a new instance. *)
Lemma saved_collection_loads_back_witness :
  let c := with_dirty true Sample.loaded in
  let w := Sample.outside in
  let w1 := snd (snd (save (c, w))) in
  _loaded c = true /\ _dirty c = true /\
  _collectionMetadata c = Some Sample.metadata /\ available w = true /\
  _loaded Sample.fresh = false /\
  _driveFileId Sample.fresh = _driveFileId c /\
  _ensureLoaded (Sample.fresh, w1)
    = (Ok tt,
       (loadedWith (_documents c) (reloaded "people" "file-1" Sample.metadata)
          Sample.fresh,
        log (ReadFile "file-1") w1)).
Proof.
  intros c w w1. do 6 (split; [reflexivity|]).
  exact (proj2 (@saved_collection_loads_back c w Sample.metadata
                  Sample.fresh eq_refl eq_refl eq_refl eq_refl eq_refl
                  eq_refl)).
Defined.

(** ** Mutations that throw *)

Lemma sameOutside_refl w : sameOutside w w.
Proof. repeat split. Qed.

Lemma sameOutside_trans w1 w2 w3 :
  sameOutside w1 w2 -> sameOutside w2 w3 -> sameOutside w1 w3.
Proof.
  unfold sameOutside. intros (A1 & A2 & A3 & A4 & A5) (B1 & B2 & B3 & B4 & B5).
  repeat split; congruence.
Qed.

Lemma with_documents_same c : with_documents (_documents c) c = c.
Proof. now destruct c. Qed.

Lemma sameCollection_refl s : sameCollection s s.
Proof. split; [reflexivity | apply sameOutside_refl]. Qed.

Lemma sameCollection_trans s1 s2 s3 :
  sameCollection s1 s2 -> sameCollection s2 s3 -> sameCollection s1 s3.
Proof.
  intros [A1 A2] [B1 B2]. split; [congruence|].
  eapply sameOutside_trans; eassumption.
Qed.

Lemma sameButDocuments_refl s : sameButDocuments s s.
Proof.
  split; [|apply sameOutside_refl].
  exists (_documents (fst s)). now rewrite with_documents_same.
Qed.

Lemma sameButDocuments_trans s1 s2 s3 :
  sameButDocuments s1 s2 -> sameButDocuments s2 s3 -> sameButDocuments s1 s3.
Proof.
  intros [[d1 A1] A2] [[d2 B1] B2]. split.
  - exists d2. rewrite B1, A1. reflexivity.
  - eapply sameOutside_trans; eassumption.
Qed.

Lemma sameCollection_ready s s' : sameCollection s s' -> ready s -> ready s'.
Proof. intros [H _] R. unfold ready in *. now rewrite H. Qed.

Lemma sameButDocuments_ready s s' :
  sameButDocuments s s' -> ready s -> ready s'.
Proof. intros [[d H] _] R. unfold ready in *. now rewrite H. Qed.

Section Throwing.
Variable R : State -> State -> Prop.
Hypothesis R_refl : forall s, R s s.
Hypothesis R_trans : forall s1 s2 s3, R s1 s2 -> R s2 s3 -> R s1 s3.
Hypothesis R_ready : forall s s', R s s' -> ready s -> ready s'.

Lemma fails_ret {A} (a : A) : failsWithin R (ret a).
Proof. intros s e s' _ H; discriminate. Qed.

Lemma fails_throw {A} e : failsWithin R (@throw A e).
Proof. intros s e' s' _ H; inversion H; subst. apply R_refl. Qed.

Lemma fails_steps {A} (m : M A) : steps R m -> failsWithin R m.
Proof.
  intros Hm s e s' _ H. specialize (Hm s). now rewrite H in Hm.
Qed.

Lemma fails_map {A B} (m : M A) (g : A -> B) :
  failsWithin R m -> failsWithin R (a <- m ;; ret (g a)).
Proof.
  intros Hm s e s' Hs H. unfold bind in H.
  destruct (m s) as [[a|e'] s1] eqn:Hrun; [discriminate|].
  inversion H; subst. eapply Hm; eassumption.
Qed.

Lemma fails_bind_steps {A B} (m : M A) (k : A -> M B) :
  steps R m -> (forall a, failsWithin R (k a)) -> failsWithin R (bind m k).
Proof.
  intros Hm Hk s e s' Hs H. unfold bind in H. specialize (Hm s).
  destruct (m s) as [[a|e'] s1]; cbn [snd] in Hm.
  - eapply R_trans; [exact Hm|]. eapply Hk; [|exact H].
    eapply R_ready; eassumption.
  - now inversion H; subst.
Qed.

Lemma fails_bind_runs {A B} (m : M A) (k : A -> M B) :
  failsWithin R m ->
  (forall s a s', ready s -> m s = (Ok a, s') -> ready s') ->
  (forall a, runs (k a)) ->
  failsWithin R (bind m k).
Proof.
  intros Hm Hready Hk s e s' Hs H. unfold bind in H.
  destruct (m s) as [[a|e'] s1] eqn:Hrun.
  - destruct (Hk a s1 (Hready _ _ _ Hs Hrun)) as (b & s2 & Hb & _).
    congruence.
  - inversion H; subst. eapply Hm; eassumption.
Qed.

Lemma fails_after_load {A} (k : unit -> M A) :
  failsWithin R (k tt) -> failsWithin R (bind _ensureLoaded k).
Proof.
  intros Hk s e s' Hs H. rewrite (run_loaded _ s (proj1 Hs)) in H.
  eapply Hk; eassumption.
Qed.

End Throwing.

Lemma runs_ret {A} (a : A) : runs (ret a).
Proof. intros s Hs. now exists a, s. Qed.

Lemma runs_this : runs this.
Proof. intros s Hs. now exists (fst s), s. Qed.

Lemma runs_bind {A B} (m : M A) (k : A -> M B) :
  runs m -> (forall a, runs (k a)) -> runs (bind m k).
Proof.
  intros Hm Hk s Hs. destruct (Hm s Hs) as (a & s1 & Hrun & Hs1).
  rewrite (run_Ok Hrun). now apply Hk.
Qed.

Lemma runs_markDirty : runs _markDirty.
Proof. intros s Hs. exists tt. eexists; split; [reflexivity|exact Hs]. Qed.

Lemma runs_updateMetadata x : runs (_updateMetadata x).
Proof.
  intros [c w] [HL HM]; cbn in HL, HM.
  unfold _updateMetadata. rewrite (run_loaded _ (c, w) HL).
  unfold bind, this, world, assign, MasterIndex.updateCollectionMetadata,
    effect, throw, ret, bind; cbn.
  destruct (_collectionMetadata c) as [m|] eqn:Hm; [|congruence]. cbn.
  destruct (masterIndex w) eqn:Hi; cbn; rewrite ?Hi; cbn;
    (exists tt; eexists; split; [reflexivity|]; split; cbn;
     [exact HL | discriminate]).
Qed.

Ltac runs_step :=
  match goal with
  | |- runs (bind _ _) => apply runs_bind
  | |- runs (ret _) => apply runs_ret
  | |- runs this => apply runs_this
  | |- runs _markDirty => apply runs_markDirty
  | |- runs (_updateMetadata _) => apply runs_updateMetadata
  | |- runs (if ?b then _ else _) => destruct b
  | |- forall _, _ => intro
  end.

(** Relations that read nothing of the documents map hold across its
    assignments. *)
Lemma docs_assign f :
  (forall c, exists docs, f c = with_documents docs c) ->
  steps sameButDocuments (assign f).
Proof.
  intros Hf [c w]; cbn. split; [apply Hf | apply sameOutside_refl].
Qed.

Lemma docs_effect f :
  (forall w, sameOutside w (f w)) -> steps sameButDocuments (effect f).
Proof.
  intros Hf [c w]; cbn. split; [|apply Hf].
  exists (_documents c). now rewrite with_documents_same.
Qed.

Ltac docs_step :=
  match goal with
  | |- steps _ (assign _) => apply docs_assign; intro; eexists; reflexivity
  | |- steps _ (effect _) => apply docs_effect; intro; repeat split
  end.

Create HintDb docs.

Ltac docsonly :=
  repeat (solve [auto with docs] || docs_step
          || frame_step sameButDocuments_refl sameButDocuments_trans).

Lemma same_effect f :
  (forall w, sameOutside w (f w)) -> steps sameCollection (effect f).
Proof. intros Hf [c w]; cbn. split; [reflexivity | apply Hf]. Qed.

Ltac same_step :=
  match goal with
  | |- steps _ (effect _) => apply same_effect; intro; repeat split
  end.

Ltac samecoll :=
  repeat (same_step || frame_step sameCollection_refl sameCollection_trans).

(** A primitive that throws has left the documents map as it was. *)
Lemma failed_keeps_documents {A} (m : M A) :
  steps sameButDocuments m ->
  (forall s e s', m s = (Err e, s') ->
                  _documents (fst s') = _documents (fst s)) ->
  failsWithin sameCollection m.
Proof.
  intros Hm Hdocs s e s' _ H. pose proof (Hm s) as [[d Hd] Hw].
  rewrite H in Hd, Hw. cbn [snd] in *. split; [|exact Hw].
  specialize (Hdocs _ _ _ H). rewrite Hd in Hdocs |- *. cbn in Hdocs.
  subst d. apply with_documents_same.
Qed.

Lemma returned_ready {A} (m : M A) :
  steps sameButDocuments m ->
  forall s a s', ready s -> m s = (Ok a, s') -> ready s'.
Proof.
  intros Hm s a s' Hs H. specialize (Hm s). rewrite H in Hm.
  eapply sameButDocuments_ready; eassumption.
Qed.

Section ThrowingWithEngines.
Context {E : Engine.t}.

Lemma docs_insertDocument doc :
  steps sameButDocuments (DocumentOperations.insertDocument doc).
Proof.
  unfold DocumentOperations.insertDocument, DocumentOperations.generateId;
    docsonly.
Qed.

Lemma docs_replaceDocument i d :
  steps sameButDocuments (DocumentOperations.replaceDocument i d).
Proof.
  unfold DocumentOperations.replaceDocument, DocumentOperations.idOf;
    docsonly.
Qed.

Lemma docs_updateDocumentWithOperators i u :
  steps sameButDocuments (DocumentOperations.updateDocumentWithOperators i u).
Proof.
  unfold DocumentOperations.updateDocumentWithOperators,
    DocumentOperations.idOf; docsonly.
Qed.

Lemma docs_deleteDocument i :
  steps sameButDocuments (DocumentOperations.deleteDocument i).
Proof.
  unfold DocumentOperations.deleteDocument, DocumentOperations.idOf;
    docsonly.
Qed.
#[local] Hint Resolve docs_updateDocumentWithOperators : docs.

Lemma docs_updateEach docs u n :
  steps sameButDocuments (updateEach docs u n).
Proof.
  revert n; induction docs as [|d r IH]; intros n; cbn [updateEach];
    docsonly.
Qed.

Lemma insertDocument_failed doc s e s' :
  DocumentOperations.insertDocument doc s = (Err e, s') ->
  _documents (fst s') = _documents (fst s).
Proof.
  intros H. pose proof (insertDocument_frame doc s) as (_ & _ & Hd).
  cbv zeta in Hd. rewrite H in Hd. exact (Hd e eq_refl).
Qed.

Lemma replaceDocument_failed i d s e s' :
  DocumentOperations.replaceDocument i d s = (Err e, s') ->
  _documents (fst s') = _documents (fst s).
Proof.
  unfold DocumentOperations.replaceDocument, DocumentOperations.idOf.
  destruct i; cbn; try (intros H; now inversion H).
  destruct d; cbn; try (intros H; now inversion H).
  unfold bind, ret, throw, this, assign; cbn [fst snd].
  destruct (existsb is_operator_key (keys props));
    [intros H; now inversion H|].
  destruct (match obj_get "_id" props with
            | Some v => negb (ObjectUtils.deepEqual v (VStr s0))
            | None => false
            end); [intros H; now inversion H|].
  destruct (obj_get s0 (_documents (fst s))); cbn; discriminate.
Qed.

Lemma updateDocumentWithOperators_failed i u s e s' :
  DocumentOperations.updateDocumentWithOperators i u s = (Err e, s') ->
  _documents (fst s') = _documents (fst s).
Proof.
  unfold DocumentOperations.updateDocumentWithOperators,
    DocumentOperations.idOf.
  destruct i; cbn; try (intros H; now inversion H).
  unfold bind, ret, throw, this, assign, lift; cbn [fst snd].
  destruct (obj_get s0 (_documents (fst s))); [|discriminate].
  destruct (Engine.applyOperators v u); cbn; [discriminate|].
  intros H; now inversion H.
Qed.

Lemma deleteDocument_failed i s e s' :
  DocumentOperations.deleteDocument i s = (Err e, s') ->
  _documents (fst s') = _documents (fst s).
Proof.
  unfold DocumentOperations.deleteDocument, DocumentOperations.idOf.
  destruct i; cbn; try (intros H; now inversion H).
  unfold bind, ret, throw, this, assign; cbn [fst snd].
  destruct (obj_get s0 (_documents (fst s))); cbn; discriminate.
Qed.

(** A step of [failsWithin sameCollection]: the validations and queries
    before the one primitive that writes, the primitive, and what
    follows it, which returns. *)
Ltac atomic_step :=
  match goal with
  | |- failsWithin _ (bind _ensureLoaded _) => apply fails_after_load
  | |- failsWithin _ (bind (DocumentOperations.insertDocument _) _) =>
      apply fails_bind_runs;
      [apply failed_keeps_documents;
         [apply docs_insertDocument | apply insertDocument_failed]
      | apply returned_ready, docs_insertDocument
      | repeat runs_step]
  | |- failsWithin _ (bind (DocumentOperations.replaceDocument _ _) _) =>
      apply fails_bind_runs;
      [apply failed_keeps_documents;
         [apply docs_replaceDocument | apply replaceDocument_failed]
      | apply returned_ready, docs_replaceDocument
      | repeat runs_step]
  | |- failsWithin _ (bind (DocumentOperations.updateDocument _ _) _) =>
      unfold DocumentOperations.updateDocument
  | |- failsWithin _
         (bind (DocumentOperations.updateDocumentWithOperators _ _) _) =>
      apply fails_bind_runs;
      [apply failed_keeps_documents;
         [apply docs_updateDocumentWithOperators
         | apply updateDocumentWithOperators_failed]
      | apply returned_ready, docs_updateDocumentWithOperators
      | repeat runs_step]
  | |- failsWithin _ (bind (DocumentOperations.deleteDocument _) _) =>
      apply fails_bind_runs;
      [apply failed_keeps_documents;
         [apply docs_deleteDocument | apply deleteDocument_failed]
      | apply returned_ready, docs_deleteDocument
      | repeat runs_step]
  | |- failsWithin _ (bind _ (fun a => ret _)) => apply fails_map
  | |- failsWithin _ (bind _ _) =>
      apply (fails_bind_steps sameCollection_trans sameCollection_ready);
      [unfold DocumentOperations.findByQuery,
         DocumentOperations.findAllDocuments; samecoll|]
  | |- failsWithin _ (ret _) => apply fails_ret
  | |- failsWithin _ (if ?b then _ else _) => destruct b
  | |- failsWithin _ (match ?x with _ => _ end) => destruct x
  | |- forall _, _ => intro
  end.

(** X13.  When [insertOne], [updateOne], [replaceOne] or [deleteOne]
    throws on a loaded collection, the collection is not marked dirty by
    the call and no blob was written; and if the call has asked nothing
    of the services by then - it threw at a validation, at the query or
    in the primitive of DocumentOperations, each before anything is
    assigned - it is all or nothing: the collection object is exactly as
    before, documents, metadata and flags.  (A publication that throws
    comes after the primitive and after the call on the master index,
    and is not covered: the modelled publication returns.) *)
Theorem single_document_mutation_is_all_or_nothing (op : call) (s : State)
  (e : error) (s' : State) :
  changesOne op = true ->
  _loaded (fst s) = true ->
  _collectionMetadata (fst s) <> None ->
  perform op s = (Err e, s') ->
  _dirty (fst s') = _dirty (fst s) /\
  _loaded (fst s') = true /\
  files (snd s') = files (snd s) /\
  (trace (snd s') = trace (snd s) ->
   fst s' = fst s /\ sameOutside (snd s) (snd s')).
Proof.
  intros Hop HL HM Hrun.
  assert (H : failsWithin sameCollection (perform op)).
  { destruct op; cbn [changesOne perform] in *; try discriminate;
      unfold insertOne, updateOne, _updateOneWithOperators,
        _updateOneWithReplacement, replaceOne, deleteOne; cbv zeta;
      repeat atomic_step. }
  destruct (H s e s' (conj HL HM) Hrun) as [Hc Hw].
  rewrite Hc. repeat split; try assumption; try apply Hw.
Qed.

(** X14.  When [updateMany] throws on a loaded collection, the
    collection is not marked dirty by the call, stays loaded, and no
    blob was written; and if the call has asked nothing of the services
    by then - it threw at a validation, at the query or at an update of
    the loop - the metadata is as before as well: only documents may
    differ, those rewritten before the failing one.  (A publication that
    throws, after the loop, is not covered: the modelled publication
    returns.) *)
Theorem failed_updateMany_is_not_marked_dirty (filter update : value)
  (s : State) (e : error) (s' : State) :
  _loaded (fst s) = true ->
  _collectionMetadata (fst s) <> None ->
  updateMany filter update s = (Err e, s') ->
  _dirty (fst s') = _dirty (fst s) /\
  _loaded (fst s') = true /\
  files (snd s') = files (snd s) /\
  (trace (snd s') = trace (snd s) ->
   _collectionMetadata (fst s') = _collectionMetadata (fst s) /\
   sameOutside (snd s) (snd s')).
Proof.
  intros HL HM Hrun.
  assert (H : failsWithin sameButDocuments (updateMany filter update)).
  { unfold updateMany. apply fails_after_load.
    do 4 (apply (fails_bind_steps sameButDocuments_trans
                   sameButDocuments_ready);
          [unfold DocumentOperations.findMultipleByQuery; docsonly | intro]).
    match goal with |- failsWithin _ (if ?b then _ else _) => destruct b end;
      [apply fails_ret|].
    apply fails_bind_runs;
      [apply fails_steps, docs_updateEach
      | apply returned_ready, docs_updateEach
      | repeat runs_step]. }
  destruct (H s e s' (conj HL HM) Hrun) as [[d Hd] Hw].
  rewrite Hd. cbn. repeat split; try assumption; try apply Hw.
Qed.

End ThrowingWithEngines.

(** Inserting a document under an identifier the sample collection
    already has. *)
Lemma single_document_mutation_is_all_or_nothing_witness :
  let s := (Sample.loaded, Sample.outside) in
  let op := InsertOne (VObj [("_id", VStr "a"); ("n", VNum 7)]) in
  changesOne op = true /\
  _loaded (fst s) = true /\
  _collectionMetadata (fst s) <> None /\
  perform (E := Engine.spec) op s = (Err DuplicateKey, s) /\
  trace (snd s) = trace (snd s) /\
  (fst s = fst s /\ sameOutside (snd s) (snd s)).
Proof.
  intros s op. split; [reflexivity|]. split; [reflexivity|].
  split; [discriminate|]. split; [reflexivity|]. split; [reflexivity|].
  refine (proj2 (proj2 (proj2
    (@single_document_mutation_is_all_or_nothing Engine.spec op s
       DuplicateKey s _ _ _ _))) eq_refl);
    [reflexivity | reflexivity | discriminate | reflexivity].
Defined.

(** Incrementing [n] everywhere when the second document holds a string
    there: the first document is incremented, the call throws, and the
    collection is not dirty. *)
Lemma failed_updateMany_is_not_marked_dirty_witness :
  let c := with_documents
             [("a", Sample.anna);
              ("b", VObj [("_id", VStr "b"); ("n", VStr "two")])]
             Sample.loaded in
  let s := (c, Sample.outside) in
  let inc := VObj [("$inc", VObj [("n", VNum 1)])] in
  let s' := snd (updateMany (E := Engine.spec) (VObj []) inc s) in
  _loaded (fst s) = true /\
  _collectionMetadata (fst s) <> None /\
  updateMany (E := Engine.spec) (VObj []) inc s = (Err InvalidUpdate, s') /\
  obj_get "a" (_documents (fst s'))
    = Some (VObj [("_id", VStr "a"); ("n", VNum 2)]) /\
  trace (snd s') = trace (snd s) /\
  _dirty (fst s') = _dirty (fst s) /\
  _loaded (fst s') = true /\
  files (snd s') = files (snd s) /\
  _collectionMetadata (fst s') = _collectionMetadata (fst s) /\
  sameOutside (snd s) (snd s').
Proof.
  intros c s inc s'. split; [reflexivity|]. split; [discriminate|].
  split; [reflexivity|]. split; [reflexivity|]. split; [reflexivity|].
  assert (H := @failed_updateMany_is_not_marked_dirty Engine.spec (VObj [])
                 inc s InvalidUpdate s' eq_refl
                 ltac:(discriminate) eq_refl).
  destruct H as (H1 & H2 & H3 & H4).
  split; [exact H1|]. split; [exact H2|]. split; [exact H3|].
  exact (H4 eq_refl).
Defined.

(** ** Lookups after a change *)

Lemma obj_get_replace_other k' k v o :
  k' <> k -> obj_get k' (obj_replace k v o) = obj_get k' o.
Proof.
  intros Hne. induction o as [|[k0 v0] r IH]; cbn; [reflexivity|].
  destruct (k0 =? k) eqn:Hk; cbn.
  - apply String.eqb_eq in Hk; subst k0.
    destruct (k =? k') eqn:Hk'; [|reflexivity].
    apply String.eqb_eq in Hk'. congruence.
  - destruct (k0 =? k'); [reflexivity | exact IH].
Qed.

Lemma obj_get_replace_same k v o old :
  obj_get k o = Some old -> obj_get k (obj_replace k v o) = Some v.
Proof.
  induction o as [|[k0 v0] r IH]; cbn; [discriminate|].
  destruct (k0 =? k) eqn:Hk; cbn.
  - now rewrite String.eqb_refl.
  - rewrite Hk. exact IH.
Qed.

Lemma obj_get_insert_index_other k' i k v o :
  k' <> k -> obj_get k' (obj_insert_index i k v o) = obj_get k' o.
Proof.
  intros Hne.
  assert (Hk : (k =? k') = false) by (apply String.eqb_neq; congruence).
  induction o as [|[k0 v0] r IH]; cbn; [now rewrite Hk|].
  destruct (array_index k0) as [j|]; [destruct (j <? i)%N|]; cbn;
    rewrite ?Hk, ?IH; reflexivity.
Qed.

Lemma obj_get_app_other k' k v o :
  k' <> k -> obj_get k' (o ++ [(k, v)])%list = obj_get k' o.
Proof.
  intros Hne.
  assert (Hk : (k =? k') = false) by (apply String.eqb_neq; congruence).
  induction o as [|[k0 v0] r IH]; cbn; [now rewrite Hk|].
  destruct (k0 =? k'); [reflexivity | exact IH].
Qed.

Lemma obj_get_set_other k' k v o :
  k' <> k -> obj_get k' (obj_set k v o) = obj_get k' o.
Proof.
  intros Hne. unfold obj_set. destruct (obj_get k o).
  - now apply obj_get_replace_other.
  - destruct (array_index k).
    + now apply obj_get_insert_index_other.
    + now apply obj_get_app_other.
Qed.



Lemma obj_get_in k v o : NoDup (keys o) -> In (k, v) o -> obj_get k o = Some v.
Proof.
  induction o as [|[k0 v0] r IH]; cbn; intros Hnd Hin; [contradiction|].
  inversion Hnd; subst. destruct Hin as [Heq|Hin].
  - inversion Heq; subst. now rewrite String.eqb_refl.
  - destruct (k0 =? k) eqn:Hk; [|now apply IH].
    apply String.eqb_eq in Hk; subst k0. exfalso. apply H1.
    change k with (fst (k, v)). now apply in_map.
Qed.

Lemma stored_in k v o : storedUnderId o = true -> In (k, v) o -> prop "_id" v = VStr k.
Proof.
  unfold storedUnderId. intros H Hin.
  rewrite forallb_forall in H. specialize (H _ Hin). cbn in H.
  now apply deepEqual_VStr.
Qed.

Section Found.
Context {E : Engine.t}.



End Found.

Lemma insertDocument_returned doc s d s' :
  DocumentOperations.insertDocument doc s = (Ok d, s') ->
  exists id o,
    doc = VObj o /\ d = VObj (obj_set "_id" (VStr id) o) /\
    obj_get id (_documents (fst s)) = None /\
    _loaded (fst s') = _loaded (fst s) /\
    _documents (fst s') = obj_set id d (_documents (fst s)).
Proof.
  unfold DocumentOperations.insertDocument, DocumentOperations.generateId.
  intros H. destruct doc as [ | | | | | | |o]; try discriminate.
  destruct (DocumentOperations.hasOperatorKeys (VObj o)); [discriminate|].
  apply bind_inv in H as (id & s1 & Hid & H).
  assert (Hs1 : fst s1 = fst s).
  { destruct (obj_get "_id" o) as [v|]; repeat returned; reflexivity. }
  unfold bind, this, assign, ret, throw in H. cbn [fst snd] in H.
  rewrite Hs1 in H.
  destruct (obj_get id (_documents (fst s))) eqn:Hget; [discriminate|].
  inversion H; subst. exists id, o. cbn. repeat split; auto.
  now rewrite Hs1.
Qed.

(** X15.  A document [insertOne] has inserted is there: the call returns the
    identifier under which the document, with that [_id], is now stored
    and which no document had before; every other document is where it
    was; and [findOne({_id})] with that identifier, which the filter
    validation wants non-empty, returns the document. *)
Theorem inserted_document_is_found {E : Engine.t} (doc : value) (s : State)
  (r : insertResult) (s' : State) :
  _loaded (fst s) = true ->
  insertOne doc s = (Ok r, s') ->
  exists id o,
    doc = VObj o /\
    insertedId r = VStr id /\
    obj_get id (_documents (fst s)) = None /\
    obj_get id (_documents (fst s'))
      = Some (VObj (obj_set "_id" (VStr id) o)) /\
    (forall k, k <> id ->
       obj_get k (_documents (fst s')) = obj_get k (_documents (fst s))) /\
    (id <> EmptyString ->
     findOne (VObj [("_id", VStr id)]) s'
       = (Ok (Some (VObj (obj_set "_id" (VStr id) o))), s')).
Proof.
  intros HL H. unfold insertOne in H. rewrite (run_loaded _ s HL) in H.
  apply bind_inv in H as (d & s1 & Hins & H).
  apply insertDocument_returned in Hins
    as (id & o & -> & -> & Hnew & HL1 & Hdocs).
  rewrite HL in HL1.
  apply bind_inv in H as (c1 & s1' & Hthis & H). unfold this in Hthis.
  inversion Hthis; subst c1 s1'; clear Hthis.
  apply bind_inv in H as (u & s2 & Hmeta & H).
  apply updateMetadata_returned_frame in Hmeta as (HL2 & Hd2);
    [|exact HL1].
  unfold _markDirty in H. repeat returned.
  cbn [fst snd _documents with_dirty insertedId _loaded] in *.
  exists id, o. split; [reflexivity|]. split.
  { cbn. now rewrite obj_get_set. }
  split; [exact Hnew|].
  assert (Hget : obj_get id (_documents (fst s2))
                 = Some (VObj (obj_set "_id" (VStr id) o)))
    by (rewrite Hd2, Hdocs; apply obj_get_set).
  split; [exact Hget|]. split.
  - intros k Hk. rewrite Hd2, Hdocs. now apply obj_get_set_other.
  - intros Hid. unfold findOne. cbv zeta.
    rewrite run_loaded by exact HL2.
    assert (HV : _validateFilter (VObj [("_id", VStr id)]) = Ok tt).
    { unfold _validateFilter; cbn.
      destruct (id =? EmptyString) eqn:He; [|reflexivity].
      apply String.eqb_eq in He. contradiction. }
    cbn [defaultTo]. rewrite HV, bind_lift_Ok.
    cbn. unfold DocumentOperations.findDocumentById,
      DocumentOperations.idOf, bind, this, ret; cbn [fst snd _documents].
    now rewrite Hget.
Qed.

(** Inserting a third document into the sample collection. *)
Lemma inserted_document_is_found_witness :
  let s := (Sample.loaded, Sample.outside) in
  let doc := VObj [("_id", VStr "c"); ("n", VNum 3)] in
  _loaded (fst s) = true /\
  exists r s',
    insertOne doc s = (Ok r, s') /\
    exists id o,
      doc = VObj o /\
      insertedId r = VStr id /\
      obj_get id (_documents (fst s)) = None /\
      obj_get id (_documents (fst s'))
        = Some (VObj (obj_set "_id" (VStr id) o)) /\
      (forall k, k <> id ->
         obj_get k (_documents (fst s')) = obj_get k (_documents (fst s))) /\
      (id <> EmptyString ->
       findOne (E := Engine.spec) (VObj [("_id", VStr id)]) s'
         = (Ok (Some (VObj (obj_set "_id" (VStr id) o))), s')).
Proof.
  intros s doc. split; [reflexivity|].
  eexists; eexists. split; [vm_compute; reflexivity|].
  eapply (@inserted_document_is_found Engine.spec doc s); [reflexivity|].
  vm_compute; reflexivity.
Defined.



Section DeleteFound.
Context {E : Engine.t}.


End DeleteFound.








(** ** What [updateMany] updates *)

Lemma stored_ids docs :
  storedUnderId docs = true ->
  map (prop "_id") (values docs) = map VStr (keys docs).
Proof.
  unfold storedUnderId, values, keys.
  induction docs as [|[k d] r IH]; cbn; [reflexivity|].
  intros H. apply andb_true_iff in H as [Hk Hr].
  apply deepEqual_VStr in Hk. now rewrite Hk, IH.
Qed.

Lemma NoDup_map_VStr l : NoDup l -> NoDup (map VStr l).
Proof.
  induction 1 as [|k l Hin Hnd IH]; cbn; constructor; [|exact IH].
  intros H. apply in_map_iff in H as (k' & Heq & Hk').
  inversion Heq; subst. contradiction.
Qed.

Lemma obj_get_Some_in k d o : obj_get k o = Some d -> In (k, d) o.
Proof.
  induction o as [|[k0 v0] r IH]; cbn; [discriminate|].
  destruct (k0 =? k) eqn:Hk; intros H.
  - apply String.eqb_eq in Hk. inversion H; subst. now left.
  - right. now apply IH.
Qed.

Section EveryMatch.
Context {E : Engine.t}.

Lemma findAll_members docs f l :
  DocumentOperations.findAll docs f = Ok l ->
  (forall d, In d l -> In d docs /\ Engine.matches d f = Ok true) /\
  (forall d, In d docs ->
     Engine.matches d f = Ok false \/
     (Engine.matches d f = Ok true /\ In d l)) /\
  (forall (g : value -> value), NoDup (map g docs) -> NoDup (map g l)).
Proof.
  revert l; induction docs as [|x r IH]; cbn; intros l H.
  - inversion H; subst.
    split; [|split]; [intros d [] | intros d [] | intros g _; constructor].
  - destruct (Engine.matches x f) as [b|e] eqn:Hm; cbn in H; [|discriminate].
    destruct (DocumentOperations.findAll r f) as [rest|e]; cbn in H;
      [|discriminate].
    destruct (IH rest eq_refl) as (H1 & H2 & H3).
    inversion H; subst l; clear H. split; [|split].
    + intros d Hd. destruct b; [destruct Hd as [<-|Hd]|].
      * split; [now left | exact Hm].
      * destruct (H1 d Hd). split; [now right | assumption].
      * destruct (H1 d Hd). split; [now right | assumption].
    + intros d [<-|Hd].
      * destruct b; [right; split; [exact Hm | now left] | now left].
      * destruct (H2 d Hd) as [Hf|[Ht Hin]]; [now left|].
        right. split; [exact Ht|]. destruct b; [now right | exact Hin].
    + intros g Hnd. inversion Hnd; subst.
      destruct b; [|now apply H3]. cbn. constructor; [|now apply H3].
      intros Hin. apply in_map_iff in Hin as (y & Hy & Hyin).
      apply H4. rewrite <- Hy. apply in_map. now apply H1.
Qed.

(** The loop of [updateMany] over documents stored under distinct
    identifiers: each is replaced by what the engine makes of it, and no
    other entry is touched. *)
Lemma updateEach_run l u n c w total s' :
  (forall d, In d l ->
     exists k, prop "_id" d = VStr k /\ obj_get k (_documents c) = Some d) ->
  NoDup (map (prop "_id") l) ->
  updateEach l u n (c, w) = (Ok total, s') ->
  (forall d k, In d l -> prop "_id" d = VStr k ->
     exists d', Engine.applyOperators d u = Ok d' /\
                obj_get k (_documents (fst s')) = Some d') /\
  (forall k, ~ In (VStr k) (map (prop "_id") l) ->
     obj_get k (_documents (fst s')) = obj_get k (_documents c)).
Proof.
  revert n c w; induction l as [|d r IH]; intros n c w Hstored Hnd H;
    cbn [updateEach] in H.
  - unfold ret in H. inversion H; subst. split; [intros ? ? []|reflexivity].
  - destruct (Hstored d (or_introl eq_refl)) as (k & Hid & Hget).
    inversion Hnd as [|? ? Hfresh Hnd']; subst. rewrite Hid in Hfresh.
    apply bind_inv in H as (res & s1 & Hone & H).
    rewrite Hid in Hone.
    unfold DocumentOperations.updateDocumentWithOperators,
      DocumentOperations.idOf, bind, ret, this, assign, lift in Hone.
    cbn [fst snd] in Hone. rewrite Hget in Hone.
    destruct (Engine.applyOperators d u) as [d'|e] eqn:Happ;
      [|discriminate].
    inversion Hone; subst res s1; clear Hone.
    apply IH in H; [|intros d2 Hd2|exact Hnd'].
    + destruct H as [Hin Hout]. cbn [_documents with_documents] in Hout.
      split.
      * intros d0 k0 [<-|Hd0] Hk0.
        -- rewrite Hid in Hk0. inversion Hk0; subst k0.
           exists d'. split; [exact Happ|].
           rewrite (Hout k Hfresh). eapply obj_get_replace_same.
           exact Hget.
        -- now apply Hin.
      * intros k0 Hk0. cbn [map] in Hk0. rewrite Hid in Hk0.
        rewrite Hout by (intros Hx; apply Hk0; now right).
        apply obj_get_replace_other.
        intros ->. apply Hk0. now left.
    + destruct (Hstored d2 (or_intror Hd2)) as (k2 & Hid2 & Hget2).
      exists k2. split; [exact Hid2|]. cbn [_documents with_documents].
      rewrite obj_get_replace_other; [exact Hget2|].
      intros ->. apply Hfresh. rewrite <- Hid2. now apply in_map.
Qed.

(** X18.  [updateMany] updates every document that matches, and no other:
    when it returns on a loaded collection that holds each document
    under its own [_id], each stored document that matches the filter
    has been replaced, under its key, by what the
    UpdateEngine makes of it, and each document that does not match is
    as it was. *)
Theorem updateMany_updates_every_match (filter update : value)
  (c : Collection) (w : World) (r : updateResult) (s' : State) :
  _loaded c = true ->
  wellStored (_documents c) ->
  updateMany filter update (c, w) = (Ok r, s') ->
  forall k d,
    obj_get k (_documents c) = Some d ->
    match Engine.matches d filter with
    | Ok true =>
        exists d', Engine.applyOperators d update = Ok d' /\
                   obj_get k (_documents (fst s')) = Some d'
    | Ok false => obj_get k (_documents (fst s')) = Some d
    | Err _ => False
    end.
Proof.
  intros HL [Hnd Hst] H k d Hget.
  unfold updateMany in H. rewrite (run_loaded _ (c, w) HL) in H.
  apply bind_lift_inv in H as ([] & HV & H).
  apply bind_lift_inv in H as (? & _ & H).
  apply bind_lift_inv in H as (? & _ & H).
  apply bind_inv in H as (l & s1 & Hfind & H).
  unfold DocumentOperations.findMultipleByQuery, bind, this, lift in Hfind.
  cbn [fst snd] in Hfind.
  destruct (DocumentOperations.findAll (values (_documents c)) filter)
    as [l0|e] eqn:Hall; inversion Hfind; subst l0 s1; clear Hfind.
  destruct (findAll_members _ _ Hall) as (Hsub & Hmatch & Hdistinct).
  assert (Hin : In d (values (_documents c))).
  { unfold values. change d with (snd (k, d)). apply in_map.
    now apply obj_get_Some_in. }
  assert (Hentry : forall d2, In d2 l ->
            exists k2, prop "_id" d2 = VStr k2 /\
                       obj_get k2 (_documents c) = Some d2).
  { intros d2 Hd2. apply Hsub in Hd2 as [Hd2 _]. unfold values in Hd2.
    apply in_map_iff in Hd2 as ([k2 y] & Hy & Hy2). cbn in Hy; subst y.
    exists k2. split; [eapply stored_in; eassumption|now apply obj_get_in]. }
  assert (Hother : Engine.matches d filter = Ok false ->
                   ~ In (VStr k) (map (prop "_id") l)).
  { intros Hf Hk. apply in_map_iff in Hk as (d2 & Hid2 & Hd2).
    destruct (Hentry d2 Hd2) as (k2 & Hk2 & Hget2).
    rewrite Hk2 in Hid2. inversion Hid2; subst k2.
    rewrite Hget in Hget2. inversion Hget2; subst d2.
    destruct (Hsub d Hd2) as [_ Ht]. congruence. }
  assert (Hids : NoDup (map (prop "_id") l)).
  { apply Hdistinct. rewrite (stored_ids _ Hst). now apply NoDup_map_VStr. }
  destruct (List.length l =? 0)%nat eqn:Hlen.
  - unfold ret in H. inversion H; subst r s'; clear H. cbn [fst].
    destruct l; [|discriminate].
    destruct (Hmatch d Hin) as [Hf|[_ []]]. now rewrite Hf.
  - apply bind_inv in H as (total & s2 & Heach & H).
    assert (HL2 : _loaded (fst s2) = true).
    { pose proof (@keys_updateEach E l update 0 (c, w) HL) as [HL2 _].
      now rewrite Heach in HL2. }
    destruct (@updateEach_run l update 0 c w total s2 Hentry Hids Heach)
      as [Hin2 Hout2].
    assert (Hdocs : _documents (fst s') = _documents (fst s2)).
    { apply bind_inv in H as (u & s3 & Htouch & H).
      unfold ret in H. inversion H; subst r s'; clear H.
      destruct (0 <? total)%nat; [|unfold ret in Htouch; now inversion Htouch].
      apply bind_inv in Htouch as (u2 & s4 & Hmeta & Hdirty).
      apply updateMetadata_returned_frame in Hmeta as [_ Hd]; [|exact HL2].
      unfold _markDirty, assign in Hdirty. inversion Hdirty; subst.
      cbn. exact Hd. }
    rewrite Hdocs.
    destruct (Hmatch d Hin) as [Hf|[Ht Hdl]].
    + rewrite Hf. rewrite (Hout2 k (Hother Hf)). exact Hget.
    + rewrite Ht. apply Hin2; [exact Hdl|].
      eapply stored_under_key; eassumption.
Qed.

End EveryMatch.

(** Setting [n] to 5 where [n] is 2 in the sample collection: "b" is
    updated, "a" is as it was. *)
Lemma updateMany_updates_every_match_witness :
  let s := (Sample.loaded, Sample.outside) in
  let filter := VObj [("n", VNum 2)] in
  let r := {| matchedCount := 1; modifiedCount := 1; acknowledged := true |} in
  let s' := snd (updateMany (E := Engine.spec) filter Sample.setN5 s) in
  _loaded Sample.loaded = true /\
  wellStored (_documents Sample.loaded) /\
  updateMany (E := Engine.spec) filter Sample.setN5 s = (Ok r, s') /\
  obj_get "a" (_documents (fst s')) = Some Sample.anna /\
  exists d',
    UpdateEngine.applyOperators Sample.ben Sample.setN5 = Ok d' /\
    obj_get "b" (_documents (fst s')) = Some d'.
Proof.
  intros s filter r s'.
  assert (Hrun : updateMany (E := Engine.spec) filter Sample.setN5 s
                 = (Ok r, s')) by reflexivity.
  split; [reflexivity|]. split; [exact wellStored_sample|].
  split; [exact Hrun|]. split.
  - exact (@updateMany_updates_every_match Engine.spec filter Sample.setN5
             Sample.loaded Sample.outside r s' eq_refl wellStored_sample
             Hrun "a" Sample.anna eq_refl).
  - exact (@updateMany_updates_every_match Engine.spec filter Sample.setN5
             Sample.loaded Sample.outside r s' eq_refl wellStored_sample
             Hrun "b" Sample.ben eq_refl).
Defined.

(** ** A new collection *)

Lemma ensureLoaded_reads s :
  _loaded (fst s) = false ->
  trace (snd (snd (_ensureLoaded s)))
    = (trace (snd s) ++ [ReadFile (_driveFileId (fst s))])%list.
Proof.
  destruct s as [c w]. cbn [fst snd]. intros HL.
  unfold _ensureLoaded, _loadData, rethrow, FileService.readFile, bind, this,
    world, effect, assign, throw, ret, lift.
  cbn -[CollectionMetadata.new prop truthy typeof_object own_properties obj_get].
  rewrite HL.
  cbn -[CollectionMetadata.new prop truthy typeof_object own_properties obj_get].
  destruct (available w);
    cbn -[CollectionMetadata.new prop truthy typeof_object own_properties
          obj_get]; [|reflexivity].
  destruct (obj_get (_driveFileId c) (files w)) as [data|];
    cbn -[CollectionMetadata.new prop truthy typeof_object own_properties
          obj_get]; [|reflexivity].
  destruct (negb (truthy data) || negb (typeof_object data));
    cbn -[CollectionMetadata.new prop truthy typeof_object own_properties
          obj_get]; [reflexivity|].
  match goal with
  | |- context [CollectionMetadata.new ?a ?b ?c ?d] =>
      destruct (CollectionMetadata.new a b c d)
  end; reflexivity.
Qed.

Section FirstCall.
Context {E : Engine.t}.

(** Every method that loads first is [_ensureLoaded()] followed by what
    it does on a loaded collection. *)
Lemma serve_after_load rq s s1 :
  loadsFirst rq = true -> _ensureLoaded s = (Ok tt, s1) ->
  serve rq s = serve rq s1.
Proof.
  intros Hrq Hload. pose proof Hload as HL.
  apply ensureLoaded_returned in HL.
  pose proof (ensureLoaded_loaded s1 HL) as Hload1.
  destruct rq as [op| | | |]; cbn [loadsFirst serve] in *;
    try discriminate.
  - destruct op; cbn [perform];
      unfold insertOne, findOne, find, updateOne, updateMany, replaceOne,
        deleteOne, countDocuments; cbv zeta;
      now rewrite !bind_bind, (run_Ok Hload), (run_Ok Hload1).
  - unfold getMetadata.
    now rewrite !bind_bind, (run_Ok Hload), (run_Ok Hload1).
Qed.

(** X19.  A new collection is lazy.  The constructor accepts only a non-empty
    string as name and as file identifier, and reads nothing.  On the
    instance it returns, [getName()] returns the name, [isDirty()]
    returns false and [save()] does nothing, all without touching the
    blob; and the first call of any other method asks FileService for
    the blob exactly once, before anything else it does outside. *)
Theorem new_collection_is_lazy (name driveFileId : value) (c : Collection)
  (w : World) :
  constructor name driveFileId = Ok c ->
  (exists n f,
     name = VStr n /\ driveFileId = VStr f /\
     n <> EmptyString /\ f <> EmptyString /\
     getName (c, w) = (Ok n, (c, w)) /\ _driveFileId c = f) /\
  isDirty (c, w) = (Ok false, (c, w)) /\
  save (c, w) = (Ok tt, (c, w)) /\
  (forall rq,
     loadsFirst rq = true ->
     exists evs,
       emitted (c, w) (snd (serve rq (c, w)))
         (ReadFile (_driveFileId c) :: evs) /\
       forallb (fun e => negb (isRead e)) evs = true).
Proof.
  intros Hnew. unfold constructor in Hnew.
  destruct name as [ | | | |n| | |]; try discriminate.
  destruct driveFileId as [ | | | |f| | |]; cbn in Hnew;
    try (destruct (n =? EmptyString); discriminate).
  destruct (n =? EmptyString) eqn:Hn; [discriminate|].
  destruct (f =? EmptyString) eqn:Hf; [discriminate|].
  cbn in Hnew. inversion Hnew; subst c; clear Hnew.
  apply String.eqb_neq in Hn, Hf.
  split; [exists n, f; repeat split; assumption|].
  split; [reflexivity|]. split; [reflexivity|].
  intros rq Hrq.
  match goal with
  | |- context [serve rq (?c0, w)] => set (c := c0)
  end.
  assert (HL : _loaded (fst (c, w)) = false) by reflexivity.
  pose proof (ensureLoaded_reads (c, w) HL) as Hread.
  destruct (_ensureLoaded (c, w)) as [[[]|e] s1] eqn:Hload.
  - rewrite (@serve_after_load rq (c, w) s1 Hrq Hload).
    pose proof Hload as HL1. apply ensureLoaded_returned in HL1.
    destruct (noread_serve rq s1 HL1) as (_ & evs & Hevs & Hno).
    exists evs. split; [|exact Hno].
    unfold emitted in *. rewrite Hevs. cbn [snd] in Hread. rewrite Hread.
    now rewrite <- app_assoc.
  - exists []. split; [|reflexivity].
    assert (Hs : snd (serve rq (c, w)) = s1).
    { destruct rq as [op| | | |]; cbn [loadsFirst serve] in *;
        try discriminate.
      - destruct op; cbn [perform];
          unfold insertOne, findOne, find, updateOne, updateMany,
            replaceOne, deleteOne, countDocuments; cbv zeta;
          now rewrite !bind_bind, (run_Err Hload).
      - unfold getMetadata. now rewrite !bind_bind, (run_Err Hload). }
    rewrite Hs. exact Hread.
Qed.

End FirstCall.

(** The collection "people" on "file-1". *)
Lemma new_collection_is_lazy_witness :
  constructor (VStr "people") (VStr "file-1") = Ok Sample.fresh /\
  isDirty (Sample.fresh, Sample.outside)
    = (Ok false, (Sample.fresh, Sample.outside)) /\
  save (Sample.fresh, Sample.outside)
    = (Ok tt, (Sample.fresh, Sample.outside)).
Proof.
  split; [reflexivity|].
  destruct (@new_collection_is_lazy Engine.spec (VStr "people")
              (VStr "file-1") Sample.fresh Sample.outside eq_refl)
    as (_ & Hd & Hs & _).
  split; [exact Hd | exact Hs].
Defined.

(** ** Calls that report no change *)

Section NoChange.
Context {E : Engine.t}.

Lemma rewrittenEqual_trans a b c :
  rewrittenEqual a b -> rewrittenEqual b c -> rewrittenEqual a c.
Proof.
  induction 1 as [|? ? ? ? ? Hget Heq _ IH]; intros Hbc; [exact Hbc|].
  eapply rewritten_one; [exact Hget | exact Heq | exact (IH Hbc)].
Qed.

Lemma rewrittenOnly_refl s : rewrittenOnly s s.
Proof. split; [apply sameButDocuments_refl | apply rewritten_none]. Qed.

Lemma rewrittenOnly_trans s1 s2 s3 :
  rewrittenOnly s1 s2 -> rewrittenOnly s2 s3 -> rewrittenOnly s1 s3.
Proof.
  intros [A1 A2] [B1 B2]. split.
  - eapply sameButDocuments_trans; eassumption.
  - eapply rewrittenEqual_trans; eassumption.
Qed.

Lemma rewrittenOnly_same s s' : s' = s -> rewrittenOnly s s'.
Proof. intros ->. apply rewrittenOnly_refl. Qed.

Lemma rewrittenOnly_one c w k old d :
  obj_get k (_documents c) = Some old ->
  ObjectUtils.deepEqual d old = true ->
  rewrittenOnly (c, w) (with_documents (obj_replace k d (_documents c)) c, w).
Proof.
  intros Hget Heq. split.
  - split; [eexists; reflexivity | apply sameOutside_refl].
  - cbn [fst]. eapply rewritten_one; [exact Hget | exact Heq |].
    destruct c; cbn. apply rewritten_none.
Qed.

Lemma findByQuery_same f s a s' :
  DocumentOperations.findByQuery f s = (Ok a, s') -> s' = s.
Proof.
  unfold DocumentOperations.findByQuery. intros H. repeat returned.
  reflexivity.
Qed.

Lemma findAllDocuments_same s a s' :
  DocumentOperations.findAllDocuments s = (Ok a, s') -> s' = s.
Proof.
  unfold DocumentOperations.findAllDocuments. intros H. repeat returned.
  reflexivity.
Qed.

Lemma findMultipleByQuery_same f s a s' :
  DocumentOperations.findMultipleByQuery f s = (Ok a, s') -> s' = s.
Proof.
  unfold DocumentOperations.findMultipleByQuery. intros H. repeat returned.
  reflexivity.
Qed.

(** An update primitive that reports no modification has stored a
    document structurally equal to the one it replaces, or none. *)
Lemma replaceDocument_unmodified i d s r s' :
  DocumentOperations.replaceDocument i d s = (Ok r, s') ->
  DocumentOperations.modifiedCount r = 0 ->
  rewrittenOnly s s'.
Proof.
  unfold DocumentOperations.replaceDocument, DocumentOperations.idOf.
  intros H Hn. destruct s as [c w].
  repeat returned; cbn [DocumentOperations.modifiedCount] in Hn.
  - match goal with
    | Hx : obj_get _ _ = Some _ |- _ => cbn [fst] in Hx
    end.
    match type of Hn with
    | (if ?b then _ else _) = _ => destruct b eqn:Heq; [|discriminate]
    end.
    cbn [fst snd]. eapply rewrittenOnly_one; eassumption.
  - apply rewrittenOnly_refl.
Qed.

Lemma updateDocumentWithOperators_unmodified i u s r s' :
  DocumentOperations.updateDocumentWithOperators i u s = (Ok r, s') ->
  DocumentOperations.modifiedCount r = 0 ->
  rewrittenOnly s s'.
Proof.
  unfold DocumentOperations.updateDocumentWithOperators,
    DocumentOperations.idOf.
  intros H Hn. destruct s as [c w].
  repeat returned; cbn [DocumentOperations.modifiedCount] in Hn.
  - match goal with
    | Hx : obj_get _ _ = Some _ |- _ => cbn [fst] in Hx
    end.
    match type of Hn with
    | (if ?b then _ else _) = _ => destruct b eqn:Heq; [|discriminate]
    end.
    cbn [fst snd]. eapply rewrittenOnly_one; eassumption.
  - apply rewrittenOnly_refl.
Qed.

(** A deletion that reports 0 has deleted nothing. *)
Lemma deleteDocument_none i s s' :
  DocumentOperations.deleteDocument i s = (Ok 0, s') -> s' = s.
Proof.
  unfold DocumentOperations.deleteDocument, DocumentOperations.idOf.
  intros H. repeat returned. reflexivity.
Qed.

Lemma updateEach_grows docs u n s m s' :
  updateEach docs u n s = (Ok m, s') -> n <= m.
Proof.
  revert n s; induction docs as [|d r IH]; intros n s H; cbn [updateEach] in H.
  - returned. lia.
  - apply bind_inv in H as (res & s1 & _ & H). apply IH in H. lia.
Qed.

(** A loop that modified no document rewrote each into an equal one. *)
Lemma updateEach_unmodified docs u n s s' :
  updateEach docs u n s = (Ok n, s') -> rewrittenOnly s s'.
Proof.
  revert s; induction docs as [|d r IH]; intros s H; cbn [updateEach] in H.
  - returned. apply rewrittenOnly_refl.
  - apply bind_inv in H as (res & s1 & Hone & H).
    pose proof (updateEach_grows _ _ _ _ H) as Hle.
    assert (Hz : DocumentOperations.modifiedCount res = 0) by lia.
    rewrite Hz, Nat.add_0_r in H.
    eapply rewrittenOnly_trans;
      [exact (updateDocumentWithOperators_unmodified _ _ _ Hone Hz)
      | exact (IH _ H)].
Qed.

(** From the runs of the primitives to the relation between the first
    and the last state. *)
Ltac along :=
  repeat match goal with
  | H : ?m ?s0 = (Ok _, ?s1) |- rewrittenOnly ?s0 _ =>
      apply (rewrittenOnly_trans (s2 := s1));
      [ first
          [ apply rewrittenOnly_same;
            first [ eapply findAllDocuments_same; exact H
                  | eapply findByQuery_same; exact H
                  | eapply findMultipleByQuery_same; exact H
                  | eapply deleteDocument_none; exact H ]
          | eapply replaceDocument_unmodified; [exact H | assumption]
          | eapply updateDocumentWithOperators_unmodified;
            [exact H | assumption]
          | eapply updateEach_unmodified; exact H ]
      | clear H ]
  end;
  try apply rewrittenOnly_refl.

(** X20.  A mutation call that reports no change - [modifiedCount] 0 or
    [deletedCount] 0 - has not marked the collection dirty, has left the
    metadata alone and has asked nothing of FileService or of the master
    index; and its documents map is the one before, but for documents
    rewritten in place into structurally equal ones.  ([insertOne]
    always reports its insertion.) *)
Theorem call_reporting_no_change_marks_nothing (op : call) (s : State)
  (r : reply) (s' : State) :
  isMutation op = true ->
  _loaded (fst s) = true ->
  perform op s = (Ok r, s') ->
  changes r = 0 ->
  _dirty (fst s') = _dirty (fst s) /\
  _collectionMetadata (fst s') = _collectionMetadata (fst s) /\
  sameOutside (snd s) (snd s') /\
  rewrittenEqual (_documents (fst s)) (_documents (fst s')).
Proof.
  intros Hop HL Hrun Hn.
  assert (H : rewrittenOnly s s').
  { destruct op; cbn [isMutation perform] in *; try discriminate;
      unfold insertOne, updateOne, _updateOneWithOperators,
        _updateOneWithReplacement, updateMany, replaceOne in Hrun;
      try rewrite deleteOne_blocks in Hrun; cbv zeta in Hrun;
      unfold deleteByQuery, deleteById in Hrun;
      rewrite ?bind_bind in Hrun;
      rewrite (run_loaded _ s HL) in Hrun.
    all: repeat returned.
    all: cbn [changes modifiedCount deletedCount] in Hn.
    all: try discriminate.
    all: try match goal with
         | Hb : (0 <? _)%nat = true |- _ =>
             apply Nat.ltb_lt in Hb; exfalso; cbn in *; lia
         end.
    all: try subst.
    all: unfold DocumentOperations.updateDocument in *.
    all: [> along .. ].
  }
  destruct H as [[[d Hd] Hw] Hr]. rewrite Hd in *. cbn. auto.
Qed.

End NoChange.

(** Setting [n] to 1 in the document "a" of the sample collection, where
    it is 1 already: the document is rewritten into an equal one. *)
Lemma call_reporting_no_change_marks_nothing_witness :
  let s := (Sample.loaded, Sample.outside) in
  let op := UpdateOne (VStr "a") Sample.setN1 in
  isMutation op = true /\
  _loaded (fst s) = true /\
  perform (E := Engine.spec) op s = (Ok (Updated noUpdate), s) /\
  changes (Updated noUpdate) = 0 /\
  (_dirty (fst s) = _dirty (fst s) /\
   _collectionMetadata (fst s) = _collectionMetadata (fst s) /\
   sameOutside (snd s) (snd s) /\
   rewrittenEqual (_documents (fst s)) (_documents (fst s))).
Proof.
  intros s op. do 4 (split; [reflexivity|]).
  exact (@call_reporting_no_change_marks_nothing Engine.spec op s
           (Updated noUpdate) s eq_refl eq_refl eq_refl eq_refl).
Defined.

(** ** What [replaceOne] replaces, and what [insertOne] adds *)




Lemma obj_set_new_length k v o :
  obj_get k o = None ->
  List.length (keys (obj_set k v o)) = S (List.length (keys o)).
Proof.
  intros H. unfold obj_set. rewrite H. unfold keys.
  destruct (array_index k) as [i|].
  - induction o as [|[k' v'] r IH]; cbn in *; [reflexivity|].
    destruct (k' =? k); [discriminate|].
    destruct (array_index k') as [j|]; [destruct (j <? i)%N|]; cbn;
      try reflexivity.
    now rewrite IH.
  - rewrite map_app, length_app. cbn. lia.
Qed.

(** X22.  [insertOne] adds one document: when it returns on a loaded
    collection, the documents map has one entry more, the metadata
    count is that number, the collection is dirty, and
    [countDocuments({})] right after returns the previous total plus
    one. *)
Theorem insertOne_adds_one {E : Engine.t} (doc : value) (s : State)
  (r : insertResult) (s' : State) :
  _loaded (fst s) = true ->
  insertOne doc s = (Ok r, s') ->
  let total := S (List.length (keys (_documents (fst s)))) in
  List.length (keys (_documents (fst s'))) = total /\
  option_map CollectionMetadata.documentCount (_collectionMetadata (fst s'))
    = Some total /\
  _dirty (fst s') = true /\
  countDocuments (VObj []) s' = (Ok total, s').
Proof.
  intros HL H. cbv zeta. unfold insertOne in H.
  rewrite (run_loaded _ s HL) in H.
  apply bind_inv in H as (d & s1 & Hins & H).
  apply insertDocument_returned in Hins
    as (id & o & -> & -> & Hnew & HL1 & Hdocs).
  rewrite HL in HL1.
  apply bind_inv in H as (c1 & s1' & Hthis & H). unfold this in Hthis.
  inversion Hthis; subst c1 s1'; clear Hthis.
  apply bind_inv in H as (u & s2 & Hmeta & H).
  unfold _markDirty in H. repeat returned.
  assert (Hlen : List.length (keys (_documents (fst s1)))
                 = S (List.length (keys (_documents (fst s))))).
  { rewrite Hdocs. now apply obj_set_new_length. }
  rewrite Hlen in Hmeta.
  unfold _updateMetadata in Hmeta.
  rewrite (run_loaded _ s1 HL1) in Hmeta.
  destruct s1 as [c1 w1]. cbn [fst snd] in *.
  unfold bind, this, world, assign, MasterIndex.updateCollectionMetadata,
    effect, throw, ret in Hmeta. cbn [fst snd] in Hmeta.
  destruct (_collectionMetadata c1) as [m|]; [|discriminate].
  assert (Hs2 : _loaded (fst s2) = true /\
                _documents (fst s2) = _documents c1 /\
                option_map CollectionMetadata.documentCount
                  (_collectionMetadata (fst s2))
                = Some (S (List.length (keys (_documents (fst s)))))).
  { cbn [fst snd] in Hmeta.
    destruct (masterIndex w1) eqn:HM; unfold bind, world in Hmeta;
      cbn [fst snd masterIndex log] in Hmeta; rewrite ?HM in Hmeta;
      inversion Hmeta; subst s2; cbn; auto. }
  destruct Hs2 as (HL2 & Hd2 & Hc2).
  cbn [fst snd _documents _collectionMetadata _dirty with_dirty].
  rewrite Hd2, Hlen. split; [reflexivity|]. split; [exact Hc2|].
  split; [reflexivity|].
  unfold countDocuments. cbv zeta.
  rewrite run_loaded by exact HL2.
  change (defaultTo (VObj []) (VObj [])) with (VObj []).
  change (_validateFilter (VObj [])) with (@Ok unit tt).
  rewrite bind_lift_Ok.
  change (js_keys (VObj [])) with (@nil string). cbn [List.length Nat.eqb].
  unfold DocumentOperations.countDocuments, bind, this, ret.
  cbn [fst snd _documents with_dirty]. now rewrite Hd2, Hlen.
Qed.

(** A third document for the sample collection. *)
Lemma insertOne_adds_one_witness :
  let s := (Sample.loaded, Sample.outside) in
  let doc := VObj [("n", VNum 3)] in
  let s' := snd (insertOne doc s) in
  _loaded (fst s) = true /\
  fst (insertOne doc s) = Ok {| insertedId := VStr "uuid-0";
                                insertAcknowledged := true |} /\
  countDocuments (E := Engine.spec) (VObj []) s' = (Ok 3, s').
Proof.
  intros s doc s'. split; [reflexivity|]. split; [reflexivity|].
  refine (proj2 (proj2 (proj2
    (@insertOne_adds_one Engine.spec doc s
       {| insertedId := VStr "uuid-0"; insertAcknowledged := true |} s'
       eq_refl _)))).
  reflexivity.
Defined.
